(** * AnySignals: a shallow embedding of the rate-limited gateway

  The development follows the layout of the JavaScript sources:

  - [Js]            JSON values and the few JavaScript notions the code relies on
  - [ToolRegistry]  lib/tool-registry.js
  - [Runtime]       the store, the effect log and the monad of the async code
  - [AnysiteClient] lib/anysite-client.js
  - [Callback]      lib/callback.js
  - [Queue]         lib/queue.js
  - [Worker]        worker.js
  - [Server]        server.js

  Asynchronous functions are written in explicit state-passing style over a
  [World] that holds the Redis store and the log of observable effects; the
  answers of the outside world (downstream API, callback receivers, the
  clock, [Math.random]) are oracles passed as arguments. *)

From Stdlib Require Import ZArith QArith Qround Qminmax Qpower Lqa String Ascii List Lia Bool.
From stdpp Require Import base gmap strings list pretty.

Set Warnings "-register-all".
#[local] Open Scope string_scope.
#[local] Open Scope list_scope.

(* ====================================================================== *)
(** ** JavaScript values *)
(* ====================================================================== *)

Module Js.

(** JSON-compatible values.  Numbers are exact rationals. *)
Inductive jsval : Type :=
| JUndefined
| JNull
| JBool (b : bool)
| JNum (q : Q)
| JStr (s : string)
| JArr (l : list jsval)
| JObj (o : gmap string jsval)
| JNative.   (* a function or object inherited from [Object.prototype] *)

(** Property names every plain object inherits from [Object.prototype]. *)
Definition objectPrototypeKeys : list string :=
  [ "constructor"; "toString"; "toLocaleString"; "valueOf"; "hasOwnProperty";
    "isPrototypeOf"; "propertyIsEnumerable"; "__proto__";
    "__defineGetter__"; "__defineSetter__"; "__lookupGetter__"; "__lookupSetter__" ].

Definition inherited (k : string) : bool :=
  existsb (String.eqb k) objectPrototypeKeys.

(** [o[k]] on a plain object: own property, else the prototype's, else
    [undefined]. *)
Definition get (o : gmap string jsval) (k : string) : jsval :=
  match o !! k with
  | Some v => v
  | None => if inherited k then JNative else JUndefined
  end.

(** [s.includes(sub)] *)
Fixpoint includes (s sub : string) : bool :=
  String.prefix sub s ||
  match s with
  | EmptyString => false
  | String _ rest => includes rest sub
  end.

(** Truthiness of an optional string ([undefined], [null] and [''] are falsy). *)
Definition truthy_str (s : option string) : bool :=
  match s with
  | Some (String _ _) => true
  | _ => false
  end.

(** [parseInt(process.env.X, 10) || dflt]: the parse of the environment
    variable is [None] when it is unset or not a number ([NaN]); [NaN] and
    [0] are falsy. *)
Definition parsed_or (parsed : option Z) (dflt : Z) : Z :=
  match parsed with
  | Some n => if (n =? 0)%Z then dflt else n
  | None => dflt
  end.

(** [Math.round]: the nearest integer, ties towards plus infinity. *)
Definition round (x : Q) : Z := Qfloor (x + (1 # 2)).

(** [Math.ceil] *)
Definition ceil (x : Q) : Z := Qceiling x.

(** Outcome of a call that may throw. *)
Inductive result (A E : Type) : Type :=
| Returned (a : A)
| Threw (e : E).
Arguments Returned {A E} a.
Arguments Threw {A E} e.

End Js.
Export Js.

(* ====================================================================== *)
(** ** lib/tool-registry.js *)
(* ====================================================================== *)

Module ToolRegistry.

Record ToolConfig := mkTool {
  endpoint : string;
  method : string;
  requiredParams : list string;
  optionalParams : list string;
  description : string
}.

(** The table, in source order ([Object.keys] and [Object.entries] follow
    insertion order). *)
Definition TOOL_REGISTRY : list (string * ToolConfig) :=
  [ ("get_linkedin_profile",
     mkTool "/api/linkedin/profile" "POST" ["user"]
       ["with_experience"; "with_education"; "with_skills"; "timeout"]
       "Get LinkedIn profile data");
    ("search_linkedin_users",
     mkTool "/api/linkedin/users/search" "POST" ["count"]
       ["keywords"; "first_name"; "last_name"; "title"; "company"; "location"; "industry"; "timeout"]
       "Search for LinkedIn users");
    ("get_linkedin_user_posts",
     mkTool "/api/linkedin/user/posts" "POST" ["urn"] ["count"; "timeout"]
       "Get posts from a LinkedIn user");
    ("get_linkedin_company",
     mkTool "/api/linkedin/company" "POST" ["company"] ["timeout"]
       "Get LinkedIn company data");
    ("get_linkedin_company_posts",
     mkTool "/api/linkedin/company/posts" "POST" ["urn"] ["count"; "timeout"]
       "Get posts from a LinkedIn company");
    ("search_linkedin_companies",
     mkTool "/api/linkedin/companies/search" "POST" ["count"]
       ["keywords"; "location"; "industry"; "company_size"; "timeout"]
       "Search for LinkedIn companies");
    ("get_linkedin_company_employees",
     mkTool "/api/linkedin/company/employees" "POST" ["company"; "count"]
       ["keywords"; "title"; "timeout"]
       "Get employees of a LinkedIn company");
    ("search_linkedin_posts",
     mkTool "/api/linkedin/posts/search" "POST" ["count"]
       ["keywords"; "sort"; "date_posted"; "authors"; "author_industries";
        "author_title"; "content_type"; "mentioned"; "timeout"]
       "Search for LinkedIn posts");
    ("get_linkedin_post",
     mkTool "/api/linkedin/post" "POST" ["urn"]
       ["include_all_document_images"; "timeout"]
       "Get a specific LinkedIn post");
    ("get_linkedin_post_comments",
     mkTool "/api/linkedin/post/comments" "POST" ["urn"; "count"] ["sort"; "timeout"]
       "Get comments on a LinkedIn post");
    ("get_linkedin_post_reactions",
     mkTool "/api/linkedin/post/reactions" "POST" ["urn"; "count"] ["timeout"]
       "Get reactions on a LinkedIn post");
    ("get_linkedin_group",
     mkTool "/api/linkedin/group" "POST" ["group"] ["timeout"]
       "Get LinkedIn group data");
    ("get_instagram_user",
     mkTool "/api/instagram/user" "POST" ["user"] ["timeout"]
       "Get Instagram user profile");
    ("get_instagram_user_posts",
     mkTool "/api/instagram/user/posts" "POST" ["user"; "count"] ["timeout"]
       "Get posts from an Instagram user");
    ("get_instagram_post",
     mkTool "/api/instagram/post" "POST" ["post"] ["timeout"]
       "Get a specific Instagram post");
    ("get_instagram_post_comments",
     mkTool "/api/instagram/post/comments" "POST" ["post"; "count"] ["timeout"]
       "Get comments on an Instagram post");
    ("get_instagram_post_likes",
     mkTool "/api/instagram/post/likes" "POST" ["post"; "count"] ["timeout"]
       "Get likes on an Instagram post");
    ("search_instagram_posts",
     mkTool "/api/instagram/posts/search" "POST" ["query"; "count"] ["timeout"]
       "Search for Instagram posts");
    ("get_instagram_user_followers",
     mkTool "/api/instagram/user/followers" "POST" ["user"; "count"] ["timeout"]
       "Get followers of an Instagram user");
    ("get_instagram_user_following",
     mkTool "/api/instagram/user/following" "POST" ["user"; "count"] ["timeout"]
       "Get accounts an Instagram user follows");
    ("get_twitter_user",
     mkTool "/api/twitter/user" "POST" ["user"] ["timeout"]
       "Get Twitter/X user profile");
    ("get_twitter_user_tweets",
     mkTool "/api/twitter/user/tweets" "POST" ["user"; "count"] ["timeout"]
       "Get tweets from a Twitter/X user");
    ("search_twitter_posts",
     mkTool "/api/twitter/posts/search" "POST" ["query"; "count"] ["timeout"]
       "Search for Twitter/X posts");
    ("get_twitter_post",
     mkTool "/api/twitter/post" "POST" ["post"] ["timeout"]
       "Get a specific Twitter/X post");
    ("get_twitter_user_followers",
     mkTool "/api/twitter/user/followers" "POST" ["user"; "count"] ["timeout"]
       "Get followers of a Twitter/X user");
    ("get_twitter_user_following",
     mkTool "/api/twitter/user/following" "POST" ["user"; "count"] ["timeout"]
       "Get accounts a Twitter/X user follows");
    ("search_reddit_posts",
     mkTool "/api/reddit/posts/search" "POST" ["query"; "count"]
       ["subreddit"; "sort"; "time_filter"; "timeout"]
       "Search for Reddit posts");
    ("get_reddit_post",
     mkTool "/api/reddit/post" "POST" ["post_url"] ["timeout"]
       "Get a specific Reddit post");
    ("get_reddit_post_comments",
     mkTool "/api/reddit/post/comments" "POST" ["post_url"] ["count"; "sort"; "timeout"]
       "Get comments on a Reddit post");
    ("get_reddit_user",
     mkTool "/api/reddit/user" "POST" ["user"] ["timeout"]
       "Get Reddit user profile");
    ("get_reddit_subreddit",
     mkTool "/api/reddit/subreddit" "POST" ["subreddit"] ["timeout"]
       "Get subreddit information");
    ("search_sec_companies",
     mkTool "/sec/search/companies" "POST" []
       ["forms"; "entityName"; "locationCodes"; "dateRange"; "count"; "timeout"]
       "Search SEC EDGAR for companies");
    ("get_sec_document",
     mkTool "/sec/document" "POST" ["url"] ["timeout"]
       "Get an SEC document") ].

(** Own-property lookup in the table. *)
Fixpoint own (table : list (string * ToolConfig)) (name : string) : option ToolConfig :=
  match table with
  | [] => None
  | (k, c) :: rest => if String.eqb k name then Some c else own rest name
  end.

(** What [TOOL_REGISTRY[toolName]] evaluates to when it is truthy: a tool
    definition, or something inherited from [Object.prototype] (which has no
    [requiredParams]). *)
Inductive entry :=
| Tool (c : ToolConfig)
| Inherited.

(** [TOOL_REGISTRY[toolName] || null] *)
Definition getTool (toolName : string) : option entry :=
  match own TOOL_REGISTRY toolName with
  | Some c => Some (Tool c)
  | None => if Js.inherited toolName then Some Inherited else None
  end.

(** [toolName in TOOL_REGISTRY] *)
Definition toolExists (toolName : string) : bool :=
  match own TOOL_REGISTRY toolName with
  | Some _ => true
  | None => Js.inherited toolName
  end.

Record Validation := mkValidation {
  valid : bool;
  missing : list string;
  error : option string
}.

(** The test of the loop body of [validateParams]. *)
Definition blank (v : jsval) : bool :=
  match v with
  | JUndefined => true
  | JNull => true
  | JStr EmptyString => true
  | _ => false
  end.

(** The [for (const param of tool.requiredParams)] loop, with the array
    [missing] threaded through; [push] appends. *)
Fixpoint validate_loop (params : gmap string jsval) (required : list string)
    (missing : list string) : list string :=
  match required with
  | [] => missing
  | param :: rest =>
      if blank (Js.get params param)
      then validate_loop params rest (missing ++ [param])
      else validate_loop params rest missing
  end.

(** The [TypeError] of iterating over [undefined]. *)
Inductive Raised := NotIterable.

Definition validateParams (toolName : string) (params : gmap string jsval)
    : result Validation Raised :=
  match getTool toolName with
  | None =>
      Returned (mkValidation false [] (Some ("Unknown tool: " +:+ toolName)))
  | Some Inherited => Threw NotIterable
  | Some (Tool tool) =>
      let missing := validate_loop params (requiredParams tool) [] in
      Returned (mkValidation (length missing =? 0)%nat missing None)
  end.

Definition listTools : list string := map fst TOOL_REGISTRY.

(** The object built by [getToolsByCategory], its keys in source order. *)
Definition empty_categories : gmap string (list string) :=
  list_to_map
    [ ("linkedin-profiles", []); ("linkedin-companies", []);
      ("linkedin-posts", []); ("linkedin-groups", []);
      ("instagram", []); ("twitter", []); ("reddit", []); ("sec", []) ].

(** [categories[cat].push(name)] *)
Definition push (cat name : string) (categories : gmap string (list string))
    : gmap string (list string) :=
  alter (fun l => l ++ [name]) cat categories.

(** One iteration of the loop of [getToolsByCategory]. *)
Definition categorize (name : string) (categories : gmap string (list string))
    : gmap string (list string) :=
  if includes name "linkedin" then
    if includes name "company" then push "linkedin-companies" name categories
    else if includes name "post" || includes name "reaction" || includes name "comment"
    then push "linkedin-posts" name categories
    else if includes name "group" then push "linkedin-groups" name categories
    else push "linkedin-profiles" name categories
  else if includes name "instagram" then push "instagram" name categories
  else if includes name "twitter" then push "twitter" name categories
  else if includes name "reddit" then push "reddit" name categories
  else if includes name "sec" then push "sec" name categories
  else categories.

Definition categorize_all (table : list (string * ToolConfig))
    (categories : gmap string (list string)) : gmap string (list string) :=
  fold_left (fun cats e => categorize (fst e) cats) table categories.

Definition getToolsByCategory : gmap string (list string) :=
  categorize_all TOOL_REGISTRY empty_categories.

End ToolRegistry.

(* ====================================================================== *)
(** ** The world the asynchronous code runs in *)
(* ====================================================================== *)

(** What axios hands back: a resolved response (2xx) or a rejection. *)
Module Http.

Record Response := mkResponse {
  status : Z;
  data : jsval
}.

(** The fields of an axios rejection the code inspects: [error.code],
    [error.message] and [error.response]. *)
Record AxiosError := mkAxiosError {
  code : option string;
  message : option string;
  response : option Response
}.

Inductive outcome :=
| Resolved (r : Response)
| Rejected (e : AxiosError).

(** [v?.[k]] for the two keys the code reads off a response body. *)
Definition prop (v : jsval) (k : string) : jsval :=
  match v with
  | JObj o => Js.get o k
  | _ => JUndefined
  end.

(** JavaScript truthiness. *)
Definition truthy (v : jsval) : bool :=
  match v with
  | JUndefined | JNull => false
  | JBool b => b
  | JNum q => negb (Qeq_bool q 0)
  | JStr s => negb (String.eqb s "")
  | JArr _ | JObj _ | JNative => true
  end.

End Http.

Module Runtime.

(** The text of an [Error]; interpolated values are kept as arguments of
    the template they are spliced into. *)
Inductive Message :=
| MsgUnknownTool (tool : string)            (* `Unknown tool: ${tool}` *)
| MsgMissing (missing : list string)        (* `Missing required parameters: ${missing.join(', ')}` *)
| MsgApi (upstream : jsval)                 (* `AnySite API error: ${message}` *)
| MsgText (text : string).

(** The error built by [formatError]. *)
Record ApiError := mkApiError {
  upstream : jsval;
  endpoint : string;
  status : option Z;
  originalError : Http.AxiosError;
  responseData : option jsval
}.

(** Thrown values. *)
Inductive Exn :=
| PlainError (m : Message)
| FormattedError (e : ApiError)
| TypeError (text : string).

(** [error.message] *)
Definition message (e : Exn) : Message :=
  match e with
  | PlainError m => m
  | FormattedError e => MsgApi (upstream e)
  | TypeError text => MsgText text
  end.

(** A BullMQ job, as far as the code reads it. *)
Record JobData := mkJobData {
  tool : string;
  params : gmap string jsval;
  rowId : jsval;
  callbackUrl : option string;
  batchId : option string
}.

Record JobOpts := mkJobOpts {
  attempts : Z;
  priority : Z
}.

Record Job := mkJob {
  id : string;
  data : JobData;
  opts : JobOpts;
  attemptsMade : Z
}.

(** The two object literals handed to [storeResult]. *)
Inductive ResultBody :=
| CompletedResult (jobId : string) (rowId : jsval) (tool : string)
    (data : jsval) (completedAt : string)
| FailedResult (jobId : string) (rowId : jsval) (tool : string)
    (error : Message) (failedAt : string).   (* status: 'failed' *)

(** What [redis.setex] stores under a result key. *)
Record StoredResult := mkStored {
  body : ResultBody;
  storedAt : string;
  ttl : Z
}.

(** The hash kept per batch. *)
Record Batch := mkBatch {
  total : Z;
  completed : Z;
  failed : Z;
  createdAt : option string;
  batchTool : option string
}.

(** The counter [updateBatchProgress] increments: ['completed'] or ['failed']. *)
Inductive ProgressField := Completed | Failed.

(** The body POSTed to a callback URL. *)
Record Payload := mkPayload {
  p_jobId : string;
  p_rowId : jsval;
  p_batchId : option string;
  p_tool : string;
  p_status : string;
  p_processedAt : string;
  p_data : option jsval;
  p_error : option Message;
  p_attempts : option Z
}.

(** Observable effects, in the order they happen. *)
Inductive Event :=
| ApiRequest (method endpoint : string) (body : option (gmap string jsval)) (timeout : Z)
| ApiSleep (ms : Z)
| CallbackPost (url : string) (payload : Payload) (timeout : Z) (attempt : Z)
| CallbackSleep (ms : Z)
| ResultStored (key : string) (r : StoredResult)
| BatchIncremented (batchId : string) (field : ProgressField)
| JobActive (jobId : string).

Record World := mkWorld {
  results : gmap string StoredResult;   (* anysignals:result:* keys *)
  batches : gmap string Batch;          (* anysignals:batch:* hashes *)
  queue : list Job;                     (* jobs handed to BullMQ, oldest first *)
  nextId : nat;                         (* BullMQ's job id counter *)
  log : list Event;
  tick : nat                            (* interactions with the outside so far *)
}.

(** The counts BullMQ reports to [getQueueStats]. *)
Record Counts := mkCounts {
  waiting : Z;
  active : Z;
  completedCount : Z;
  failedCount : Z;
  delayed : Z
}.

(** The outside world: each answer is a function of the number of
    interactions that preceded it. *)
Record Env := mkEnv {
  api : nat -> Http.outcome;       (* the downstream API *)
  hook : nat -> Http.outcome;      (* the callback receiver *)
  random : nat -> Q;               (* Math.random() *)
  now : nat -> string;             (* new Date().toISOString() *)
  counts : nat -> Counts;          (* BullMQ's job counts *)
  uuidv4 : nat -> string           (* uuidv4() *)
}.

(** Process configuration, after [parseInt(process.env.X, 10)]. *)
Record Config := mkConfig {
  WEBHOOK_SECRET : option string;
  MAX_BATCH_SIZE_env : option Z;
  DRIP_INTERVAL_MS_env : option Z;
  RESULT_TTL_SECONDS_env : option Z;
  CALLBACK_MAX_RETRIES_env : option Z;
  CALLBACK_TIMEOUT_MS_env : option Z;
  CALLBACK_RETRY_DELAY_MS_env : option Z
}.

(** Async computations: state passing over the world, with exceptions. *)
Definition M (A : Type) : Type := World -> result A Exn * World.

Definition ret {A} (a : A) : M A := fun w => (Returned a, w).

Definition throw {A} (e : Exn) : M A := fun w => (Threw e, w).

Definition bind {A B} (m : M A) (k : A -> M B) : M B :=
  fun w =>
    match m w with
    | (Returned a, w') => k a w'
    | (Threw e, w') => (Threw e, w')
    end.

(** [try { m } catch (e) { h e }] *)
Definition try_catch {A} (m : M A) (h : Exn -> M A) : M A :=
  fun w =>
    match m w with
    | (Returned a, w') => (Returned a, w')
    | (Threw e, w') => h e w'
    end.

Definition emit (e : Event) : M unit :=
  fun w => (Returned tt,
            mkWorld (results w) (batches w) (queue w) (nextId w) (log w ++ [e]) (tick w)).

(** Consult the outside world once. *)
Definition ask {A} (oracle : nat -> A) : M A :=
  fun w => (Returned (oracle (tick w)),
            mkWorld (results w) (batches w) (queue w) (nextId w) (log w) (S (tick w))).

Definition when (b : bool) (m : M unit) : M unit :=
  if b then m else ret tt.

End Runtime.

Declare Scope async_scope.
Delimit Scope async_scope with async.
Notation "'let*' x := m 'in' k" := (Runtime.bind m (fun x => k))
(at level 10, x name, m at level 100, k at level 200, only parsing) : async_scope.
Notation "'do' m 'then' k" := (Runtime.bind m (fun _ => k))
(at level 10, m at level 100, k at level 200, only parsing) : async_scope.

#[local] Open Scope async_scope.

(* ====================================================================== *)
(** ** lib/anysite-client.js *)
(* ====================================================================== *)

Module AnysiteClient.
Import Http Runtime.

Definition code_is (error : AxiosError) (c : string) : bool :=
  match Http.code error with
  | Some c' => String.eqb c' c
  | None => false
  end.

(** [error.response?.status] *)
Definition response_status (error : AxiosError) : option Z :=
  match Http.response error with
  | Some r => Some (Http.status r)
  | None => None
  end.

(** [error.response?.status <cmp> n]; a comparison with [undefined] is false. *)
Definition status_sat (error : AxiosError) (test : Z -> bool) : bool :=
  match response_status error with
  | Some s => test s
  | None => false
  end.

(** [error.message?.includes('timeout')] *)
Definition message_has_timeout (error : AxiosError) : bool :=
  match Http.message error with
  | Some m => includes m "timeout"
  | None => false
  end.

Definition isRetryableError (error : AxiosError) : bool :=
  if code_is error "ECONNREFUSED" || code_is error "ECONNRESET" ||
     code_is error "ETIMEDOUT" || code_is error "ENOTFOUND"
  then true
  else if code_is error "ECONNABORTED" || message_has_timeout error then true
  else if status_sat error (fun s => s =? 429)%Z then true
  else if status_sat error (fun s => 500 <=? s)%Z then true
  else if status_sat error (fun s => 400 <=? s)%Z && status_sat error (fun s => s <? 500)%Z
  then false
  else false.

(** [getRetryDelay(attempt)], with the value [u] drawn by [Math.random()]. *)
Definition getRetryDelay (attempt : Z) (u : Q) : Z :=
  let baseDelay : Q := 1000%Q in
  let maxDelay : Q := 30000%Q in
  let delay := Qmin (baseDelay * Qpower 2 (attempt - 1))%Q maxDelay in
  let jitter := (delay * (1 # 10) * (u * 2 - 1))%Q in
  Js.round (delay + jitter)%Q.

(** [error.response?.data] *)
Definition response_data (error : AxiosError) : jsval :=
  match Http.response error with
  | Some r => Http.data r
  | None => JUndefined
  end.

Definition own_message (error : AxiosError) (fallback : string) : jsval :=
  match Http.message error with
  | Some (String _ _ as m) => JStr m
  | _ => JStr fallback
  end.

Definition getErrorMessage (error : AxiosError) : jsval :=
  if truthy (prop (response_data error) "message") then prop (response_data error) "message"
  else if truthy (prop (response_data error) "error") then prop (response_data error) "error"
  else own_message error "Unknown error".

(** [formatError(error, endpoint)]; [error] is [null] when the loop of
    [request] never ran, and reading [null.response] throws. *)
Definition formatError (error : option AxiosError) (endpoint : string) : Exn :=
  match error with
  | None => TypeError "Cannot read properties of null (reading 'response')"
  | Some error =>
      FormattedError
        (mkApiError (getErrorMessage error) endpoint (response_status error) error
           (match Http.response error with Some r => Some (Http.data r) | None => None end))
  end.

Record Options := mkOptions {
  method : option string;
  endpoint : string;
  data : option (gmap string jsval);
  timeout : option Z;
  maxRetries : option Z
}.

(** [timeout || 60000] *)
Definition effective_timeout (timeout : option Z) : Z :=
  match timeout with
  | Some t => if (t =? 0)%Z then 60000%Z else t
  | None => 60000%Z
  end.

(** The [for (let attempt = 1; attempt <= maxRetries; attempt++)] loop of
    [request]; [remaining] counts the iterations still to run.  The [catch]
    block ends without [break], [return] or [throw], so control always
    reaches [attempt++]. *)
Fixpoint request_loop (env : Env) (options : Options) (maxRetries : Z)
    (remaining : nat) (attempt : Z) (lastError : option AxiosError) : M jsval :=
  match remaining with
  | O => throw (formatError lastError (endpoint options))
  | S remaining' =>
      let* r :=
        (do emit (ApiRequest (default "POST" (method options)) (endpoint options)
                    (data options) (effective_timeout (timeout options)))
         then ask (api env)) in
      match r with
      | Resolved response => ret (Http.data response)
      | Rejected error =>
          let shouldRetry := isRetryableError error && (attempt <? maxRetries)%Z in
          do (if shouldRetry
              then (let* u := ask (random env) in emit (ApiSleep (getRetryDelay attempt u)))
              else ret tt)
          then request_loop env options maxRetries remaining' (attempt + 1)%Z (Some error)
      end
  end.

Definition request (env : Env) (options : Options) : M jsval :=
  let maxRetries := default 3%Z (maxRetries options) in
  request_loop env options maxRetries (Z.to_nat maxRetries) 1%Z None.

End AnysiteClient.

(* ====================================================================== *)
(** ** lib/callback.js *)
(* ====================================================================== *)

Module Callback.
Import Http Runtime.

Record Outcome := mkOutcome {
  success : bool;
  attempts : Z;
  status : option Z;
  error : option jsval;
  skipped : bool
}.

Record Options := mkOptions {
  maxRetries : option Z;
  timeout : option Z;
  baseDelay : option Z
}.

Definition noOptions : Options := mkOptions None None None.

Definition isRetryableCallbackError (error : AxiosError) : bool :=
  if existsb (AnysiteClient.code_is error)
       ["ECONNREFUSED"; "ECONNRESET"; "ETIMEDOUT"; "ENOTFOUND"; "ECONNABORTED"]
  then true
  else if AnysiteClient.message_has_timeout error then true
  else if AnysiteClient.status_sat error (fun s => s =? 429)%Z then true
  else if AnysiteClient.status_sat error (fun s => 500 <=? s)%Z then true
  else if AnysiteClient.status_sat error (fun s => 400 <=? s)%Z &&
          AnysiteClient.status_sat error (fun s => s <? 500)%Z
  then false
  else false.

Definition calculateBackoff (attempt : Z) (baseDelay : Z) (u : Q) : Z :=
  let maxDelay : Q := 30000%Q in
  let delay := Qmin (inject_Z baseDelay * Qpower 2 (attempt - 1))%Q maxDelay in
  let jitter := (delay * (2 # 10) * (u * 2 - 1))%Q in
  Js.round (delay + jitter)%Q.

Definition getErrorMessage (error : AxiosError) : jsval :=
  if truthy (prop (AnysiteClient.response_data error) "message")
  then prop (AnysiteClient.response_data error) "message"
  else if truthy (prop (AnysiteClient.response_data error) "error")
  then prop (AnysiteClient.response_data error) "error"
  else AnysiteClient.own_message error "Unknown callback error".

(** The loop of [sendCallback]; as in [AnysiteClient.request_loop] the
    [catch] block falls through to the next iteration. *)
Fixpoint sendCallback_loop (env : Env) (callbackUrl : string) (payload : Payload)
    (maxRetries timeout baseDelay : Z) (remaining : nat) (attempt : Z)
    (lastError : option AxiosError) : M Outcome :=
  match remaining with
  | O =>
      match lastError with
      | Some e => ret (mkOutcome false maxRetries None (Some (getErrorMessage e)) false)
      | None => throw (TypeError "Cannot read properties of null (reading 'response')")
      end
  | S remaining' =>
      let* r :=
        (do emit (CallbackPost callbackUrl payload timeout attempt) then ask (hook env)) in
      match r with
      | Resolved response =>
          ret (mkOutcome true attempt (Some (Http.status response)) None false)
      | Rejected error =>
          let shouldRetry := isRetryableCallbackError error && (attempt <? maxRetries)%Z in
          do (if shouldRetry
              then (let* u := ask (random env) in
                    emit (CallbackSleep (calculateBackoff attempt baseDelay u)))
              else ret tt)
          then sendCallback_loop env callbackUrl payload maxRetries timeout baseDelay
                 remaining' (attempt + 1)%Z (Some error)
      end
  end.

Definition sendCallback (cfg : Config) (env : Env) (callbackUrl : string)
    (payload : Payload) (options : Options) : M Outcome :=
  let maxRetries :=
    default (Js.parsed_or (CALLBACK_MAX_RETRIES_env cfg) 3) (maxRetries options) in
  let timeout :=
    default (Js.parsed_or (CALLBACK_TIMEOUT_MS_env cfg) 10000) (timeout options) in
  let baseDelay :=
    default (Js.parsed_or (CALLBACK_RETRY_DELAY_MS_env cfg) 1000) (baseDelay options) in
  sendCallback_loop env callbackUrl payload maxRetries timeout baseDelay
    (Z.to_nat maxRetries) 1%Z None.

Inductive Status := StatusCompleted | StatusFailed.

Definition status_text (s : Status) : string :=
  match s with
  | StatusCompleted => "completed"
  | StatusFailed => "failed"
  end.

(** [job.data.batchId || null] *)
Definition batchId_or_null (b : option string) : option string :=
  if Js.truthy_str b then b else None.

Definition buildCallbackPayload (env : Env) (job : Job) (result : jsval)
    (status : Status) (error : option Message) : M Payload :=
  let* processedAt := ask (now env) in
  ret (match status with
       | StatusCompleted =>
           mkPayload (id job) (rowId (Runtime.data job))
             (batchId_or_null (batchId (Runtime.data job))) (tool (Runtime.data job))
             (status_text status) processedAt (Some result) None None
       | StatusFailed =>
           mkPayload (id job) (rowId (Runtime.data job))
             (batchId_or_null (batchId (Runtime.data job))) (tool (Runtime.data job))
             (status_text status) processedAt None error (Some (attemptsMade job))
       end).

Definition skippedOutcome : Outcome := mkOutcome true 0 None None true.

Definition sendCompletedCallback (cfg : Config) (env : Env) (job : Job)
    (result : jsval) : M Outcome :=
  match callbackUrl (Runtime.data job) with
  | Some (String _ _ as url) =>
      let* payload := buildCallbackPayload env job result StatusCompleted None in
      sendCallback cfg env url payload noOptions
  | _ => ret skippedOutcome
  end.

Definition sendFailedCallback (cfg : Config) (env : Env) (job : Job)
    (errorMessage : Message) : M Outcome :=
  match callbackUrl (Runtime.data job) with
  | Some (String _ _ as url) =>
      let* payload := buildCallbackPayload env job JNull StatusFailed (Some errorMessage) in
      sendCallback cfg env url payload noOptions
  | _ => ret skippedOutcome
  end.

End Callback.

(* ====================================================================== *)
(** ** lib/queue.js *)
(* ====================================================================== *)

(** Redis commands and BullMQ calls are taken to succeed; key expiry is not
    modelled. *)
Module Queue.
Import Runtime.

(** [redis.setex(key, ttl, JSON.stringify(value))] *)
Definition setex (key : string) (r : StoredResult) : M unit :=
  fun w => (Returned tt,
            mkWorld (<[key := r]> (results w)) (batches w) (queue w) (nextId w)
              (log w ++ [ResultStored key r]) (tick w)).

(** [redis.hset(key, fields)] *)
Definition hset (key : string) (b : Batch) : M unit :=
  fun w => (Returned tt,
            mkWorld (results w) (<[key := b]> (batches w)) (queue w) (nextId w)
              (log w) (tick w)).

Definition incr (field : ProgressField) (b : Batch) : Batch :=
  match field with
  | Completed => mkBatch (total b) (completed b + 1) (failed b) (createdAt b) (batchTool b)
  | Failed => mkBatch (total b) (completed b) (failed b + 1) (createdAt b) (batchTool b)
  end.

(** [redis.hincrby(key, field, 1)]; a missing hash counts from zero. *)
Definition hincrby (batchId : string) (field : ProgressField) : M unit :=
  fun w =>
    let key := "anysignals:batch:" +:+ batchId in
    let b := default (mkBatch 0 0 0 None None) (batches w !! key) in
    (Returned tt,
     mkWorld (results w) (<[key := incr field b]> (batches w)) (queue w) (nextId w)
       (log w ++ [BatchIncremented batchId field]) (tick w)).

(** BullMQ's defaults set in [getQueue]. *)
Definition defaultAttempts : Z := 3.

(** [queue.add(name, data, opts)]: BullMQ numbers the job and appends it. *)
Definition add (jobData : JobData) (priority : Z) : M Job :=
  fun w =>
    let job := mkJob (pretty (nextId w)) jobData (mkJobOpts defaultAttempts priority) 0 in
    (Returned job,
     mkWorld (results w) (batches w) (queue w ++ [job]) (S (nextId w)) (log w) (tick w)).

(** [queue.addBulk(jobs)] *)
Fixpoint addBulk (jobs : list (JobData * Z)) : M (list Job) :=
  match jobs with
  | [] => ret []
  | (d, prio) :: rest =>
      let* job := add d prio in
      let* others := addBulk rest in
      ret (job :: others)
  end.

(** [addJob(jobData, options)], with [options = { priority? }]. *)
Definition addJob (jobData : JobData) (priority : option Z) : M Job :=
  add jobData (default 5%Z priority).

(** [record.rowId || `${batchId}_${index}`] *)
Definition record_rowId (batchId : string) (index : nat) (record : gmap string jsval)
    : jsval :=
  if Http.truthy (Js.get record "rowId") then Js.get record "rowId"
  else JStr (batchId +:+ "_" +:+ pretty index).

Definition addBatch (env : Env) (batchId tool : string)
    (records : list (gmap string jsval)) (callbackUrl : option string) (priority : Z)
    : M (list Job) :=
  let* createdAt := ask (now env) in
  do hset ("anysignals:batch:" +:+ batchId)
       (mkBatch (Z.of_nat (length records)) 0 0 (Some createdAt) (Some tool))
  then
  let jobs :=
    imap (fun index record =>
            (mkJobData tool record (record_rowId batchId index record) callbackUrl
               (Some batchId),
             priority))
         records in
  addBulk jobs.

Record Stats := mkStats {
  s_waiting : Z;
  s_active : Z;
  s_completed : Z;
  s_failed : Z;
  s_delayed : Z;
  s_total : Z
}.

Definition getQueueStats (env : Env) : M Stats :=
  let* c := ask (counts env) in
  ret (mkStats (waiting c) (active c) (completedCount c) (failedCount c) (delayed c)
         (waiting c + active c + delayed c)).

Definition result_key (jobId : string) (batchId : option string) : string :=
  match batchId with
  | Some (String _ _ as b) => "anysignals:result:" +:+ jobId +:+ ":" +:+ b
  | _ => "anysignals:result:" +:+ jobId
  end.

Definition storeResult (cfg : Config) (env : Env) (jobId : string)
    (batchId : option string) (result : ResultBody) : M unit :=
  let ttl := Js.parsed_or (RESULT_TTL_SECONDS_env cfg) 86400 in
  let key := result_key jobId batchId in
  let* storedAt := ask (now env) in
  setex key (mkStored result storedAt ttl).

Definition updateBatchProgress (batchId : option string) (field : ProgressField)
    : M unit :=
  match batchId with
  | Some (String _ _ as b) => hincrby b field
  | _ => ret tt
  end.

Record Position := mkPosition {
  position : Z;
  estimatedWaitSeconds : Z
}.

Definition getQueuePosition (cfg : Config) (env : Env) : M Position :=
  let* stats := getQueueStats env in
  let position := (s_waiting stats + s_active stats + 1)%Z in
  let dripInterval := Js.parsed_or (DRIP_INTERVAL_MS_env cfg) 10000 in
  ret (mkPosition position
         (Js.ceil (inject_Z (position * dripInterval) / 1000)%Q)).

(** A number [parseInt] reads off a hash field; [None] stands for [NaN]. *)
Definition nan_sub (a b : option Z) : option Z :=
  match a, b with
  | Some x, Some y => Some (x - y)%Z
  | _, _ => None
  end.

(** [redis.hgetall] on a batch hash: [addBatch] writes all five fields at
    once; a hash that [hincrby] created on its own has no [total] and only the
    counters that were incremented. *)
Definition field_total (b : Batch) : option Z :=
  match createdAt b with
  | Some _ => Some (total b)
  | None => None
  end.

Definition field_counter (b : Batch) (value : Z) : option Z :=
  match createdAt b with
  | Some _ => Some value
  | None => if (value =? 0)%Z then None else Some value
  end.

(** [Object.keys(batchData).length === 0]: no field at all. *)
Definition hash_is_empty (b : Batch) : bool :=
  match createdAt b with
  | Some _ => false
  | None => (completed b =? 0)%Z && (failed b =? 0)%Z
  end.

Record BatchStatus := mkBatchStatus {
  st_batchId : string;
  st_total : option Z;
  st_completed : option Z;
  st_failed : option Z;
  st_pending : option Z;
  st_percentComplete : option Z;
  st_estimatedRemainingSeconds : option Z;
  st_createdAt : option string;
  st_tool : option string
}.

(** [total > 0 ? Math.round((completed / total) * 100) : 0], over exact
    rationals.  The code computes the quotient and the product in doubles,
    which can land just below a tie that the exact value hits (57 of 200 is
    28.5 exactly and rounds to 29 here; the doubles give 28.499999999999996
    and 28).  The properties proved of it are those that hold for the
    rounding of any value within a quarter of the exact one. *)
Definition percentComplete (total completed : option Z) : option Z :=
  match total with
  | Some t =>
      if (0 <? t)%Z
      then match completed with
           | Some c => Some (Js.round ((inject_Z c / inject_Z t) * 100)%Q)
           | None => None
           end
      else Some 0%Z
  | None => Some 0%Z
  end.

Definition getBatchStatus (cfg : Config) (batchId : string) : M (option BatchStatus) :=
  fun w =>
    match batches w !! ("anysignals:batch:" +:+ batchId) with
    | None => (Returned None, w)
    | Some batchData =>
        if hash_is_empty batchData then (Returned None, w) else
        let total := field_total batchData in
        let completed := field_counter batchData (Runtime.completed batchData) in
        let failed := field_counter batchData (Runtime.failed batchData) in
        let pending := nan_sub (nan_sub total completed) failed in
        let dripInterval := Js.parsed_or (DRIP_INTERVAL_MS_env cfg) 10000 in
        (Returned
           (Some (mkBatchStatus batchId total completed failed pending
                    (percentComplete total completed)
                    (match pending with
                     | Some p => Some (Js.ceil (inject_Z (p * dripInterval) / 1000)%Q)
                     | None => None
                     end)
                    (createdAt batchData) (batchTool batchData))),
         w)
    end.

End Queue.

(* ====================================================================== *)
(** ** worker.js *)
(* ====================================================================== *)

Module Worker.
Import Runtime ToolRegistry.

(** [processJob(job)].  For a name inherited from [Object.prototype],
    [getTool] is truthy and the [TypeError] is raised inside
    [validateParams], before the configuration is used. *)
Definition processJob (cfg : Config) (env : Env) (job : Job) : M jsval :=
  let d := Runtime.data job in
  match getTool (tool d) with
  | None => throw (PlainError (MsgUnknownTool (tool d)))
  | Some Inherited => throw (TypeError "tool.requiredParams is not iterable")
  | Some (Tool config) =>
      match validateParams (tool d) (params d) with
      | Threw NotIterable => throw (TypeError "tool.requiredParams is not iterable")
      | Returned validation =>
          if negb (valid validation)
          then throw (PlainError (MsgMissing (missing validation)))
          else
            let* response :=
              AnysiteClient.request env
                (AnysiteClient.mkOptions (Some (method config)) (ToolRegistry.endpoint config)
                   (Some (params d)) None None) in
            let* completedAt := ask (now env) in
            do Queue.storeResult cfg env (id job) (batchId d)
                 (CompletedResult (id job) (rowId d) (tool d) response completedAt)
            then
            do when (Js.truthy_str (batchId d)) (Queue.updateBatchProgress (batchId d) Completed)
            then
            do when (Js.truthy_str (callbackUrl d))
                 (let* callbackResult := Callback.sendCompletedCallback cfg env job response in
                  ret tt)
            then ret response
      end
  end.

Definition handleJobFailure (cfg : Config) (env : Env) (job : Job) (error : Exn)
    : M unit :=
  let d := Runtime.data job in
  let isFinalAttempt := (attempts (opts job) <=? attemptsMade job)%Z in
  if isFinalAttempt then
    do when (Js.truthy_str (batchId d)) (Queue.updateBatchProgress (batchId d) Failed)
    then
    let* failedAt := ask (now env) in
    do Queue.storeResult cfg env (id job) (batchId d)
         (FailedResult (id job) (rowId d) (tool d) (message error) failedAt)
    then
    when (Js.truthy_str (callbackUrl d))
      (let* r := Callback.sendFailedCallback cfg env job (message error) in ret tt)
  else ret tt.

(** How a job ends. *)
Inductive Terminal :=
| JobCompleted (returnvalue : jsval)
| JobFailed (failedReason : Message).

Definition attempted (job : Job) : Job :=
  mkJob (id job) (Runtime.data job) (opts job) (attemptsMade job + 1).

(** The life of one job under the BullMQ [Worker] the file sets up: the
    processor runs [processJob]; when it throws, BullMQ counts the attempt,
    emits ['failed'] (whose listener is [handleJobFailure]; a rejection of
    the listener is an unhandled rejection and does not reach the job), and
    schedules the job again while [attemptsMade < opts.attempts].
    [fuel] bounds the number of attempts. *)
Fixpoint attempts_loop (cfg : Config) (env : Env) (fuel : nat) (job : Job)
    : M (option Terminal) :=
  match fuel with
  | O => ret None
  | S fuel' =>
      do emit (JobActive (id job)) then
      try_catch
        (let* response := processJob cfg env job in ret (Some (JobCompleted response)))
        (fun error =>
           let job' := attempted job in
           do try_catch (handleJobFailure cfg env job' error) (fun _ => ret tt) then
           if (attemptsMade job' <? attempts (opts job'))%Z
           then attempts_loop cfg env fuel' job'
           else ret (Some (JobFailed (message error))))
  end.

Definition run (cfg : Config) (env : Env) (job : Job) : M (option Terminal) :=
  attempts_loop cfg env
    (Z.to_nat (Z.max 1 (attempts (opts job) - attemptsMade job))) job.

End Worker.

(* ====================================================================== *)
(** ** server.js *)
(* ====================================================================== *)

Module Server.
Import Runtime.

Definition MAX_BATCH_SIZE (cfg : Config) : Z := Js.parsed_or (MAX_BATCH_SIZE_env cfg) 2000.
Definition DRIP_INTERVAL_MS (cfg : Config) : Z := Js.parsed_or (DRIP_INTERVAL_MS_env cfg) 10000.

(** The two checks of Joi that are not spelled out here. *)
Record JoiLib := mkJoi {
  is_uri : string -> bool;            (* the test behind [Joi.string().uri()] *)
  to_number : string -> option Q      (* the conversion of numeric strings *)
}.

Inductive JoiError :=
| NotAnObject
| Required (key : string)
| NotAString (key : string)
| EmptyString_ (key : string)
| NotAUri (key : string)
| NotAnArray (key : string)
| ItemNotAnObject (key : string)
| ArrayMin (key : string) (limit : Z)
| ArrayMax (key : string) (limit : Z)
| NotANumber (key : string)
| NotAnInteger (key : string)
| NumberMin (key : string) (limit : Z)
| NumberMax (key : string) (limit : Z)
| UnknownKey.

Definition V (A : Type) : Type := result A JoiError.

Definition vbind {A B} (v : V A) (k : A -> V B) : V B :=
  match v with
  | Returned a => k a
  | Threw e => Threw e
  end.

(** [Joi.string()] on a present value: a non-empty string. *)
Definition joi_string (key : string) (v : jsval) : V string :=
  match v with
  | JStr (String _ _ as s) => Returned s
  | JStr EmptyString => Threw (EmptyString_ key)
  | _ => Threw (NotAString key)
  end.

(** A key of the body: absent keys and [undefined] count as missing. *)
Definition field (o : gmap string jsval) (key : string) : option jsval :=
  match o !! key with
  | Some JUndefined | None => None
  | Some v => Some v
  end.

Definition required {A} (key : string) (check : string -> jsval -> V A)
    (o : gmap string jsval) : V A :=
  match field o key with
  | Some v => check key v
  | None => Threw (Required key)
  end.

Definition optional {A} (key : string) (check : string -> jsval -> V A)
    (o : gmap string jsval) : V (option A) :=
  match field o key with
  | Some v => vbind (check key v) (fun a => Returned (Some a))
  | None => Returned None
  end.

(** [Joi.object()] on a present value. *)
Definition joi_object (key : string) (v : jsval) : V (gmap string jsval) :=
  match v with
  | JObj o => Returned o
  | _ => Threw (ItemNotAnObject key)
  end.

Fixpoint joi_items (key : string) (items : list jsval) : V (list (gmap string jsval)) :=
  match items with
  | [] => Returned []
  | v :: rest =>
      vbind (joi_object key v) (fun o =>
      vbind (joi_items key rest) (fun os => Returned (o :: os)))
  end.

(** [Joi.array().items(Joi.object()).min(1).max(limit)] *)
Definition joi_records (limit : Z) (key : string) (v : jsval)
    : V (list (gmap string jsval)) :=
  match v with
  | JArr items =>
      vbind (joi_items key items) (fun records =>
      if (Z.of_nat (length records) <? 1)%Z then Threw (ArrayMin key 1)
      else if (limit <? Z.of_nat (length records))%Z then Threw (ArrayMax key limit)
      else Returned records)
  | _ => Threw (NotAnArray key)
  end.

(** [Joi.string().uri()] *)
Definition joi_uri (joi : JoiLib) (key : string) (v : jsval) : V string :=
  vbind (joi_string key v) (fun s =>
  if is_uri joi s then Returned s else Threw (NotAUri key)).

Definition joi_integer_between (lo hi : Z) (key : string) (q : Q) : V Z :=
  if negb (Qeq_bool (inject_Z (Qfloor q)) q) then Threw (NotAnInteger key)
  else if (Qfloor q <? lo)%Z then Threw (NumberMin key lo)
  else if (hi <? Qfloor q)%Z then Threw (NumberMax key hi)
  else Returned (Qfloor q).

(** [Joi.number().integer().min(1).max(10)] *)
Definition joi_priority (joi : JoiLib) (key : string) (v : jsval) : V Z :=
  match v with
  | JNum q => joi_integer_between 1 10 key q
  | JStr s =>
      match to_number joi s with
      | Some q => joi_integer_between 1 10 key q
      | None => Threw (NotANumber key)
      end
  | _ => Threw (NotANumber key)
  end.

(** Keys outside the schema are refused. *)
Definition known_keys (allowed : list string) (o : gmap string jsval) : V unit :=
  if forallb (fun k => existsb (String.eqb k) allowed) (map fst (map_to_list o))
  then Returned tt
  else Threw UnknownKey.

Record BatchValue := mkBatchValue {
  b_tool : string;
  b_records : list (gmap string jsval);
  b_callbackUrl : option string;
  b_priority : Z
}.

(** What [batchSchema] demands of a body that is present; [validate] below
    deals with an [undefined] one. *)
Definition batchSchema (joi : JoiLib) (limit : Z) (body : jsval) : V BatchValue :=
  match body with
  | JObj o =>
      vbind (required "tool" joi_string o) (fun tool =>
      vbind (required "records" (joi_records limit) o) (fun records =>
      vbind (optional "callbackUrl" (joi_uri joi) o) (fun callbackUrl =>
      vbind (optional "priority" (joi_priority joi) o) (fun priority =>
      vbind (known_keys ["tool"; "records"; "callbackUrl"; "priority"] o) (fun _ =>
      Returned (mkBatchValue tool records callbackUrl (default 5%Z priority)))))))
  | _ => Threw NotAnObject
  end.

Record SingleValue := mkSingleValue {
  s_tool : string;
  s_params : gmap string jsval;
  s_callbackUrl : option string;
  s_rowId : option string;
  s_priority : Z
}.

(** What [singleSchema] demands of a body that is present. *)
Definition singleSchema (joi : JoiLib) (body : jsval) : V SingleValue :=
  match body with
  | JObj o =>
      vbind (required "tool" joi_string o) (fun tool =>
      vbind (required "params" joi_object o) (fun params =>
      vbind (optional "callbackUrl" (joi_uri joi) o) (fun callbackUrl =>
      vbind (optional "rowId" joi_string o) (fun rowId =>
      vbind (optional "priority" (joi_priority joi) o) (fun priority =>
      vbind (known_keys ["tool"; "params"; "callbackUrl"; "rowId"; "priority"] o) (fun _ =>
      Returned (mkSingleValue tool params callbackUrl rowId (default 5%Z priority))))))))
  | _ => Threw NotAnObject
  end.

(** [schema.validate(body)] for a schema built with [Joi.object({...})] and
    not marked [required()]: an [undefined] body passes, and the value is
    [undefined]; any other body must satisfy the schema. *)
Definition validate {A} (schema : jsval -> V A) (body : jsval) : V (option A) :=
  match body with
  | JUndefined => Returned None
  | _ => vbind (schema body) (fun value => Returned (Some value))
  end.

Inductive ReplyBody :=
| AuthError (error : string)
| ValidationFailed (details : JoiError)
| UnknownTool (tool : string) (availableTools : list string)
| BatchQueued (batchId : string) (jobsQueued : nat)
    (estimatedCompletionSeconds : Z) (statusUrl : string)
| SingleQueued (jobId : string) (rowId : jsval) (position : Z)
    (estimatedWaitSeconds : Z)
| Failure (error : string) (message : Message).

Record Reply := mkReply {
  code : Z;
  body : ReplyBody
}.

(** A request as the function that receives it reads it: [path] is
    [req.path], the whole URL path for a route handler registered on the app,
    the path after the mount point for a middleware mounted with [app.use]. *)
Record Request := mkRequest {
  path : string;
  headers : gmap string string;
  json : jsval
}.

(** A middleware either passes control on or answers. *)
Inductive Middleware :=
| Next
| Respond (r : Reply).

(** [authenticateRequest(req, res, next)], as a function of the request it
    is handed; [path req] is [req.path] as the function reads it.  How the
    server mounts it is [api_guard] below. *)
Definition authenticateRequest (cfg : Config) (req : Request) : Middleware :=
  if String.eqb (path req) "/api/health" then Next
  else
    let providedSecret := headers req !! "x-webhook-secret" in
    if negb (Js.truthy_str (WEBHOOK_SECRET cfg)) then Next
    else if negb (Js.truthy_str providedSecret)
    then Respond (mkReply 401 (AuthError "Missing X-Webhook-Secret header"))
    else if negb (bool_decide (providedSecret = WEBHOOK_SECRET cfg))
    then Respond (mkReply 403 (AuthError "Invalid webhook secret"))
    else Next.

(** Express ignores letter case when it matches a mount point. *)
Definition lower (c : ascii) : ascii :=
  let n := nat_of_ascii c in
  if (65 <=? n)%nat && (n <=? 90)%nat then ascii_of_nat (n + 32) else c.

Fixpoint lowercase (s : string) : string :=
  match s with
  | EmptyString => EmptyString
  | String c rest => String (lower c) (lowercase rest)
  end.

(** [app.use(mount, f)], as Express 4 routes it: [f] is called for the URL
    paths made of the mount point followed by nothing or by a slash, and the
    mount point (with the slash after it when a second slash follows) is
    stripped off [req.url] first, so that [f] reads [req.path] relative to
    the mount point: ['/api/health'] is seen as ['/health'], ['/api'] as
    ['/'].  [None]: the path is not under the mount point and [f] is not
    called. *)
Definition under_mount (mount url : string) : option string :=
  let n := String.length mount in
  if String.eqb (lowercase (substring 0 n url)) (lowercase mount) then
    match substring n (String.length url - n) url with
    | EmptyString => Some "/"
    | String c rest =>
        if Ascii.eqb c "/"%char then
          match rest with
          | EmptyString => Some "/"
          | String c' _ => if Ascii.eqb c' "/"%char then Some rest else Some (String c rest)
          end
        else None
    end
  else None.

(** [app.use('/api', authenticateRequest)] on a request for the URL path
    [url]. *)
Definition api_guard (cfg : Config) (url : string) (headers : gmap string string)
    (json : jsval) : Middleware :=
  match under_mount "/api" url with
  | Some path => authenticateRequest cfg (mkRequest path headers json)
  | None => Next
  end.

(** [s.split('-')[0]] *)
Fixpoint first_segment (s : string) : string :=
  match s with
  | EmptyString => EmptyString
  | String c rest =>
      if Ascii.eqb c "-"%char then EmptyString else String c (first_segment rest)
  end.

(** [app.post('/api/batch', ...)].  The calls of the queue are taken to
    succeed (see [Queue]), so the [catch] block is reached here only through
    the destructuring of an [undefined] value. *)
Definition post_api_batch (cfg : Config) (env : Env) (joi : JoiLib) (req : Request)
    : M Reply :=
  try_catch
    (match validate (batchSchema joi (MAX_BATCH_SIZE cfg)) (json req) with
     | Threw details => ret (mkReply 400 (ValidationFailed details))
     | Returned None =>
         (* [const { tool, records, callbackUrl, priority } = value] *)
         throw (TypeError
                  "Cannot destructure property 'tool' of 'value' as it is undefined.")
     | Returned (Some value) =>
         if negb (ToolRegistry.toolExists (b_tool value))
         then ret (mkReply 400 (UnknownTool (b_tool value) ToolRegistry.listTools))
         else
           let* u := ask (uuidv4 env) in
           let batchId := "batch_" +:+ first_segment u in
           let* jobs :=
             Queue.addBatch env batchId (b_tool value) (b_records value)
               (b_callbackUrl value) (b_priority value) in
           let estimatedSeconds :=
             Js.ceil (inject_Z (Z.of_nat (length (b_records value)) * DRIP_INTERVAL_MS cfg)
                      / 1000)%Q in
           ret (mkReply 202
                  (BatchQueued batchId (length jobs) estimatedSeconds
                     ("/api/status/" +:+ batchId)))
     end)
    (fun error => ret (mkReply 500 (Failure "Failed to queue batch" (message error)))).

(** [rowId || `single_${uuidv4().split('-')[0]}`] *)
Definition single_rowId (env : Env) (rowId : option string) : M jsval :=
  match rowId with
  | Some (String _ _ as r) => ret (JStr r)
  | _ => let* u := ask (uuidv4 env) in ret (JStr ("single_" +:+ first_segment u))
  end.

(** [app.post('/api/single', ...)], with the same [catch] block. *)
Definition post_api_single (cfg : Config) (env : Env) (joi : JoiLib) (req : Request)
    : M Reply :=
  try_catch
    (match validate (singleSchema joi) (json req) with
     | Threw details => ret (mkReply 400 (ValidationFailed details))
     | Returned None =>
         (* [const { tool, params, callbackUrl, rowId, priority } = value] *)
         throw (TypeError
                  "Cannot destructure property 'tool' of 'value' as it is undefined.")
     | Returned (Some value) =>
         if negb (ToolRegistry.toolExists (s_tool value))
         then ret (mkReply 400 (UnknownTool (s_tool value) ToolRegistry.listTools))
         else
           let* pos := Queue.getQueuePosition cfg env in
           let* rowId := single_rowId env (s_rowId value) in
           let* job :=
             Queue.addJob
               (mkJobData (s_tool value) (s_params value) rowId (s_callbackUrl value) None)
               (Some (s_priority value)) in
           ret (mkReply 202
                  (SingleQueued (id job) (Runtime.rowId (Runtime.data job))
                     (Queue.position pos) (Queue.estimatedWaitSeconds pos)))
     end)
    (fun error => ret (mkReply 500 (Failure "Failed to queue job" (message error)))).

End Server.

(* ====================================================================== *)
(** ** Notions used to state the properties *)
(* ====================================================================== *)

Module Spec.
Import Runtime.

(** "Absent, null or empty string", read on an own property. *)
Definition absent_null_or_empty (v : option jsval) : bool :=
  match v with
  | None | Some JUndefined | Some JNull | Some (JStr EmptyString) => true
  | _ => false
  end.

(** The tools [getToolsByCategory] lists under a category name. *)
Definition tools_in (category : string) : list string :=
  default [] (ToolRegistry.getToolsByCategory !! category).

(** The grouping rule in the words of the specification: company, then
    post/comment/reaction, then every other LinkedIn name to the profiles,
    then the platforms. *)
Definition stated_category (name : string) : option string :=
  if includes name "linkedin" then
    if includes name "company" then Some "linkedin-companies"
    else if includes name "post" || includes name "comment" || includes name "reaction"
    then Some "linkedin-posts"
    else Some "linkedin-profiles"
  else if includes name "instagram" then Some "instagram"
  else if includes name "twitter" then Some "twitter"
  else if includes name "reddit" then Some "reddit"
  else if includes name "sec" then Some "sec"
  else None.

(** The same rule with the groups: a LinkedIn name that is neither a company
    nor a post, comment or reaction name and contains [group] belongs to
    [linkedin-groups]. *)
Definition grouping_rule (name : string) : option string :=
  if includes name "linkedin" then
    if includes name "company" then Some "linkedin-companies"
    else if includes name "post" || includes name "comment" || includes name "reaction"
    then Some "linkedin-posts"
    else if includes name "group" then Some "linkedin-groups"
    else Some "linkedin-profiles"
  else if includes name "instagram" then Some "instagram"
  else if includes name "twitter" then Some "twitter"
  else if includes name "reddit" then Some "reddit"
  else if includes name "sec" then Some "sec"
  else None.

Definition listed (c name : string) : bool :=
  bool_decide (grouping_rule name = Some c).

(** [c = ceil(a / b)] for integers, [b] positive. *)
Definition is_ceil_div (c a b : Z) : Prop :=
  (b * (c - 1) < a <= b * c)%Z.

(** The events of a log that do not belong to callback delivery. *)
Definition callback_event (e : Event) : bool :=
  match e with
  | CallbackPost _ _ _ _ | CallbackSleep _ => true
  | _ => false
  end.

Definition job_events (l : list Event) : list Event :=
  List.filter (fun e => negb (callback_event e)) l.


Definition is_request (e : Event) : bool :=
  match e with
  | ApiRequest _ _ _ _ => true
  | _ => false
  end.




(** The same job with another callback URL, and the same outside world with
    another callback receiver. *)
Definition with_callback (job : Job) (url : option string) : Job :=
  mkJob (id job)
    (mkJobData (tool (data job)) (params (data job)) (rowId (data job)) url
       (batchId (data job)))
    (opts job) (attemptsMade job).

Definition with_hook (env : Env) (h : nat -> Http.outcome) : Env :=
  mkEnv (api env) h (random env) (now env) (counts env) (uuidv4 env).

(** The value [getRetryDelay] rounds: the capped exponential delay plus the
    jitter. *)
Definition jittered_delay (attempt : Z) (u : Q) : Q :=
  let delay := Qmin (1000 * Qpower 2 (attempt - 1))%Q 30000%Q in
  (delay + delay * (1 # 10) * (u * 2 - 1))%Q.

(** The callback retry budget in force. *)
Definition callbackMaxRetries (cfg : Config) : Z :=
  Js.parsed_or (CALLBACK_MAX_RETRIES_env cfg) 3.


(** The part of [processJob] that precedes callback delivery, and the
    delivery itself. *)
Definition process_before_callback (cfg : Config) (env : Env) (job : Job) : M jsval :=
  let d := Runtime.data job in
  match ToolRegistry.getTool (tool d) with
  | None => throw (PlainError (MsgUnknownTool (tool d)))
  | Some ToolRegistry.Inherited => throw (TypeError "tool.requiredParams is not iterable")
  | Some (ToolRegistry.Tool config) =>
      match ToolRegistry.validateParams (tool d) (params d) with
      | Threw ToolRegistry.NotIterable =>
          throw (TypeError "tool.requiredParams is not iterable")
      | Returned validation =>
          if negb (ToolRegistry.valid validation)
          then throw (PlainError (MsgMissing (ToolRegistry.missing validation)))
          else
            let* response :=
              AnysiteClient.request env
                (AnysiteClient.mkOptions (Some (ToolRegistry.method config))
                   (ToolRegistry.endpoint config) (Some (params d)) None None) in
            let* completedAt := ask (now env) in
            do Queue.storeResult cfg env (id job) (batchId d)
                 (CompletedResult (id job) (rowId d) (tool d) response completedAt)
            then
            do when (Js.truthy_str (batchId d)) (Queue.updateBatchProgress (batchId d) Completed)
            then ret response
      end
  end.

Definition deliver_completed (cfg : Config) (env : Env) (job : Job) (response : jsval)
    : M unit :=
  when (Js.truthy_str (callbackUrl (Runtime.data job)))
    (let* callbackResult := Callback.sendCompletedCallback cfg env job response in ret tt).

(** The same for the final branch of [handleJobFailure]. *)
Definition record_failure (cfg : Config) (env : Env) (job : Job) (error : Exn) : M unit :=
  let d := Runtime.data job in
  do when (Js.truthy_str (batchId d)) (Queue.updateBatchProgress (batchId d) Failed)
  then
  let* failedAt := ask (now env) in
  Queue.storeResult cfg env (id job) (batchId d)
    (FailedResult (id job) (rowId d) (tool d) (message error) failedAt).

Definition deliver_failed (cfg : Config) (env : Env) (job : Job) (error : Exn) : M unit :=
  when (Js.truthy_str (callbackUrl (Runtime.data job)))
    (let* r := Callback.sendFailedCallback cfg env job (message error) in ret tt).

(** [w'] is [w] after some events, all accepted by [P], were logged and the
    outside world was consulted; the store and the queue are those of [w]. *)
Definition only_logs (P : Event -> bool) (w w' : World) : Prop :=
  results w' = results w /\ batches w' = batches w /\
  queue w' = queue w /\ nextId w' = nextId w /\
  exists d, log w' = log w ++ d /\ Forall (fun e => P e = true) d.

Definition is_api (e : Event) : bool :=
  match e with
  | ApiRequest _ _ _ _ | ApiSleep _ => true
  | _ => false
  end.

(** [m] only logs events accepted by [P] and leaves the store alone. *)
Definition runs {A} (P : Event -> bool) (m : M A) : Prop :=
  forall w r w', m w = (r, w') -> only_logs P w w'.

(** [m] never throws. *)
Definition returns {A} (m : M A) : Prop :=
  forall w, exists a w', m w = (Returned a, w').

(** The world once BullMQ has made a job active. *)
Definition activated (job : Job) (w : World) : World :=
  mkWorld (results w) (batches w) (queue w) (nextId w) (log w ++ [JobActive (id job)])
    (tick w).

(** The stored record tells the job's outcome. *)
Definition records_outcome (job : Job) (t : Worker.Terminal) (b : ResultBody) : Prop :=
  match t, b with
  | Worker.JobCompleted v, CompletedResult j r tl d _ =>
      j = id job /\ r = rowId (data job) /\ tl = tool (data job) /\ d = v
  | Worker.JobFailed m, FailedResult j r tl e _ =>
      j = id job /\ r = rowId (data job) /\ tl = tool (data job) /\ e = m
  | _, _ => False
  end.

End Spec.

(* ====================================================================== *)
(** ** Concrete inputs *)
(* ====================================================================== *)

Module Examples.
Import Http Runtime.

Definition default_config : Config := mkConfig None None None None None None None.

Definition fresh_world : World := mkWorld ∅ ∅ [] 1 [] 0.

Definition ok : outcome := Resolved (mkResponse 200 (JStr "ok")).

Definition not_found_error : AxiosError :=
  mkAxiosError (Some "ERR_BAD_REQUEST") (Some "Request failed with status code 404")
    (Some (mkResponse 404 JNull)).

Definition not_found : outcome := Rejected not_found_error.

Definition unavailable : outcome :=
  Rejected (mkAxiosError (Some "ERR_BAD_RESPONSE") (Some "Request failed with status code 503")
              (Some (mkResponse 503 JNull))).

Definition world (api hook : nat -> outcome) : Env :=
  mkEnv api hook (fun _ => (1 # 2)%Q) (fun _ => "2026-01-01T00:00:00.000Z")
    (fun _ => mkCounts 3 1 0 0 0) (fun _ => "0f8fad5b-d9cb-469f-a165-70867728950e").

(** The downstream API answers 404 once and 200 from then on. *)
Definition not_found_once : Env :=
  world (fun t => if (t <? 1)%nat then not_found else ok) (fun _ => ok).

(** The downstream API always answers 404. *)
Definition always_not_found : Env := world (fun _ => not_found) (fun _ => ok).

(** Everything answers 200. *)
Definition all_ok : Env := world (fun _ => ok) (fun _ => ok).

Definition profile_request : AnysiteClient.Options :=
  AnysiteClient.mkOptions (Some "POST") "/api/linkedin/profile"
    (Some (<["user" := JStr "https://linkedin.com/in/x"]> ∅)) None None.

Definition profile_job : Job :=
  mkJob "1"
    (mkJobData "get_linkedin_profile" (<["user" := JStr "https://linkedin.com/in/x"]> ∅)
       (JStr "r1") None (Some "batch_0f8fad5b"))
    (mkJobOpts 3 5) 0.

(** [CALLBACK_MAX_RETRIES=-1] *)
Definition negative_budget : Config :=
  mkConfig None None None None (Some (-1)%Z) None None.

(** The profile job with a callback URL. *)
Definition hooked_job : Job :=
  Spec.with_callback profile_job (Some "https://example.com/hook").

Definition joi : Server.JoiLib := Server.mkJoi (fun _ => true) (fun _ => None).

Definition single_submission : Server.Request :=
  Server.mkRequest "/api/single" ∅
    (JObj (<["tool" := JStr "get_linkedin_profile"]>
             (<["params" := JObj (<["user" := JStr "https://linkedin.com/in/x"]> ∅)]> ∅))).

Definition batch_submission : Server.Request :=
  Server.mkRequest "/api/batch" ∅
    (JObj (<["tool" := JStr "get_reddit_user"]>
             (<["records" := JArr [JObj (<["user" := JStr "a"]> ∅);
                                   JObj (<["user" := JStr "b"]> ∅)]]> ∅))).

(** The reply of a handler run, when it returns one. *)
Definition reply_of (r : result Server.Reply Exn * World) : Server.Reply :=
  match fst r with
  | Returned reply => reply
  | Threw _ => Server.mkReply 0 (Server.AuthError "")
  end.

End Examples.

(* ====================================================================== *)
(** ** Measures on the effect log *)
(* ====================================================================== *)

Module Measures.
Import Runtime.

Definition is_sleep (e : Event) : bool :=
  match e with
  | ApiSleep _ => true
  | _ => false
  end.

Definition is_active (e : Event) : bool :=
  match e with
  | JobActive _ => true
  | _ => false
  end.

(** How many downstream requests, backoff sleeps and job attempts a stretch
    of the log holds. *)
Definition requests (l : list Event) : nat := length (List.filter Spec.is_request l).
Definition sleeps (l : list Event) : nat := length (List.filter is_sleep l).
Definition activations (l : list Event) : nat := length (List.filter is_active l).

(** The attempt numbers of the callback POSTs of a stretch of the log, in order. *)
Fixpoint post_attempts (l : list Event) : list Z :=
  match l with
  | [] => []
  | CallbackPost _ _ _ attempt :: rest => attempt :: post_attempts rest
  | _ :: rest => post_attempts rest
  end.

(** [1; 2; ...; n] *)
Fixpoint count_from (first : Z) (n : nat) : list Z :=
  match n with
  | O => []
  | S n' => first :: count_from (first + 1) n'
  end.

(** The retry budget of a call of [request]. *)
Definition budget (options : AnysiteClient.Options) : Z :=
  default 3%Z (AnysiteClient.maxRetries options).

(** The result writes of a stretch of the log, in order: key and record. *)
Fixpoint stores (l : list Event) : list (string * ResultBody) :=
  match l with
  | [] => []
  | ResultStored key r :: rest => (key, body r) :: stores rest
  | _ :: rest => stores rest
  end.

(** The five error codes both retry tests accept. *)
Definition transient_codes : list string :=
  ["ECONNREFUSED"; "ECONNRESET"; "ETIMEDOUT"; "ENOTFOUND"; "ECONNABORTED"].

End Measures.

(* ====================================================================== *)
(** ** Notions about the store and the queue *)
(* ====================================================================== *)

Module Shapes.
Import Runtime.

(** The jobs BullMQ makes of the entries handed to [addBulk], numbered from [n]. *)
Fixpoint numbered (n : nat) (entries : list (JobData * Z)) : list Job :=
  match entries with
  | [] => []
  | (d, prio) :: rest =>
      mkJob (pretty n) d (mkJobOpts Queue.defaultAttempts prio) 0 :: numbered (S n) rest
  end.

(** The counter a terminal outcome increments. *)
Definition field_of (t : Worker.Terminal) : ProgressField :=
  match t with
  | Worker.JobCompleted _ => Completed
  | Worker.JobFailed _ => Failed
  end.

Definition batch_key (batchId : string) : string := "anysignals:batch:" +:+ batchId.

(** The batch hashes after one more job of [batchId] has ended; nothing
    changes for a job without a batch. *)
Definition counted (field : ProgressField) (batchId : option string)
    (hashes : gmap string Batch) : gmap string Batch :=
  match batchId with
  | Some (String _ _ as b) =>
      <[batch_key b := Queue.incr field (default (mkBatch 0 0 0 None None)
                                           (hashes !! batch_key b))]> hashes
  | _ => hashes
  end.

(** The single worker takes the jobs one after the other, each to its end. *)
Fixpoint run_all (cfg : Config) (env : Env) (jobs : list Job)
    : M (list (option Worker.Terminal)) :=
  match jobs with
  | [] => ret []
  | job :: rest =>
      let* t := Worker.run cfg env job in
      let* ts := run_all cfg env rest in
      ret (t :: ts)
  end.

(** How many of the jobs ended completed, and how many failed. *)
Definition completions (ts : list (option Worker.Terminal)) : Z :=
  Z.of_nat (length (List.filter (fun t => match t with
                                          | Some (Worker.JobCompleted _) => true
                                          | _ => false
                                          end) ts)).

Definition failures (ts : list (option Worker.Terminal)) : Z :=
  Z.of_nat (length (List.filter (fun t => match t with
                                          | Some (Worker.JobFailed _) => true
                                          | _ => false
                                          end) ts)).


(** The life of a job, attempt by attempt: an attempt that succeeds ends it
    (the result is recorded, then the callback delivered); an attempt that
    throws on the last try ends it as failed (the failure is recorded, then
    the callback delivered); any other attempt that throws is followed by the
    next one. *)
Inductive Run (cfg : Config) (env : Env) : Job -> World -> Worker.Terminal -> World -> Prop :=
| RunCompleted (job : Job) (w w1 w2 : World) (v : jsval) :
    Spec.process_before_callback cfg env job (Spec.activated job w) = (Returned v, w1) ->
    Spec.deliver_completed cfg env job v w1 = (Returned tt, w2) ->
    Run cfg env job w (Worker.JobCompleted v) w2
| RunFailed (job : Job) (w w1 w2 w3 : World) (e : Exn) :
    Spec.process_before_callback cfg env job (Spec.activated job w) = (Threw e, w1) ->
    (attempts (opts job) <= attemptsMade job + 1)%Z ->
    Spec.record_failure cfg env (Worker.attempted job) e w1 = (Returned tt, w2) ->
    Spec.deliver_failed cfg env (Worker.attempted job) e w2 = (Returned tt, w3) ->
    Run cfg env job w (Worker.JobFailed (message e)) w3
| RunRetry (job : Job) (w w1 w' : World) (e : Exn) (t : Worker.Terminal) :
    Spec.process_before_callback cfg env job (Spec.activated job w) = (Threw e, w1) ->
    (attemptsMade job + 1 < attempts (opts job))%Z ->
    Run cfg env (Worker.attempted job) w1 t w' ->
    Run cfg env job w t w'.

End Shapes.
(* ====================================================================== *)
(** ** Notions about the trace of a job *)
(* ====================================================================== *)

Module Trace.
Import Runtime.








End Trace.

(* ====================================================================== *)
(** * Properties *)
(* ====================================================================== *)

(** ** The tool registry *)

Section RegistryFacts.
Import ToolRegistry Spec.

Lemma absent_null_or_empty_iff (v : option jsval) :
  absent_null_or_empty v = true <->
  v = None \/ v = Some JUndefined \/ v = Some JNull \/ v = Some (JStr "").
Proof.
  split.
  - destruct v as [[| | | |[|]| | |]|]; simpl; intros H; try discriminate; auto.
  - intros [-> | [-> | [-> | ->]]]; reflexivity.
Qed.

Lemma validate_loop_filter (params : gmap string jsval) (required acc : list string) :
  validate_loop params required acc =
  acc ++ List.filter (fun p => blank (Js.get params p)) required.
Proof.
  revert acc. induction required as [|p rest IH]; intros acc; simpl.
  - now rewrite app_nil_r.
  - destruct (blank (Js.get params p)); rewrite IH; [|reflexivity].
    now rewrite <- app_assoc.
Qed.

Lemma own_In (table : list (string * ToolConfig)) (name : string) (c : ToolConfig) :
  own table name = Some c -> In (name, c) table.
Proof.
  induction table as [|[k c'] rest IH]; simpl; [discriminate|].
  destruct (String.eqb_spec k name) as [->|_].
  - intros [= ->]. now left.
  - intros H. right. now apply IH.
Qed.

(** No required parameter of the table is a name inherited from
    [Object.prototype], so reading it off [params] sees own properties only. *)
Lemma required_not_inherited (name : string) (c : ToolConfig) (p : string) :
  In (name, c) TOOL_REGISTRY -> In p (requiredParams c) -> Js.inherited p = false.
Proof.
  intros Hc Hp.
  assert (Hall : forallb (fun e => forallb (fun p => negb (Js.inherited p))
                                     (requiredParams (snd e))) TOOL_REGISTRY = true)
    by (vm_compute; reflexivity).
  rewrite forallb_forall in Hall. specialize (Hall _ Hc). simpl in Hall.
  rewrite forallb_forall in Hall. specialize (Hall _ Hp).
  now destruct (Js.inherited p).
Qed.

Lemma blank_get (params : gmap string jsval) (p : string) :
  Js.inherited p = false ->
  blank (Js.get params p) = absent_null_or_empty (params !! p).
Proof.
  intros Hp. unfold Js.get. destruct (params !! p) as [v|]; simpl.
  - destruct v as [| | | |[|]| | |]; reflexivity.
  - now rewrite Hp.
Qed.

Lemma filter_ext_In' {A} (f g : A -> bool) (l : list A) :
  (forall x, In x l -> f x = g x) -> List.filter f l = List.filter g l.
Proof.
  induction l as [|x l IH]; simpl; intros H; [reflexivity|].
  rewrite (H x) by now left. rewrite IH by (intros; apply H; now right).
  reflexivity.
Qed.

(** C2. For a tool of the registry and any [params] object, [validateParams]
    returns [missing] equal to the required parameter names, in their
    declared order, whose value in [params] is absent ([undefined]), [null]
    or the empty string, and [valid] holds exactly when [missing] is empty. *)
Theorem validateParams_missing_exact
    (toolName : string) (tool : ToolConfig) (params : gmap string jsval) :
  own TOOL_REGISTRY toolName = Some tool ->
  exists v,
    validateParams toolName params = Returned v /\
    missing v =
      List.filter (fun p => absent_null_or_empty (params !! p)) (requiredParams tool) /\
    (forall p, In p (missing v) <->
               In p (requiredParams tool) /\
               (params !! p = None \/ params !! p = Some JUndefined \/
                params !! p = Some JNull \/ params !! p = Some (JStr ""))) /\
    (valid v = true <-> missing v = []).
Proof.
  intros Hown. unfold validateParams, getTool. rewrite Hown.
  eexists. split; [reflexivity|]. simpl.
  assert (Hm : validate_loop params (requiredParams tool) [] =
               List.filter (fun p => absent_null_or_empty (params !! p))
                 (requiredParams tool)).
  { rewrite validate_loop_filter. simpl. apply filter_ext_In'.
    intros p Hp. apply blank_get.
    eapply required_not_inherited; [apply own_In; exact Hown | exact Hp]. }
  rewrite Hm. split; [reflexivity|]. split.
  - intros p. rewrite filter_In, absent_null_or_empty_iff. reflexivity.
  - destruct (List.filter _ _); simpl; split; intros; congruence.
Qed.

Lemma validateParams_missing_exact_witness :
  own TOOL_REGISTRY "get_linkedin_company_employees" =
    Some (mkTool "/api/linkedin/company/employees" "POST" ["company"; "count"]
            ["keywords"; "title"; "timeout"] "Get employees of a LinkedIn company") /\
  exists v,
    validateParams "get_linkedin_company_employees"
      (<["count" := JNum 5]> (<["company" := JStr ""]> ∅)) = Returned v /\
    missing v = ["company"].
Proof.
  split; [reflexivity|].
  destruct (validateParams_missing_exact "get_linkedin_company_employees"
              (mkTool "/api/linkedin/company/employees" "POST" ["company"; "count"]
                 ["keywords"; "title"; "timeout"] "Get employees of a LinkedIn company")
              (<["count" := JNum 5]> (<["company" := JStr ""]> ∅)) eq_refl)
    as (v & Hv & Hm & _).
  exists v. split; [exact Hv|]. rewrite Hm. reflexivity.
Defined.

End RegistryFacts.

Section CategoryFacts.
Import ToolRegistry Spec.

Lemma categorize_rule (name : string) (cats : gmap string (list string)) :
  categorize name cats =
  match grouping_rule name with
  | Some c => push c name cats
  | None => cats
  end.
Proof.
  unfold categorize, grouping_rule.
  destruct (includes name "linkedin").
  - destruct (includes name "company"); [reflexivity|].
    destruct (includes name "post"), (includes name "reaction"),
      (includes name "comment"), (includes name "group"); reflexivity.
  - repeat match goal with |- context [if ?b then _ else _] => destruct b end;
      reflexivity.
Qed.

Lemma categorize_all_lookup (table : list (string * ToolConfig))
    (cats : gmap string (list string)) (c : string) :
  categorize_all table cats !! c =
  (fun l => l ++ List.filter (listed c) (map fst table)) <$> (cats !! c).
Proof.
  revert cats. induction table as [|[name cfg] rest IH]; intros cats.
  - simpl. destruct (cats !! c); simpl; [now rewrite app_nil_r | reflexivity].
  - unfold categorize_all in *. simpl. rewrite IH, categorize_rule. unfold listed at 2.
    destruct (grouping_rule name) as [c'|].
    + unfold push. rewrite lookup_alter.
      destruct (decide (c' = c)) as [->|Hne].
      * rewrite bool_decide_eq_true_2 by reflexivity.
        destruct (cats !! c); simpl; [|reflexivity].
        now rewrite <- app_assoc.
      * rewrite bool_decide_eq_false_2 by congruence.
        destruct (decide (c = c')); [congruence|]. reflexivity.
    + rewrite bool_decide_eq_false_2 by congruence. reflexivity.
Qed.

Lemma tools_in_unfold (c : string) :
  tools_in c =
  match empty_categories !! c with
  | Some l => l ++ List.filter (listed c) listTools
  | None => []
  end.
Proof.
  unfold tools_in, getToolsByCategory. rewrite categorize_all_lookup.
  destruct (empty_categories !! c); reflexivity.
Qed.

Lemma empty_categories_empty (c : string) (l : list string) :
  empty_categories !! c = Some l -> l = [].
Proof.
  intros E. unfold empty_categories in E.
  apply elem_of_list_to_map_2, list_elem_of_In in E.
  cbn [In] in E.
  repeat destruct E as [E|E]; try congruence; tauto.
Qed.

Lemma tools_in_listed (c name : string) :
  In name (tools_in c) -> grouping_rule name = Some c.
Proof.
  rewrite tools_in_unfold.
  destruct (empty_categories !! c) as [l|] eqn:E; [|intros []].
  rewrite (empty_categories_empty _ _ E), app_nil_l, filter_In.
  intros [_ H]. unfold listed in H.
  now apply bool_decide_eq_true_1 in H.
Qed.

Lemma grouping_rule_key (name c : string) :
  grouping_rule name = Some c -> empty_categories !! c = Some [].
Proof.
  unfold grouping_rule.
  repeat match goal with |- context [if ?b then _ else _] => destruct b end;
    intros [= <-]; try discriminate; vm_compute; reflexivity.
Qed.

Lemma listed_tools_in (c name : string) :
  In name listTools -> grouping_rule name = Some c -> In name (tools_in c).
Proof.
  intros Hin Hc. rewrite tools_in_unfold, (grouping_rule_key _ _ Hc), app_nil_l.
  apply filter_In. split; [exact Hin|].
  unfold listed. now apply bool_decide_eq_true_2.
Qed.

Lemma every_tool_grouped (name : string) :
  In name listTools -> exists c, grouping_rule name = Some c.
Proof.
  intros Hin.
  assert (Hall : forallb (fun n => match grouping_rule n with Some _ => true | None => false end)
                   listTools = true) by (vm_compute; reflexivity).
  rewrite forallb_forall in Hall. specialize (Hall _ Hin).
  destruct (grouping_rule name) as [c|]; [now exists c | discriminate].
Qed.

(** C3, as the code has it. Every tool name of the registry is listed under
    exactly one category, the one given by substring match in this order:
    [linkedin] and [company] to linkedin-companies; [linkedin] and one of
    [post], [comment], [reaction] to linkedin-posts; [linkedin] and [group]
    to linkedin-groups; every other [linkedin] name to linkedin-profiles;
    the other names to instagram, twitter, reddit or sec. *)
Theorem getToolsByCategory_grouping (name : string) :
  In name listTools ->
  exists c, grouping_rule name = Some c /\
            forall c', In name (tools_in c') <-> c' = c.
Proof.
  intros Hin. destruct (every_tool_grouped name Hin) as [c Hc].
  exists c. split; [exact Hc|]. intros c'. split.
  - intros H. apply tools_in_listed in H. congruence.
  - intros ->. now apply listed_tools_in.
Qed.

Lemma getToolsByCategory_grouping_witness :
  In "get_linkedin_group" listTools /\
  exists c, grouping_rule "get_linkedin_group" = Some c /\
            forall c', In "get_linkedin_group" (tools_in c') <-> c' = c.
Proof.
  split; [vm_compute; tauto|].
  apply (getToolsByCategory_grouping "get_linkedin_group"). vm_compute. tauto.
Defined.

(** C3 as stated fails on [get_linkedin_group]: it contains [linkedin] and
    none of [company], [post], [comment], [reaction], yet it is not listed
    under linkedin-profiles. *)
Lemma stated_grouping_fails_on_group :
  ~ (forall name c, In name listTools -> stated_category name = Some c ->
                    In name (tools_in c)).
Proof.
  intros H.
  specialize (H "get_linkedin_group" "linkedin-profiles").
  assert (Hin : In "get_linkedin_group" listTools) by (vm_compute; tauto).
  specialize (H Hin eq_refl).
  apply tools_in_listed in H. vm_compute in H. discriminate.
Qed.

End CategoryFacts.

(** ** Backoff delays *)

Section BackoffFacts.
Import AnysiteClient.
#[local] Open Scope Z_scope.

Lemma Qmin_inject_Z (a b : Z) :
  (Qmin (inject_Z a) (inject_Z b) == inject_Z (Z.min a b))%Q.
Proof.
  destruct (Z.le_gt_cases a b) as [H|H].
  - rewrite Z.min_l by exact H. apply Q.min_l. now rewrite <- Zle_Qle.
  - rewrite Z.min_r by lia. apply Q.min_r. rewrite <- Zle_Qle. lia.
Qed.

Lemma nominal_delay_Z (base attempt : Z) :
  1 <= attempt ->
  (Qmin (inject_Z base * Qpower 2 (attempt - 1)) 30000
   == inject_Z (Z.min (base * 2 ^ (attempt - 1)) 30000))%Q.
Proof.
  intros H. rewrite <- Qmin_inject_Z, inject_Z_mult, Zpower_Qpower by lia.
  reflexivity.
Qed.

Lemma round_within (lo hi : Z) (x : Q) :
  (inject_Z lo - (1 # 2) <= x)%Q -> (x < inject_Z hi + (1 # 2))%Q ->
  lo <= Js.round x <= hi.
Proof.
  intros Hlo Hhi. unfold Js.round. split.
  - rewrite <- (Qfloor_Z lo). apply Qfloor_resp_le. lra.
  - assert (H : (inject_Z (Qfloor (x + (1 # 2))) < inject_Z (hi + 1))%Q).
    { eapply Qle_lt_trans; [apply Qfloor_le|]. rewrite inject_Z_plus.
      change (inject_Z 1) with 1%Q. lra. }
    rewrite <- Zlt_Qlt in H. lia.
Qed.

Lemma pow2_tens (a : Z) : 0 <= a -> exists k, Z.min (1000 * 2 ^ a) 30000 = 10 * k /\ 0 < k.
Proof.
  intros Ha. destruct (Z.le_gt_cases (1000 * 2 ^ a) 30000) as [H|H].
  - exists (100 * 2 ^ a). split; [lia|].
    assert (0 < 2 ^ a) by (apply Z.pow_pos_nonneg; lia). lia.
  - exists 3000. lia.
Qed.

(** Before rounding, the delay lies in [0.9 d, 1.1 d), and d is a multiple of ten. *)
Lemma jittered_delay_bounds (n : Z) (u : Q) :
  1 <= n -> (0 <= u)%Q -> (u < 1)%Q ->
  exists k, Z.min (1000 * 2 ^ (n - 1)) 30000 = 10 * k /\
            (inject_Z (9 * k) <= Spec.jittered_delay n u)%Q /\
            (Spec.jittered_delay n u < inject_Z (11 * k))%Q.
Proof.
  intros Hn Hu0 Hu1.
  destruct (pow2_tens (n - 1) ltac:(lia)) as (k & Hk & Hkpos).
  exists k. split; [exact Hk|]. unfold Spec.jittered_delay.
  pose proof (nominal_delay_Z 1000 n Hn) as Hd. rewrite Hk in Hd.
  change (inject_Z 1000) with 1000%Q in Hd.
  set (delay := Qmin _ _) in *.
  assert (Hdk : (delay == 10 * inject_Z k)%Q).
  { rewrite Hd, inject_Z_mult. reflexivity. }
  assert (Hpos : (0 < inject_Z k)%Q).
  { change 0%Q with (inject_Z 0). rewrite <- Zlt_Qlt. lia. }
  rewrite !inject_Z_mult. change (inject_Z 9) with 9%Q. change (inject_Z 11) with 11%Q.
  split; nra.
Qed.

(** C4. For every attempt number [n >= 1] and every draw [u] of
    [Math.random()] in [0, 1), the delay returned by [getRetryDelay] lies
    between 0.9 d and 1.1 d for d = min(1000 * 2^(n-1), 30000). *)
Theorem getRetryDelay_within_jitter (n : Z) (u : Q) :
  1 <= n -> (0 <= u)%Q -> (u < 1)%Q ->
  let d := Z.min (1000 * 2 ^ (n - 1)) 30000 in
  9 * d <= 10 * getRetryDelay n u <= 11 * d.
Proof.
  intros Hn Hu0 Hu1 d.
  destruct (jittered_delay_bounds n u Hn Hu0 Hu1) as (k & Hk & Hlo & Hhi). fold d in Hk.
  change (getRetryDelay n u) with (Js.round (Spec.jittered_delay n u)).
  assert (Hbounds : 9 * k <= Js.round (Spec.jittered_delay n u) <= 11 * k)
    by (apply round_within; lra).
  lia.
Qed.

(** The bounds do not depend on the arithmetic being exact: they hold for the
    rounding of any value within a quarter of the exact one. *)
Lemma rounded_delay_robust (n : Z) (u x : Q) :
  1 <= n -> (0 <= u)%Q -> (u < 1)%Q ->
  (Spec.jittered_delay n u - (1 # 4) <= x)%Q -> (x <= Spec.jittered_delay n u + (1 # 4))%Q ->
  let d := Z.min (1000 * 2 ^ (n - 1)) 30000 in
  9 * d <= 10 * Js.round x <= 11 * d.
Proof.
  intros Hn Hu0 Hu1 Hx0 Hx1 d.
  destruct (jittered_delay_bounds n u Hn Hu0 Hu1) as (k & Hk & Hlo & Hhi). fold d in Hk.
  assert (Hbounds : 9 * k <= Js.round x <= 11 * k) by (apply round_within; lra).
  lia.
Qed.

Lemma getRetryDelay_within_jitter_witness :
  1 <= 3 /\ (0 <= 1 # 4)%Q /\ ((1 # 4) < 1)%Q /\
  9 * Z.min (1000 * 2 ^ (3 - 1)) 30000 <= 10 * getRetryDelay 3 (1 # 4)
    <= 11 * Z.min (1000 * 2 ^ (3 - 1)) 30000.
Proof.
  split; [lia|]. split; [discriminate|]. split; [reflexivity|].
  apply (getRetryDelay_within_jitter 3 (1 # 4)); [lia | discriminate | reflexivity].
Defined.

End BackoffFacts.

(** ** The ingress *)

Section IngressFacts.
Import Runtime Server Spec.
#[local] Open Scope Z_scope.

(** C10. With no webhook secret configured (the variable unset or empty),
    [authenticateRequest] passes every request on: it calls [next()] and
    answers neither 401 nor 403, whatever the [x-webhook-secret] header. *)
Theorem authenticateRequest_open_without_secret (cfg : Config) (req : Request) :
  WEBHOOK_SECRET cfg = None \/ WEBHOOK_SECRET cfg = Some "" ->
  authenticateRequest cfg req = Next.
Proof.
  intros H. unfold authenticateRequest.
  destruct (String.eqb (path req) "/api/health"); [reflexivity|].
  destruct H as [-> | ->]; reflexivity.
Qed.

Lemma authenticateRequest_open_without_secret_witness :
  (WEBHOOK_SECRET (mkConfig None None None None None None None) = None \/
   WEBHOOK_SECRET (mkConfig None None None None None None None) = Some "") /\
  authenticateRequest (mkConfig None None None None None None None)
    (mkRequest "/api/batch" (<["x-webhook-secret" := "guess"]> ∅) JNull) = Next.
Proof.
  split; [left; reflexivity|].
  apply (authenticateRequest_open_without_secret
           (mkConfig None None None None None None None)
           (mkRequest "/api/batch" (<["x-webhook-secret" := "guess"]> ∅) JNull)).
  left; reflexivity.
Defined.

Lemma validate_object {A} (schema : jsval -> V A) (o : gmap string jsval) :
  validate schema (JObj o) = vbind (schema (JObj o)) (fun value => Returned (Some value)).
Proof. reflexivity. Qed.

Lemma validate_Some {A} (schema : jsval -> V A) (body : jsval) (value : A) :
  validate schema body = Returned (Some value) ->
  body <> JUndefined /\ schema body = Returned value.
Proof.
  unfold validate. destruct body; try discriminate;
    (destruct (schema _) as [a|e]; cbn; [|discriminate]); intros [= <-];
    (split; [discriminate | reflexivity]).
Qed.

Lemma validate_None {A} (schema : jsval -> V A) (body : jsval) :
  validate schema body = Returned None -> body = JUndefined.
Proof.
  unfold validate. destruct body; try reflexivity;
    (destruct (schema _) as [a|e]; cbn; discriminate).
Qed.

Lemma validate_Threw {A} (schema : jsval -> V A) (body : jsval) (details : JoiError) :
  validate schema body = Threw details ->
  body <> JUndefined /\ schema body = Threw details.
Proof.
  unfold validate. destruct body; try discriminate;
    (destruct (schema _) as [a|e]; cbn; [discriminate|]); intros [= <-];
    (split; [discriminate | reflexivity]).
Qed.

Lemma joi_items_length (key : string) (items : list jsval)
    (records : list (gmap string jsval)) :
  joi_items key items = Returned records -> length records = length items.
Proof.
  revert records. induction items as [|v rest IH]; intros records; simpl.
  - intros [= <-]. reflexivity.
  - destruct (joi_object key v) as [o|e]; simpl; [|discriminate].
    destruct (joi_items key rest) as [os|e]; simpl; [|discriminate].
    intros [= <-]. simpl. f_equal. now apply IH.
Qed.

Lemma field_present (o : gmap string jsval) (key : string) (items : list jsval) :
  o !! key = Some (JArr items) -> field o key = Some (JArr items).
Proof. intros H. unfold field. now rewrite H. Qed.

(** The schema refuses a [records] array that is empty or longer than the limit. *)
Lemma batchSchema_refuses (joi : JoiLib) (limit : Z) (o : gmap string jsval)
    (items : list jsval) :
  o !! "records" = Some (JArr items) ->
  length items = 0%nat \/ limit < Z.of_nat (length items) ->
  exists details, batchSchema joi limit (JObj o) = Threw details.
Proof.
  intros Hrec Hlen. unfold batchSchema.
  destruct (required "tool" joi_string o) as [tool|e]; simpl; [|eauto].
  unfold required. rewrite (field_present _ _ _ Hrec). unfold joi_records.
  destruct (joi_items "records" items) as [records|e] eqn:E; simpl; [|eauto].
  apply joi_items_length in E. rewrite E.
  destruct (Z.ltb_spec (Z.of_nat (length items)) 1); simpl; [eauto|].
  destruct (Z.ltb_spec limit (Z.of_nat (length items))); simpl; [eauto|].
  lia.
Qed.

(** C8. [POST /api/batch] answers 400 to every submission whose [records]
    array is empty or has more than [MAX_BATCH_SIZE] entries (2000 when the
    variable is unset), and leaves the store and the queue untouched. *)
Theorem post_api_batch_rejects_bad_size (cfg : Config) (env : Env) (joi : JoiLib)
    (req : Request) (o : gmap string jsval) (items : list jsval) (w : World) :
  json req = JObj o ->
  o !! "records" = Some (JArr items) ->
  length items = 0%nat \/ MAX_BATCH_SIZE cfg < Z.of_nat (length items) ->
  (MAX_BATCH_SIZE_env cfg = None -> MAX_BATCH_SIZE cfg = 2000) /\
  exists details,
    post_api_batch cfg env joi req w =
    (Returned (mkReply 400 (ValidationFailed details)), w).
Proof.
  intros Hjson Hrec Hlen. split; [intros E; unfold MAX_BATCH_SIZE; now rewrite E|].
  destruct (batchSchema_refuses joi (MAX_BATCH_SIZE cfg) o items Hrec Hlen) as [details Hd].
  exists details. unfold post_api_batch, try_catch.
  rewrite Hjson, validate_object, Hd. reflexivity.
Qed.


Lemma post_api_batch_rejects_bad_size_witness :
  json (mkRequest "/api/batch" ∅
          (JObj (<["records" := JArr []]> (<["tool" := JStr "get_reddit_user"]> ∅))))
    = JObj (<["records" := JArr []]> (<["tool" := JStr "get_reddit_user"]> ∅)) /\
  (<["records" := JArr []]> (<["tool" := JStr "get_reddit_user"]> ∅) : gmap string jsval)
    !! "records" = Some (JArr []) /\
  exists details,
    post_api_batch (mkConfig None None None None None None None)
      (mkEnv (fun _ => Http.Resolved (Http.mkResponse 200 JNull))
         (fun _ => Http.Resolved (Http.mkResponse 200 JNull))
         (fun _ => 0%Q) (fun _ => "2026-01-01T00:00:00.000Z")
         (fun _ => mkCounts 0 0 0 0 0) (fun _ => "0f8fad5b-d9cb-469f-a165-70867728950e"))
      (mkJoi (fun _ => true) (fun _ => None))
      (mkRequest "/api/batch" ∅
         (JObj (<["records" := JArr []]> (<["tool" := JStr "get_reddit_user"]> ∅))))
      (mkWorld ∅ ∅ [] 1 [] 0) =
    (Returned (mkReply 400 (ValidationFailed details)), mkWorld ∅ ∅ [] 1 [] 0).
Proof.
  split; [reflexivity|]. split; [vm_compute; reflexivity|].
  eapply (post_api_batch_rejects_bad_size _ _ _ _ _ []);
    [reflexivity | vm_compute; reflexivity | left; reflexivity].
Defined.

Lemma ceil_div_1000 (a : Z) : is_ceil_div (Js.ceil (inject_Z a / 1000)%Q) a 1000.
Proof.
  unfold is_ceil_div, Js.ceil.
  set (x := (inject_Z a / 1000)%Q).
  assert (Hx : (x * 1000 == inject_Z a)%Q) by (unfold x; field).
  pose proof (Qle_ceiling x) as Hle. pose proof (Qceiling_lt x) as Hlt.
  split.
  - rewrite Zlt_Qlt, inject_Z_mult. change (inject_Z 1000) with 1000%Q. lra.
  - rewrite Zle_Qle, inject_Z_mult. change (inject_Z 1000) with 1000%Q. lra.
Qed.

Lemma addBulk_returns (jobs : list (JobData * Z)) (w : World) :
  exists js w', Queue.addBulk jobs w = (Returned js, w') /\ length js = length jobs.
Proof.
  revert w. induction jobs as [|[d prio] rest IH]; intros w.
  - eexists _, _. split; reflexivity.
  - cbn [Queue.addBulk]. unfold bind at 1. unfold Queue.add at 1. cbn beta iota.
    unfold bind at 1.
    match goal with |- context [Queue.addBulk rest ?w1] =>
      destruct (IH w1) as (js & w' & E & Hlen) end.
    rewrite E. eexists _, _. split; [reflexivity|]. simpl. now rewrite Hlen.
Qed.

Lemma batchSchema_accepts (joi : JoiLib) (limit : Z) (body : jsval) (value : BatchValue) :
  batchSchema joi limit body = Returned value ->
  exists o items,
    body = JObj o /\ o !! "records" = Some (JArr items) /\
    length (b_records value) = length items.
Proof.
  unfold batchSchema. destruct body as [| | | | | |o|]; try discriminate.
  destruct (required "tool" joi_string o) as [tool|e]; simpl; [|discriminate].
  unfold required at 1, field.
  destruct (o !! "records") as [v|] eqn:Hrec; [|discriminate].
  destruct v as [| | | | |items| |]; try discriminate. simpl.
  destruct (joi_items "records" items) as [records|e] eqn:E; simpl; [|discriminate].
  destruct (_ <? 1); [discriminate|]. destruct (limit <? _); [discriminate|]. simpl.
  destruct (optional "callbackUrl" _ o); simpl; [|discriminate].
  destruct (optional "priority" _ o); simpl; [|discriminate].
  destruct (known_keys _ o); simpl; [|discriminate].
  intros [= <-]. simpl. exists o, items.
  split; [reflexivity|]. split; [exact Hrec|]. exact (joi_items_length _ _ _ E).
Qed.

(** C7. An accepted [POST /api/single] reports
    [position = waiting + active + 1] and
    [estimatedWaitSeconds = ceil(position * D / 1000)], for the counts BullMQ
    reports when the request is handled; an accepted [POST /api/batch]
    reports [estimatedCompletionSeconds = ceil(n * D / 1000)] for the [n]
    entries of [records]; [D] is the configured drip interval. *)
Theorem accepted_submission_estimates (cfg : Config) (env : Env) (joi : JoiLib)
    (req : Request) (w w' : World) (reply : Reply) :
  code reply = 202 ->
  (post_api_single cfg env joi req w = (Returned reply, w') ->
   exists jobId rowId position est,
     body reply = SingleQueued jobId rowId position est /\
     position = waiting (counts env (tick w)) + active (counts env (tick w)) + 1 /\
     est = Js.ceil (inject_Z (position * DRIP_INTERVAL_MS cfg) / 1000)%Q /\
     is_ceil_div est (position * DRIP_INTERVAL_MS cfg) 1000) /\
  (post_api_batch cfg env joi req w = (Returned reply, w') ->
   exists o items batchId statusUrl est,
     json req = JObj o /\ o !! "records" = Some (JArr items) /\
     body reply = BatchQueued batchId (length items) est statusUrl /\
     est = Js.ceil (inject_Z (Z.of_nat (length items) * DRIP_INTERVAL_MS cfg) / 1000)%Q /\
     is_ceil_div est (Z.of_nat (length items) * DRIP_INTERVAL_MS cfg) 1000).
Proof.
  intros Hcode. split.
  - unfold post_api_single, try_catch.
    destruct (validate (singleSchema joi) (json req)) as [[value|]|e].
    2,3: (intros [= <- <-]; discriminate).
    destruct (ToolRegistry.toolExists (s_tool value)); simpl.
    2:{ intros [= <- <-]. discriminate. }
    unfold bind, Queue.getQueuePosition, Queue.getQueueStats, bind, ask, ret. simpl.
    unfold single_rowId.
    destruct (s_rowId value) as [[|ch r]|]; simpl; intros [= <- <-]; simpl;
      eexists _, _, _, _; (split; [reflexivity|]); (split; [reflexivity|]);
      (split; [reflexivity|]); apply ceil_div_1000.
  - unfold post_api_batch, try_catch.
    destruct (validate (batchSchema joi (MAX_BATCH_SIZE cfg)) (json req))
      as [[value|]|e] eqn:Hv.
    2,3: (intros [= <- <-]; discriminate).
    apply validate_Some in Hv. destruct Hv as [_ Hv].
    destruct (batchSchema_accepts _ _ _ _ Hv) as (o & items & Hjson & Hrec & Hlen).
    destruct (ToolRegistry.toolExists (b_tool value)); simpl.
    2:{ intros [= <- <-]. discriminate. }
    unfold Queue.addBatch. unfold bind at 1. unfold ask at 1. cbn [fst snd].
    unfold bind at 1. unfold bind at 1. unfold ask at 1.
    unfold bind at 1. unfold Queue.hset at 1.
    match goal with |- context [Queue.addBulk ?js ?w1] =>
      destruct (addBulk_returns js w1) as (jobs & w1' & E & Hjobs) end.
    rewrite E. unfold ret. intros [= <- <-]. simpl.
    exists o, items. eexists _, _, _. split; [exact Hjson|]. split; [exact Hrec|].
    rewrite Hjobs, length_imap, Hlen. split; [reflexivity|]. split; [reflexivity|].
    apply ceil_div_1000.
Qed.


Lemma accepted_submission_estimates_witness :
  code (Examples.reply_of
          (post_api_single Examples.default_config Examples.all_ok Examples.joi
             Examples.single_submission Examples.fresh_world)) = 202 /\
  exists jobId rowId,
    body (Examples.reply_of
            (post_api_single Examples.default_config Examples.all_ok Examples.joi
               Examples.single_submission Examples.fresh_world))
    = SingleQueued jobId rowId 5 50.
Proof.
  split; [vm_compute; reflexivity|].
  destruct (accepted_submission_estimates Examples.default_config Examples.all_ok
              Examples.joi Examples.single_submission Examples.fresh_world
              (snd (post_api_single Examples.default_config Examples.all_ok Examples.joi
                      Examples.single_submission Examples.fresh_world))
              (Examples.reply_of
                 (post_api_single Examples.default_config Examples.all_ok Examples.joi
                    Examples.single_submission Examples.fresh_world))
              ltac:(vm_compute; reflexivity)) as [Hsingle _].
  destruct (Hsingle ltac:(vm_compute; reflexivity))
    as (jobId & rowId & position & est & Hbody & Hpos & Hest & _).
  exists jobId, rowId. rewrite Hbody, Hest, Hpos. vm_compute. reflexivity.
Defined.

End IngressFacts.

(** ** The downstream client *)

Section ClientFacts.
Import Http Runtime AnysiteClient.
#[local] Open Scope Z_scope.

(** The classification itself is as documented: a rejection that carries a
    4xx status other than 429, no network or timeout code and no timeout
    text is not retryable. *)
Lemma isRetryableError_client_error (error : AxiosError) (s : Z) :
  response_status error = Some s -> 400 <= s < 500 -> s <> 429 ->
  existsb (code_is error)
    ["ECONNREFUSED"; "ECONNRESET"; "ETIMEDOUT"; "ENOTFOUND"; "ECONNABORTED"] = false ->
  message_has_timeout error = false ->
  isRetryableError error = false.
Proof.
  intros Hs Hrange Hne Hcode Hmsg. unfold isRetryableError, status_sat.
  simpl in Hcode. rewrite !orb_false_r in Hcode. rewrite !orb_false_iff in Hcode.
  destruct Hcode as (-> & -> & -> & -> & ->). rewrite Hmsg, Hs. simpl.
  destruct (Z.eqb_spec s 429); [contradiction|].
  destruct (Z.leb_spec 500 s); [lia|].
  destruct (400 <=? s), (s <? 500); reflexivity.
Qed.

(** One iteration of the loop of [request] on a rejection that is not to be
    retried: nothing leaves the loop, and the next iteration runs at once. *)
Lemma request_loop_falls_through (env : Env) (options : Options) (maxRetries : Z)
    (remaining : nat) (attempt : Z) (lastError : option AxiosError)
    (error : AxiosError) (w : World) :
  api env (tick w) = Rejected error ->
  isRetryableError error && (attempt <? maxRetries) = false ->
  request_loop env options maxRetries (S remaining) attempt lastError w =
  request_loop env options maxRetries remaining (attempt + 1) (Some error)
    (mkWorld (results w) (batches w) (queue w) (nextId w)
       (log w ++ [ApiRequest (default "POST" (method options)) (endpoint options)
                    (data options) (effective_timeout (timeout options))])
       (S (tick w))).
Proof.
  intros Hapi Hno. cbn [request_loop]. unfold bind, emit, ask. cbn [tick].
  rewrite Hapi, Hno. reflexivity.
Qed.

(** C1 at a failing input. The first attempt is answered 404 (not
    retryable); the call nevertheless issues a second request and, that one
    being answered 200, returns its data instead of failing.  When every
    attempt is answered 404 the call issues all three requests before it
    fails with the error carrying the endpoint and the status 404. *)
Theorem request_repeats_after_client_error :
  isRetryableError Examples.not_found_error = false /\
  (exists w,
     request Examples.not_found_once Examples.profile_request Examples.fresh_world
       = (Returned (JStr "ok"), w) /\
     length (log w) = 2%nat /\ Forall (fun e => Spec.is_request e = true) (log w)) /\
  (exists e w,
     request Examples.always_not_found Examples.profile_request Examples.fresh_world
       = (Threw (FormattedError e), w) /\
     Runtime.endpoint e = "/api/linkedin/profile" /\ Runtime.status e = Some 404 /\
     length (log w) = 3%nat /\ Forall (fun e => Spec.is_request e = true) (log w)).
Proof.
  split; [reflexivity|]. split.
  - eexists. split; [vm_compute; reflexivity|]. split; [reflexivity|].
    repeat constructor.
  - eexists _, _. split; [vm_compute; reflexivity|]. repeat split; repeat constructor.
Qed.

End ClientFacts.

(** ** The worker *)

Section WorkerFacts.
Import Http Runtime Spec.
#[local] Open Scope Z_scope.

(** Run the next call of a sequence of binds. *)
Ltac run1 :=
  match goal with
  | |- context [?m ?w] =>
      is_var w;
      lazymatch m with
      | pair _ => fail
      | _ => idtac
      end;
      lazymatch type of (m w) with
      | (result _ _ * World)%type => destruct (m w) as [[?|?] ?]; cbn beta iota
      end
  end.

Lemma processJob_split (cfg : Config) (env : Env) (job : Job) (w : World) :
  Worker.processJob cfg env job w =
  bind (process_before_callback cfg env job)
    (fun response => bind (deliver_completed cfg env job response)
                       (fun _ => ret response)) w.
Proof.
  unfold Worker.processJob, process_before_callback, deliver_completed.
  destruct (ToolRegistry.getTool _) as [[config|]|]; [|reflexivity|reflexivity].
  destruct (ToolRegistry.validateParams _ _) as [validation|[]]; [|reflexivity].
  destruct (negb _); [reflexivity|].
  unfold bind, ret, throw. repeat run1; reflexivity.
Qed.

Lemma handleJobFailure_split (cfg : Config) (env : Env) (job : Job) (error : Exn)
    (w : World) :
  Worker.handleJobFailure cfg env job error w =
  if attempts (opts job) <=? attemptsMade job
  then bind (record_failure cfg env job error)
         (fun _ => deliver_failed cfg env job error) w
  else (Returned tt, w).
Proof.
  unfold Worker.handleJobFailure, record_failure, deliver_failed.
  destruct (_ <=? _); [|reflexivity].
  unfold bind, ret, throw. repeat run1; reflexivity.
Qed.

(** *** Effects of the two retry loops *)

Lemma only_logs_refl (P : Event -> bool) (w : World) : only_logs P w w.
Proof.
  repeat split. exists []. split; [now rewrite app_nil_r | constructor].
Qed.

Lemma only_logs_trans (P : Event -> bool) (w1 w2 w3 : World) :
  only_logs P w1 w2 -> only_logs P w2 w3 -> only_logs P w1 w3.
Proof.
  intros (Hr & Hb & Hq & Hn & d & Hl & Hd) (Hr' & Hb' & Hq' & Hn' & d' & Hl' & Hd').
  repeat split; try congruence.
  exists (d ++ d'). split; [rewrite Hl', Hl; now rewrite app_assoc|].
  apply Forall_app. now split.
Qed.

Lemma runs_ret {A} (P : Event -> bool) (a : A) : runs P (ret a).
Proof. intros w r w' [= _ <-]. apply only_logs_refl. Qed.

Lemma runs_throw {A} (P : Event -> bool) (e : Exn) : runs P (@throw A e).
Proof. intros w r w' [= _ <-]. apply only_logs_refl. Qed.

Lemma runs_emit (P : Event -> bool) (e : Event) : P e = true -> runs P (emit e).
Proof.
  intros He w r w' [= _ <-]. repeat split. exists [e]. split; [reflexivity|].
  now constructor.
Qed.

Lemma runs_ask {A} (P : Event -> bool) (oracle : nat -> A) : runs P (ask oracle).
Proof.
  intros w r w' [= _ <-]. repeat split. exists []. split; [cbn; now rewrite app_nil_r|].
  constructor.
Qed.

Lemma runs_bind {A B} (P : Event -> bool) (m : M A) (k : A -> M B) :
  runs P m -> (forall a, runs P (k a)) -> runs P (bind m k).
Proof.
  intros Hm Hk w r w'. unfold bind.
  destruct (m w) as [[a|e] w1] eqn:E.
  - intros H. eapply only_logs_trans; [eapply Hm; exact E | eapply Hk; exact H].
  - intros [= _ <-]. eapply Hm; exact E.
Qed.

Lemma returns_ret {A} (a : A) : returns (ret a).
Proof. intros w. now eexists _, _. Qed.

Lemma returns_emit (e : Event) : returns (emit e).
Proof. intros w. now eexists _, _. Qed.

Lemma returns_ask {A} (oracle : nat -> A) : returns (ask oracle).
Proof. intros w. now eexists _, _. Qed.

Lemma returns_bind {A B} (m : M A) (k : A -> M B) :
  returns m -> (forall a, returns (k a)) -> returns (bind m k).
Proof.
  intros Hm Hk w. unfold bind. destruct (Hm w) as (a & w1 & ->). apply Hk.
Qed.

Lemma request_loop_runs (env : Env) (options : AnysiteClient.Options) (maxRetries : Z)
    (remaining : nat) (attempt : Z) (lastError : option AxiosError) :
  runs is_api
    (AnysiteClient.request_loop env options maxRetries remaining attempt lastError).
Proof.
  revert attempt lastError.
  induction remaining as [|remaining IH]; intros attempt lastError;
    cbn [AnysiteClient.request_loop].
  - apply runs_throw.
  - apply runs_bind.
    + apply runs_bind; [now apply runs_emit | intros _; apply runs_ask].
    + intros [response|error]; [apply runs_ret|].
      apply runs_bind; [|intros _; apply IH].
      destruct (_ && _); [|apply runs_ret].
      apply runs_bind; [apply runs_ask | intros u; now apply runs_emit].
Qed.

Lemma sendCallback_loop_runs (env : Env) (url : string) (payload : Payload)
    (maxRetries timeout baseDelay : Z) (remaining : nat) (attempt : Z)
    (lastError : option AxiosError) :
  runs callback_event
    (Callback.sendCallback_loop env url payload maxRetries timeout baseDelay remaining
       attempt lastError).
Proof.
  revert attempt lastError.
  induction remaining as [|remaining IH]; intros attempt lastError;
    cbn [Callback.sendCallback_loop].
  - destruct lastError; [apply runs_ret | apply runs_throw].
  - apply runs_bind.
    + apply runs_bind; [now apply runs_emit | intros _; apply runs_ask].
    + intros [response|error]; [apply runs_ret|].
      apply runs_bind; [|intros _; apply IH].
      destruct (_ && _); [|apply runs_ret].
      apply runs_bind; [apply runs_ask | intros u; now apply runs_emit].
Qed.

Lemma sendCallback_loop_returns (env : Env) (url : string) (payload : Payload)
    (maxRetries timeout baseDelay : Z) (remaining : nat) (attempt : Z)
    (lastError : option AxiosError) :
  (0 < remaining)%nat \/ lastError <> None ->
  returns
    (Callback.sendCallback_loop env url payload maxRetries timeout baseDelay remaining
       attempt lastError).
Proof.
  revert attempt lastError.
  induction remaining as [|remaining IH]; intros attempt lastError Hgo;
    cbn [Callback.sendCallback_loop].
  - destruct Hgo as [Hgo|Hgo]; [lia|].
    destruct lastError; [apply returns_ret | congruence].
  - apply returns_bind.
    + apply returns_bind; [apply returns_emit | intros _; apply returns_ask].
    + intros [response|error]; [apply returns_ret|].
      apply returns_bind; [|intros _; apply IH; right; congruence].
      destruct (_ && _); [|apply returns_ret].
      apply returns_bind; [apply returns_ask | intros u; apply returns_emit].
Qed.

Lemma deliver_completed_runs (cfg : Config) (env : Env) (job : Job) (response : jsval) :
  runs callback_event (deliver_completed cfg env job response).
Proof.
  unfold deliver_completed, Callback.sendCompletedCallback, when.
  destruct (callbackUrl (data job)) as [[|c url]|]; cbn [truthy_str]; try apply runs_ret.
  apply runs_bind; [|intros _; apply runs_ret].
  apply runs_bind; [|intros p; apply sendCallback_loop_runs].
  apply runs_bind; [apply runs_ask | intros t; apply runs_ret].
Qed.

Lemma deliver_completed_returns (cfg : Config) (env : Env) (job : Job) (response : jsval) :
  0 < callbackMaxRetries cfg -> returns (deliver_completed cfg env job response).
Proof.
  intros Hpos. unfold callbackMaxRetries in Hpos.
  unfold deliver_completed, Callback.sendCompletedCallback, when.
  destruct (callbackUrl (data job)) as [[|c url]|]; cbn [truthy_str]; try apply returns_ret.
  apply returns_bind; [|intros _; apply returns_ret].
  apply returns_bind.
  - apply returns_bind; [apply returns_ask | intros t; apply returns_ret].
  - intros p. apply sendCallback_loop_returns. left.
    cbn [Callback.noOptions Callback.maxRetries default]. lia.
Qed.

Lemma deliver_failed_runs (cfg : Config) (env : Env) (job : Job) (error : Exn) :
  runs callback_event (deliver_failed cfg env job error).
Proof.
  unfold deliver_failed, Callback.sendFailedCallback, when.
  destruct (callbackUrl (data job)) as [[|c url]|]; cbn [truthy_str]; try apply runs_ret.
  apply runs_bind; [|intros _; apply runs_ret].
  apply runs_bind; [|intros p; apply sendCallback_loop_runs].
  apply runs_bind; [apply runs_ask | intros t; apply runs_ret].
Qed.

Lemma deliver_failed_returns (cfg : Config) (env : Env) (job : Job) (error : Exn) :
  0 < callbackMaxRetries cfg -> returns (deliver_failed cfg env job error).
Proof.
  intros Hpos. unfold callbackMaxRetries in Hpos.
  unfold deliver_failed, Callback.sendFailedCallback, when.
  destruct (callbackUrl (data job)) as [[|c url]|]; cbn [truthy_str]; try apply returns_ret.
  apply returns_bind; [|intros _; apply returns_ret].
  apply returns_bind.
  - apply returns_bind; [apply returns_ask | intros t; apply returns_ret].
  - intros p. apply sendCallback_loop_returns. left.
    cbn [Callback.noOptions Callback.maxRetries default]. lia.
Qed.

(** *** Callback delivery is the last step and touches nothing else *)

Lemma process_before_callback_url (cfg : Config) (env : Env) (job : Job)
    (url : option string) :
  process_before_callback cfg env (with_callback job url) =
  process_before_callback cfg env job.
Proof. reflexivity. Qed.

Lemma record_failure_url (cfg : Config) (env : Env) (job : Job) (url : option string)
    (error : Exn) :
  record_failure cfg env (with_callback job url) error = record_failure cfg env job error.
Proof. reflexivity. Qed.

Lemma record_failure_returns (cfg : Config) (env : Env) (job : Job) (error : Exn) :
  returns (record_failure cfg env job error).
Proof.
  intros w. unfold record_failure, when, Queue.updateBatchProgress.
  destruct (batchId (data job)) as [[|c b]|]; cbn [truthy_str]; now eexists _, _.
Qed.

Lemma processJob_no_callback (cfg : Config) (env : Env) (job : Job) (w : World) :
  Worker.processJob cfg env (with_callback job None) w =
  process_before_callback cfg env job w.
Proof.
  rewrite processJob_split, process_before_callback_url. unfold bind.
  destruct (process_before_callback cfg env job w) as [[v|e] w0]; reflexivity.
Qed.

Lemma processJob_callback_free (cfg : Config) (env : Env) (job : Job)
    (url : option string) (w : World) :
  0 < callbackMaxRetries cfg ->
  match process_before_callback cfg env job w with
  | (Threw e, w0) => Worker.processJob cfg env (with_callback job url) w = (Threw e, w0)
  | (Returned v, w0) =>
      exists w1, Worker.processJob cfg env (with_callback job url) w = (Returned v, w1) /\
                 only_logs callback_event w0 w1
  end.
Proof.
  intros Hpos. rewrite processJob_split, process_before_callback_url. unfold bind.
  destruct (process_before_callback cfg env job w) as [[v|e] w0]; [|reflexivity].
  destruct (deliver_completed_returns cfg env (with_callback job url) v Hpos w0)
    as ([] & w1 & E).
  rewrite E. exists w1. split; [reflexivity|].
  eapply deliver_completed_runs; exact E.
Qed.

Lemma handleJobFailure_no_callback (cfg : Config) (env : Env) (job : Job) (error : Exn)
    (w : World) :
  Worker.handleJobFailure cfg env (with_callback job None) error w =
  if attempts (opts job) <=? attemptsMade job
  then record_failure cfg env job error w
  else (Returned tt, w).
Proof.
  rewrite handleJobFailure_split. cbn [with_callback opts attemptsMade].
  destruct (_ <=? _); [|reflexivity].
  rewrite record_failure_url. unfold bind.
  destruct (record_failure cfg env job error w) as [[[]|e] w0]; reflexivity.
Qed.

Lemma handleJobFailure_callback_free (cfg : Config) (env : Env) (job : Job)
    (url : option string) (error : Exn) (w : World) :
  0 < callbackMaxRetries cfg ->
  if attempts (opts job) <=? attemptsMade job
  then exists w0 w1,
         record_failure cfg env job error w = (Returned tt, w0) /\
         Worker.handleJobFailure cfg env (with_callback job url) error w = (Returned tt, w1) /\
         only_logs callback_event w0 w1
  else Worker.handleJobFailure cfg env (with_callback job url) error w = (Returned tt, w).
Proof.
  intros Hpos. rewrite handleJobFailure_split. cbn [with_callback opts attemptsMade].
  destruct (_ <=? _); [|reflexivity].
  rewrite record_failure_url. unfold bind.
  destruct (record_failure_returns cfg env job error w) as ([] & w0 & E0). rewrite E0.
  destruct (deliver_failed_returns cfg env (with_callback job url) error Hpos w0)
    as ([] & w1 & E1).
  exists w0, w1. split; [reflexivity|]. split; [exact E1|].
  eapply deliver_failed_runs; exact E1.
Qed.

(** One turn of the worker loop. *)
Lemma attempts_loop_step (cfg : Config) (env : Env) (fuel : nat) (job : Job) (w : World) :
  Worker.attempts_loop cfg env (S fuel) job w =
  match Worker.processJob cfg env job (activated job w) with
  | (Returned v, w1) => (Returned (Some (Worker.JobCompleted v)), w1)
  | (Threw e, w1) =>
      let next w2 :=
        if attemptsMade (Worker.attempted job) <? attempts (opts (Worker.attempted job))
        then Worker.attempts_loop cfg env fuel (Worker.attempted job) w2
        else (Returned (Some (Worker.JobFailed (message e))), w2) in
      next (snd (Worker.handleJobFailure cfg env (Worker.attempted job) e w1))
  end.
Proof.
  cbn [Worker.attempts_loop]. unfold bind, try_catch, emit, ret, activated.
  destruct (Worker.processJob cfg env job _) as [[v|e] w1]; [reflexivity|].
  destruct (Worker.handleJobFailure cfg env (Worker.attempted job) e w1) as [[[]|e'] w2];
    cbn [snd]; destruct (_ <? _); reflexivity.
Qed.

(** A run with a callback URL against the run of the same job without one. *)
Lemma attempts_loop_callback_free (cfg : Config) (env : Env) (fuel : nat) (job : Job)
    (url : option string) (w : World) :
  0 < callbackMaxRetries cfg ->
  exists r w0 w1,
    Worker.attempts_loop cfg env fuel (with_callback job None) w = (r, w0) /\
    Worker.attempts_loop cfg env fuel (with_callback job url) w = (r, w1) /\
    only_logs callback_event w0 w1.
Proof.
  intros Hpos. revert job w. induction fuel as [|fuel IH]; intros job w.
  - eexists _, _, _. split; [reflexivity|]. split; [reflexivity|]. apply only_logs_refl.
  - rewrite !attempts_loop_step.
    change (activated (with_callback job None) w) with (activated job w).
    change (activated (with_callback job url) w) with (activated job w).
    change (Worker.attempted (with_callback job None))
      with (with_callback (Worker.attempted job) None).
    change (Worker.attempted (with_callback job url))
      with (with_callback (Worker.attempted job) url).
    rewrite processJob_no_callback.
    pose proof (processJob_callback_free cfg env job url (activated job w) Hpos) as Hp.
    destruct (process_before_callback cfg env job (activated job w)) as [[v|e] w0].
    + destruct Hp as (w1 & -> & Heff). eexists _, _, _.
      split; [reflexivity|]. split; [reflexivity|]. exact Heff.
    + rewrite Hp. rewrite handleJobFailure_no_callback.
      pose proof (handleJobFailure_callback_free cfg env (Worker.attempted job) url e w0 Hpos)
        as Hf.
      cbn [with_callback opts attemptsMade].
      destruct (attempts (opts (Worker.attempted job)) <=? attemptsMade (Worker.attempted job))
        eqn:Hfinal.
      * destruct Hf as (wr & w1 & -> & -> & Heff). cbn [snd].
        apply Z.leb_le in Hfinal. apply Z.ltb_ge in Hfinal. rewrite Hfinal.
        eexists _, _, _. split; [reflexivity|]. split; [reflexivity|]. exact Heff.
      * rewrite Hf. cbn [snd]. apply Z.leb_gt in Hfinal. apply Z.ltb_lt in Hfinal.
        rewrite Hfinal. apply IH.
Qed.

Lemma request_loop_hook (env : Env) (h : nat -> outcome)
    (options : AnysiteClient.Options) (maxRetries : Z) (remaining : nat) (attempt : Z)
    (lastError : option AxiosError) (w : World) :
  AnysiteClient.request_loop (with_hook env h) options maxRetries remaining attempt
    lastError w =
  AnysiteClient.request_loop env options maxRetries remaining attempt lastError w.
Proof.
  revert attempt lastError w.
  induction remaining as [|remaining IH]; intros attempt lastError w; [reflexivity|].
  cbn [AnysiteClient.request_loop]. unfold bind, emit, ask, ret.
  cbn [with_hook api random].
  destruct (api env _) as [response|error]; [reflexivity|].
  destruct (_ && _); apply IH.
Qed.

Lemma process_before_callback_hook (cfg : Config) (env : Env) (h : nat -> outcome)
    (job : Job) (w : World) :
  process_before_callback cfg (with_hook env h) job w =
  process_before_callback cfg env job w.
Proof.
  unfold process_before_callback.
  destruct (ToolRegistry.getTool _) as [[config|]|]; [|reflexivity|reflexivity].
  destruct (ToolRegistry.validateParams _ _) as [validation|[]]; [|reflexivity].
  destruct (negb _); [reflexivity|].
  unfold bind at 1 5. unfold AnysiteClient.request. rewrite request_loop_hook.
  reflexivity.
Qed.

Lemma attempts_loop_hook (cfg : Config) (env : Env) (h : nat -> outcome) (fuel : nat)
    (job : Job) (w : World) :
  Worker.attempts_loop cfg (with_hook env h) fuel (with_callback job None) w =
  Worker.attempts_loop cfg env fuel (with_callback job None) w.
Proof.
  revert job w. induction fuel as [|fuel IH]; intros job w; [reflexivity|].
  rewrite !attempts_loop_step.
  change (Worker.attempted (with_callback job None))
    with (with_callback (Worker.attempted job) None).
  rewrite !processJob_no_callback, process_before_callback_hook.
  destruct (process_before_callback cfg env job _) as [[v|e] w0]; [reflexivity|].
  rewrite !handleJobFailure_no_callback.
  change (record_failure cfg (with_hook env h) (Worker.attempted job) e w0)
    with (record_failure cfg env (Worker.attempted job) e w0).
  cbv zeta. destruct (_ <? _); [apply IH | reflexivity].
Qed.

Lemma job_events_only_callback (w0 w1 : World) :
  only_logs callback_event w0 w1 -> job_events (log w1) = job_events (log w0).
Proof.
  intros (_ & _ & _ & _ & d & -> & Hd). unfold job_events.
  rewrite List.filter_app.
  assert (E : List.filter (fun e => negb (callback_event e)) d = []).
  { induction Hd as [|e d He _ IH]; [reflexivity|]. simpl. now rewrite He. }
  rewrite E. apply app_nil_r.
Qed.

(** X28. Where the callback retry budget is positive (it is 3 by default):
    whatever the callback URL of a job and whatever the callback receiver
    answers (delivered, failed after all retries, or no URL and the delivery
    skipped), the job ends in the same terminal state with the same return
    value or failure reason, the result keys and the batch counters hold the
    same values, and the same job attempts, downstream requests and store
    writes were made: no attempt is added. *)
Theorem callback_outcome_isolated (cfg : Config) (env : Env) (job : Job)
    (url url' : option string) (hook' : nat -> outcome) (w : World) :
  0 < callbackMaxRetries cfg ->
  exists r w1 w2,
    Worker.run cfg env (with_callback job url) w = (r, w1) /\
    Worker.run cfg (with_hook env hook') (with_callback job url') w = (r, w2) /\
    results w1 = results w2 /\ batches w1 = batches w2 /\
    job_events (log w1) = job_events (log w2).
Proof.
  intros Hpos. unfold Worker.run. cbn [with_callback opts attemptsMade].
  set (fuel := Z.to_nat _).
  destruct (attempts_loop_callback_free cfg env fuel job url w Hpos)
    as (r & w0 & w1 & E0 & E1 & Heff1).
  destruct (attempts_loop_callback_free cfg (with_hook env hook') fuel job url' w Hpos)
    as (r' & w0' & w2 & E0' & E2 & Heff2).
  rewrite attempts_loop_hook, E0 in E0'. injection E0' as <- <-.
  exists r, w1, w2. split; [exact E1|]. split; [exact E2|].
  pose proof (job_events_only_callback _ _ Heff1) as J1.
  pose proof (job_events_only_callback _ _ Heff2) as J2.
  destruct Heff1 as (R1 & B1 & _). destruct Heff2 as (R2 & B2 & _).
  repeat split; congruence.
Qed.

Lemma callback_outcome_isolated_witness :
  0 < callbackMaxRetries Examples.default_config /\
  exists r w1 w2,
    Worker.run Examples.default_config Examples.all_ok
      (with_callback Examples.profile_job (Some "https://hooks.example/abc"))
      Examples.fresh_world = (r, w1) /\
    Worker.run Examples.default_config
      (with_hook Examples.all_ok (fun _ => Examples.unavailable))
      (with_callback Examples.profile_job None) Examples.fresh_world = (r, w2) /\
    results w1 = results w2 /\ batches w1 = batches w2 /\
    job_events (log w1) = job_events (log w2).
Proof.
  split; [reflexivity|].
  apply (callback_outcome_isolated Examples.default_config Examples.all_ok
           Examples.profile_job (Some "https://hooks.example/abc") None
           (fun _ => Examples.unavailable) Examples.fresh_world).
  reflexivity.
Defined.

(** *** A callback budget that is not positive *)

(** [sendCallback] with a budget that is not positive: the loop is not
    entered and [getErrorMessage(lastError)] reads [null.response]. *)
Lemma sendCallback_throws_without_budget (cfg : Config) (env : Env) (url : string)
    (payload : Payload) (w : World) :
  callbackMaxRetries cfg <= 0 ->
  Callback.sendCallback cfg env url payload Callback.noOptions w =
  (Threw (TypeError "Cannot read properties of null (reading 'response')"), w).
Proof.
  intros Hle. unfold Callback.sendCallback, callbackMaxRetries in *.
  cbn [Callback.noOptions Callback.maxRetries default].
  replace (Z.to_nat _) with 0%nat by lia. reflexivity.
Qed.

(** Then [processJob] throws for every job with a callback URL, also when the
    downstream call succeeded and its result was stored and counted. *)
Lemma processJob_throws_without_budget (cfg : Config) (env : Env) (job : Job)
    (w w' : World) (v : jsval) :
  callbackMaxRetries cfg <= 0 -> Js.truthy_str (callbackUrl (data job)) = true ->
  Worker.processJob cfg env job w <> (Returned v, w').
Proof.
  intros Hle Hurl. rewrite processJob_split. unfold bind at 1.
  destruct (process_before_callback cfg env job w) as [[v0|e] w0]; [|discriminate].
  unfold bind at 1. unfold deliver_completed, Callback.sendCompletedCallback, when.
  destruct (callbackUrl (data job)) as [[|c url]|]; try discriminate.
  cbn [truthy_str]. unfold bind at 1. unfold bind at 1.
  unfold Callback.buildCallbackPayload at 1. unfold bind at 1. unfold ask at 1.
  cbn beta iota. unfold ret at 1. cbn beta iota.
  rewrite sendCallback_throws_without_budget by exact Hle. discriminate.
Qed.

(** So no such job ever completes. *)
Lemma no_completion_without_budget (cfg : Config) (env : Env) (fuel : nat) (job : Job)
    (w w' : World) (v : jsval) :
  callbackMaxRetries cfg <= 0 -> Js.truthy_str (callbackUrl (data job)) = true ->
  Worker.attempts_loop cfg env fuel job w <> (Returned (Some (Worker.JobCompleted v)), w').
Proof.
  intros Hle. revert job w. induction fuel as [|fuel IH]; intros job w Hurl; [discriminate|].
  rewrite attempts_loop_step.
  destruct (Worker.processJob cfg env job (activated job w)) as [[v0|e] w1] eqn:E.
  - exfalso. eapply processJob_throws_without_budget; eassumption.
  - cbv zeta. destruct (_ <? _); [|discriminate]. apply IH. exact Hurl.
Qed.

(** C5. The callback outcome does change the job when the callback retry
    budget is negative ([CALLBACK_MAX_RETRIES=-1]): with the downstream API
    answering 200 throughout, the job without a callback URL completes after
    one attempt, one result write and one increment of [completed]; the same
    job with a callback URL is attempted three times, counted three times as
    completed and once as failed, and ends failed with the [TypeError] of
    [sendCallback], its stored record saying so. *)
Theorem callback_throw_fails_the_job :
  let quiet_run :=
    Worker.run Examples.negative_budget Examples.all_ok Examples.profile_job
      Examples.fresh_world in
  let hooked_run :=
    Worker.run Examples.negative_budget Examples.all_ok Examples.hooked_job
      Examples.fresh_world in
  fst quiet_run = Returned (Some (Worker.JobCompleted (JStr "ok"))) /\
  fst hooked_run =
    Returned (Some (Worker.JobFailed
                      (MsgText "Cannot read properties of null (reading 'response')"))) /\
  option_map body (results (snd quiet_run) !! "anysignals:result:1:batch_0f8fad5b") =
    Some (CompletedResult "1" (JStr "r1") "get_linkedin_profile" (JStr "ok")
            "2026-01-01T00:00:00.000Z") /\
  option_map body (results (snd hooked_run) !! "anysignals:result:1:batch_0f8fad5b") =
    Some (FailedResult "1" (JStr "r1") "get_linkedin_profile"
            (MsgText "Cannot read properties of null (reading 'response')")
            "2026-01-01T00:00:00.000Z") /\
  batches (snd quiet_run) !! "anysignals:batch:batch_0f8fad5b" =
    Some (mkBatch 0 1 0 None None) /\
  batches (snd hooked_run) !! "anysignals:batch:batch_0f8fad5b" =
    Some (mkBatch 0 3 1 None None) /\
  Measures.activations (log (snd quiet_run)) = 1%nat /\
  Measures.activations (log (snd hooked_run)) = 3%nat /\
  Measures.requests (log (snd quiet_run)) = 1%nat /\
  Measures.requests (log (snd hooked_run)) = 3%nat.
Proof.
  cbv zeta. repeat split; vm_compute; reflexivity.
Qed.


(** *** One result write, before any callback attempt *)











(** C6. With a negative callback retry budget ([CALLBACK_MAX_RETRIES=-1]) a
    job with a callback URL whose downstream call succeeds writes four result
    records on its way to its terminal state, all under the same key: the
    completed record on each of its three attempts, then the failed record;
    it makes no callback attempt at all. *)
Theorem result_rewritten_after_callback_throw :
  let hooked_run :=
    Worker.run Examples.negative_budget Examples.all_ok Examples.hooked_job
      Examples.fresh_world in
  let completed_record :=
    CompletedResult "1" (JStr "r1") "get_linkedin_profile" (JStr "ok")
      "2026-01-01T00:00:00.000Z" in
  let failed_record :=
    FailedResult "1" (JStr "r1") "get_linkedin_profile"
      (MsgText "Cannot read properties of null (reading 'response')")
      "2026-01-01T00:00:00.000Z" in
  fst hooked_run =
    Returned (Some (Worker.JobFailed
                      (MsgText "Cannot read properties of null (reading 'response')"))) /\
  Measures.stores (log (snd hooked_run)) =
    [("anysignals:result:1:batch_0f8fad5b", completed_record);
     ("anysignals:result:1:batch_0f8fad5b", completed_record);
     ("anysignals:result:1:batch_0f8fad5b", completed_record);
     ("anysignals:result:1:batch_0f8fad5b", failed_record)] /\
  Measures.post_attempts (log (snd hooked_run)) = [].
Proof.
  cbv zeta. repeat split; vm_compute; reflexivity.
Qed.


End WorkerFacts.

(** ** More on the downstream client *)

Section ClientRetries.
Import Http Runtime AnysiteClient Measures.
#[local] Open Scope Z_scope.

Lemma code_in_transient (error : AxiosError) :
  existsb (code_is error) transient_codes =
  code_is error "ECONNREFUSED" || code_is error "ECONNRESET" ||
  code_is error "ETIMEDOUT" || code_is error "ENOTFOUND" || code_is error "ECONNABORTED".
Proof.
  cbn [existsb transient_codes].
  destruct (code_is error "ECONNREFUSED"), (code_is error "ECONNRESET"),
    (code_is error "ETIMEDOUT"), (code_is error "ENOTFOUND"),
    (code_is error "ECONNABORTED"); reflexivity.
Qed.

(** X1. [isRetryableError] accepts exactly the rejections that carry one of
    the five transient error codes, or whose message contains [timeout], or
    whose response status is 429 or at least 500; a code or a timeout text
    wins over any status. *)
Theorem isRetryableError_iff (error : AxiosError) :
  isRetryableError error = true <->
  existsb (code_is error) transient_codes = true \/
  message_has_timeout error = true \/
  exists s, response_status error = Some s /\ (s = 429 \/ 500 <= s).
Proof.
  rewrite code_in_transient. unfold isRetryableError, status_sat.
  destruct (code_is error "ECONNREFUSED"), (code_is error "ECONNRESET"),
    (code_is error "ETIMEDOUT"), (code_is error "ENOTFOUND"),
    (code_is error "ECONNABORTED"); cbn [orb]; try (split; [auto | reflexivity]).
  destruct (message_has_timeout error); try (split; [auto | reflexivity]).
  destruct (response_status error) as [s|].
  - destruct (Z.eqb_spec s 429) as [->|Hne].
    + split; [|reflexivity]. intros _. right. right. exists 429. auto.
    + destruct (Z.leb_spec 500 s) as [Hge|Hlt].
      * split; [|reflexivity]. intros _. right. right. exists s. auto.
      * split.
        -- destruct (400 <=? s), (s <? 500); discriminate.
        -- intros [H|[H|(s' & [= <-] & [->|H])]]; try discriminate; lia.
  - split; [discriminate|].
    intros [H|[H|(s' & H & _)]]; discriminate.
Qed.

(** X2. The callback dispatcher and the downstream client retry on the same
    rejections: the two tests, written differently, agree on every error. *)
Theorem isRetryableCallbackError_agrees (error : AxiosError) :
  Callback.isRetryableCallbackError error = isRetryableError error.
Proof.
  unfold Callback.isRetryableCallbackError, isRetryableError.
  change (existsb (code_is error)
            ["ECONNREFUSED"; "ECONNRESET"; "ETIMEDOUT"; "ENOTFOUND"; "ECONNABORTED"])
    with (existsb (code_is error) transient_codes).
  rewrite code_in_transient.
  destruct (code_is error "ECONNREFUSED"), (code_is error "ECONNRESET"),
    (code_is error "ETIMEDOUT"), (code_is error "ENOTFOUND"),
    (code_is error "ECONNABORTED"); reflexivity.
Qed.

Lemma requests_app (a b : list Event) : requests (a ++ b) = (requests a + requests b)%nat.
Proof. unfold requests. now rewrite List.filter_app, length_app. Qed.

Lemma sleeps_app (a b : list Event) : sleeps (a ++ b) = (sleeps a + sleeps b)%nat.
Proof. unfold sleeps. now rewrite List.filter_app, length_app. Qed.

Lemma request_loop_budget (env : Env) (options : Options) (maxRetries : Z)
    (remaining : nat) (attempt : Z) (lastError : option AxiosError)
    (w w' : World) (r : result jsval Exn) :
  Z.of_nat remaining = maxRetries + 1 - attempt ->
  request_loop env options maxRetries remaining attempt lastError w = (r, w') ->
  exists d, log w' = log w ++ d /\
            (requests d <= remaining)%nat /\ (sleeps d <= remaining - 1)%nat.
Proof.
  revert attempt lastError w.
  induction remaining as [|remaining IH]; intros attempt lastError w Hinv.
  - cbn. intros [= _ <-]. exists []. rewrite app_nil_r. repeat split; cbn; lia.
  - cbn [request_loop]. unfold bind, emit, ask, ret. cbn [tick log].
    destruct (api env (tick w)) as [response|error].
    + intros [= _ <-]. cbn [log]. eexists [_]. split; [reflexivity|]. cbn. lia.
    + destruct (isRetryableError error && (attempt <? maxRetries)) eqn:Hretry.
      * intros H. apply IH in H; [|lia]. destruct H as (d & Hl & Hr & Hs).
        cbn [log] in Hl. rewrite <- !app_assoc in Hl.
        eexists. split; [exact Hl|].
        rewrite requests_app, sleeps_app, requests_app, sleeps_app. cbn.
        apply andb_true_iff in Hretry. destruct Hretry as [_ Hlt]. apply Z.ltb_lt in Hlt.
        lia.
      * intros H. apply IH in H; [|lia]. destruct H as (d & Hl & Hr & Hs).
        cbn [log] in Hl. rewrite <- !app_assoc in Hl.
        eexists. split; [exact Hl|].
        rewrite requests_app, sleeps_app. cbn. lia.
Qed.

(** X3. One call of [request] issues at most [maxRetries] downstream requests
    (3 by default) and sleeps at most [maxRetries - 1] times, never after its
    last attempt; it leaves the store and the queue untouched. *)
Theorem request_within_budget (env : Env) (options : Options) (w : World) :
  exists d, log (snd (request env options w)) = log w ++ d /\
            (requests d <= Z.to_nat (budget options))%nat /\
            (sleeps d <= Z.to_nat (budget options) - 1)%nat /\
            results (snd (request env options w)) = results w /\
            batches (snd (request env options w)) = batches w /\
            queue (snd (request env options w)) = queue w.
Proof.
  destruct (request env options w) as [r w'] eqn:H. cbn [snd].
  unfold request in H. fold (budget options) in H.
  destruct (Z.le_gt_cases (budget options) 0) as [Hle|Hgt].
  - replace (Z.to_nat (budget options)) with 0%nat in * by lia.
    cbn [request_loop] in H. unfold throw in H. injection H as _ <-.
    exists []. rewrite app_nil_r. cbn. repeat split; lia.
  - pose proof H as H'. apply request_loop_budget in H; [|lia].
    destruct H as (d & Hl & Hr & Hs).
    apply request_loop_runs in H'. destruct H' as (Hr' & Hb' & Hq' & _).
    exists d. tauto.
Qed.

(** X4. With a retry budget of zero or less the loop of [request] never runs:
    no request is issued, nothing is logged, and the call throws a
    [TypeError] (from reading [null.response]) instead of a formatted API
    error. *)
Theorem request_without_budget (env : Env) (options : Options) (w : World) :
  budget options <= 0 ->
  exists text, request env options w = (Threw (TypeError text), w).
Proof.
  intros Hle. unfold request. fold (budget options).
  replace (Z.to_nat (budget options)) with 0%nat by lia.
  eexists. reflexivity.
Qed.

Lemma request_without_budget_witness :
  budget (mkOptions None "/api/reddit/user" None None (Some 0)) <= 0 /\
  exists text,
    request Examples.all_ok (mkOptions None "/api/reddit/user" None None (Some 0))
      Examples.fresh_world = (Threw (TypeError text), Examples.fresh_world).
Proof.
  split; [discriminate|].
  apply (request_without_budget Examples.all_ok
           (mkOptions None "/api/reddit/user" None None (Some 0)) Examples.fresh_world).
  discriminate.
Defined.

(** X5. When the first attempt is answered with a 2xx response, [request]
    returns that response's body after exactly one request, without sleeping
    and without drawing a random number. *)
Theorem request_first_success (env : Env) (options : Options) (w : World)
    (response : Response) :
  1 <= budget options ->
  api env (tick w) = Resolved response ->
  request env options w =
  (Returned (Http.data response),
   mkWorld (results w) (batches w) (queue w) (nextId w)
     (log w ++ [ApiRequest (default "POST" (method options)) (endpoint options)
                  (data options) (effective_timeout (timeout options))])
     (S (tick w))).
Proof.
  intros Hb Hapi. unfold request. fold (budget options).
  destruct (Z.to_nat (budget options)) as [|n] eqn:E; [lia|].
  cbn [request_loop]. unfold bind, emit, ask, ret. cbn [tick]. now rewrite Hapi.
Qed.

Lemma request_first_success_witness :
  1 <= budget Examples.profile_request /\
  api Examples.all_ok (tick Examples.fresh_world) = Resolved (mkResponse 200 (JStr "ok")) /\
  fst (request Examples.all_ok Examples.profile_request Examples.fresh_world)
    = Returned (JStr "ok").
Proof.
  split; [discriminate|]. split; [reflexivity|].
  rewrite (request_first_success Examples.all_ok Examples.profile_request
             Examples.fresh_world (mkResponse 200 (JStr "ok")));
    [reflexivity | discriminate | reflexivity].
Defined.

Lemma request_loop_failure (env : Env) (options : Options) (maxRetries : Z)
    (remaining : nat) (attempt : Z) (lastError : option AxiosError)
    (w w' : World) (x : Exn) :
  request_loop env options maxRetries remaining attempt lastError w = (Threw x, w') ->
  match x with
  | FormattedError e =>
      Runtime.endpoint e = endpoint options /\
      upstream e = getErrorMessage (originalError e) /\
      Runtime.status e = response_status (originalError e) /\
      responseData e = option_map Http.data (Http.response (originalError e)) /\
      (lastError = Some (originalError e) \/
       exists t, (tick w <= t)%nat /\ api env t = Rejected (originalError e))
  | TypeError _ => lastError = None
  | PlainError _ => False
  end.
Proof.
  revert attempt lastError w.
  induction remaining as [|remaining IH]; intros attempt lastError w.
  - cbn [request_loop]. unfold throw. intros [= <- <-].
    destruct lastError as [e|]; cbn; [|reflexivity].
    repeat split. left. reflexivity.
  - cbn [request_loop]. unfold bind, emit, ask, ret. cbn [tick].
    destruct (api env (tick w)) as [response|error] eqn:Hapi; [discriminate|].
    assert (Hnext : forall w1, (tick w <= tick w1)%nat ->
              request_loop env options maxRetries remaining (attempt + 1) (Some error) w1
                = (Threw x, w') ->
              match x with
              | FormattedError e =>
                  Runtime.endpoint e = endpoint options /\
                  upstream e = getErrorMessage (originalError e) /\
                  Runtime.status e = response_status (originalError e) /\
                  responseData e = option_map Http.data (Http.response (originalError e)) /\
                  (lastError = Some (originalError e) \/
                   exists t, (tick w <= t)%nat /\ api env t = Rejected (originalError e))
              | TypeError _ => lastError = None
              | PlainError _ => False
              end).
    { intros w1 Hw1 H. apply IH in H. destruct x as [m|e|text]; [exact H| |discriminate].
      destruct H as (He & Hu & Hs & Hd & Hfrom). repeat split; try assumption.
      right. destruct Hfrom as [[= <-]|(t & Ht & Hrej)].
      - exists (tick w). split; [lia | exact Hapi].
      - exists t. split; [lia | exact Hrej]. }
    destruct (_ && _); intros H; eapply Hnext in H; try exact H; cbn; lia.
Qed.

(** X6. When [request] fails, what it throws is, for a positive budget, the
    formatted error of a rejection the downstream API gave during the call:
    it carries the endpoint of the call and the upstream message, status and
    response body of that rejection; a [TypeError] is thrown only for a
    budget of zero or less. *)
Theorem request_failure_is_formatted (env : Env) (options : Options) (w w' : World)
    (x : Exn) :
  request env options w = (Threw x, w') ->
  match x with
  | FormattedError e =>
      Runtime.endpoint e = endpoint options /\
      upstream e = getErrorMessage (originalError e) /\
      Runtime.status e = response_status (originalError e) /\
      responseData e = option_map Http.data (Http.response (originalError e)) /\
      exists t, (tick w <= t)%nat /\ api env t = Rejected (originalError e)
  | TypeError _ => budget options <= 0
  | PlainError _ => False
  end.
Proof.
  unfold request. fold (budget options). intros H.
  destruct (Z.le_gt_cases (budget options) 0) as [Hle|Hgt].
  - replace (Z.to_nat (budget options)) with 0%nat in H by lia.
    cbn [request_loop] in H. unfold throw in H. injection H as <- _. exact Hle.
  - destruct (Z.to_nat (budget options)) as [|n] eqn:E; [lia|].
    cbn [request_loop] in H. unfold bind, emit, ask, ret in H. cbn [tick] in H.
    destruct (api env (tick w)) as [response|error] eqn:Hapi; [discriminate|].
    assert (Hnext : forall w1, (tick w <= tick w1)%nat ->
              request_loop env options (budget options) n (1 + 1) (Some error) w1
                = (Threw x, w') ->
              match x with
              | FormattedError e =>
                  Runtime.endpoint e = endpoint options /\
                  upstream e = getErrorMessage (originalError e) /\
                  Runtime.status e = response_status (originalError e) /\
                  responseData e = option_map Http.data (Http.response (originalError e)) /\
                  exists t, (tick w <= t)%nat /\ api env t = Rejected (originalError e)
              | TypeError _ => budget options <= 0
              | PlainError _ => False
              end).
    { intros w1 Hw1 H1. apply request_loop_failure in H1.
      destruct x as [m|e|text]; [exact H1| |discriminate].
      destruct H1 as (He & Hu & Hs & Hd & Hfrom). repeat split; try assumption.
      destruct Hfrom as [[= <-]|(t & Ht & Hrej)].
      - exists (tick w). split; [lia | exact Hapi].
      - exists t. split; [lia | exact Hrej]. }
    destruct (_ && _); eapply Hnext in H; try exact H; cbn; lia.
Qed.

Lemma request_failure_is_formatted_witness :
  exists e w',
    request Examples.always_not_found Examples.profile_request Examples.fresh_world
      = (Threw (FormattedError e), w') /\
    Runtime.endpoint e = "/api/linkedin/profile" /\
    Runtime.status e = response_status (originalError e).
Proof.
  destruct (request Examples.always_not_found Examples.profile_request Examples.fresh_world)
    as [[v|[m|e|text]] w'] eqn:E; try (vm_compute in E; discriminate).
  exists e, w'. split; [reflexivity|].
  pose proof (request_failure_is_formatted Examples.always_not_found
                Examples.profile_request Examples.fresh_world w' (FormattedError e) E) as H.
  cbn in H. tauto.
Defined.

Lemma own_message_truthy (error : AxiosError) (fallback : string) :
  fallback <> "" -> truthy (own_message error fallback) = true.
Proof.
  intros Hf. unfold own_message.
  destruct (Http.message error) as [[|c m]|]; cbn; try reflexivity;
    destruct fallback; [congruence|reflexivity|congruence|reflexivity].
Qed.

(** X7. The upstream message extracted from a rejection is never empty or
    otherwise falsy, for the client and for the callback dispatcher: the
    error text recorded for a failed job always says something. *)
Theorem getErrorMessage_truthy (error : AxiosError) :
  truthy (getErrorMessage error) = true /\
  truthy (Callback.getErrorMessage error) = true.
Proof.
  unfold getErrorMessage, Callback.getErrorMessage. split.
  - destruct (truthy (prop (response_data error) "message")) eqn:E1; [exact E1|].
    destruct (truthy (prop (response_data error) "error")) eqn:E2; [exact E2|].
    now apply own_message_truthy.
  - destruct (truthy (prop (response_data error) "message")) eqn:E1; [exact E1|].
    destruct (truthy (prop (response_data error) "error")) eqn:E2; [exact E2|].
    now apply own_message_truthy.
Qed.

End ClientRetries.

(** ** The callback dispatcher *)

Section CallbackFacts.
Import Http Runtime Callback Measures.
#[local] Open Scope Z_scope.

Lemma jitter_bounds_fifth (d u : Q) :
  (0 <= d)%Q -> (0 <= u)%Q -> (u < 1)%Q ->
  ((8 # 10) * d <= d + d * (2 # 10) * (u * 2 - 1))%Q /\
  (d + d * (2 # 10) * (u * 2 - 1) <= (12 # 10) * d)%Q.
Proof. intros Hd Hu0 Hu1. split; nra. Qed.

(** X8. For every attempt number [n >= 1], base delay [b >= 0] and draw [u]
    in [0, 1), the callback backoff is within 20 percent of
    d = min(b * 2^(n-1), 30000), up to the rounding to an integer; it is never
    negative and never above 36 seconds. *)
Theorem calculateBackoff_within_jitter (n b : Z) (u : Q) :
  1 <= n -> 0 <= b -> (0 <= u)%Q -> (u < 1)%Q ->
  let d := Z.min (b * 2 ^ (n - 1)) 30000 in
  8 * d - 5 <= 10 * calculateBackoff n b u <= 12 * d + 5 /\
  0 <= calculateBackoff n b u <= 36000.
Proof.
  intros Hn Hb Hu0 Hu1 d.
  assert (Hd0 : 0 <= d <= 30000).
  { unfold d. assert (0 <= 2 ^ (n - 1)) by (apply Z.pow_nonneg; lia). nia. }
  unfold calculateBackoff.
  pose proof (nominal_delay_Z b n Hn) as Hd. fold d in Hd.
  set (delay := Qmin _ _) in *.
  assert (HdQ : (0 <= inject_Z d)%Q).
  { change 0%Q with (inject_Z 0). rewrite <- Zle_Qle. lia. }
  destruct (jitter_bounds_fifth delay u) as [Hlo Hhi]; [lra | exact Hu0 | exact Hu1 |].
  set (x := (delay + delay * (2 # 10) * (u * 2 - 1))%Q) in *.
  pose proof (Qfloor_le (x + (1 # 2))) as Hf1.
  pose proof (Qlt_floor (x + (1 # 2))) as Hf2.
  unfold Js.round. set (r := Qfloor (x + (1 # 2))) in *.
  rewrite inject_Z_plus in Hf2. change (inject_Z 1) with 1%Q in Hf2.
  assert (H1 : (inject_Z (8 * d) <= inject_Z (10 * r + 5))%Q).
  { rewrite inject_Z_plus, !inject_Z_mult.
    change (inject_Z 8) with 8%Q. change (inject_Z 10) with 10%Q.
    change (inject_Z 5) with 5%Q. lra. }
  assert (H2 : (inject_Z (10 * r) <= inject_Z (12 * d + 5))%Q).
  { rewrite inject_Z_plus, !inject_Z_mult.
    change (inject_Z 12) with 12%Q. change (inject_Z 10) with 10%Q.
    change (inject_Z 5) with 5%Q. lra. }
  rewrite <- Zle_Qle in H1, H2. lia.
Qed.

Lemma calculateBackoff_within_jitter_witness :
  1 <= 2 /\ 0 <= 1000 /\ (0 <= 3 # 4)%Q /\ ((3 # 4) < 1)%Q /\
  8 * Z.min (1000 * 2 ^ (2 - 1)) 30000 - 5 <= 10 * calculateBackoff 2 1000 (3 # 4)
    <= 12 * Z.min (1000 * 2 ^ (2 - 1)) 30000 + 5.
Proof.
  split; [lia|]. split; [lia|]. split; [discriminate|]. split; [reflexivity|].
  apply (calculateBackoff_within_jitter 2 1000 (3 # 4));
    [lia | lia | discriminate | reflexivity].
Defined.

Lemma post_attempts_app (a b : list Event) :
  post_attempts (a ++ b) = post_attempts a ++ post_attempts b.
Proof.
  induction a as [|e a IH]; [reflexivity|].
  destruct e; cbn; rewrite ?IH; reflexivity.
Qed.

Lemma sendCallback_loop_attempts (env : Env) (url : string) (payload : Payload)
    (maxRetries timeout baseDelay : Z) (remaining : nat) (attempt : Z)
    (lastError : option AxiosError) (w w' : World) (o : Outcome) :
  Z.of_nat remaining = maxRetries + 1 - attempt ->
  sendCallback_loop env url payload maxRetries timeout baseDelay remaining attempt
    lastError w = (Returned o, w') ->
  exists d k,
    log w' = log w ++ d /\ post_attempts d = count_from attempt k /\
    (k <= remaining)%nat /\ attempts o = attempt + Z.of_nat k - 1 /\
    (success o = false -> k = remaining) /\
    (success o = true -> (1 <= k)%nat /\ Callback.error o = None) /\
    skipped o = false.
Proof.
  revert attempt lastError w.
  induction remaining as [|remaining IH]; intros attempt lastError w Hinv.
  - cbn [sendCallback_loop]. destruct lastError as [e|]; [|discriminate].
    unfold ret. intros [= <- <-]. exists [], 0%nat. rewrite app_nil_r. cbn.
    repeat split; try lia; discriminate.
  - cbn [sendCallback_loop]. unfold bind, emit, ask, ret. cbn [tick log].
    destruct (hook env (tick w)) as [response|error].
    + intros [= <- <-]. cbn [log]. eexists [_], 1%nat. cbn.
      repeat split; try lia; discriminate.
    + assert (Hnext : forall w1 es,
                post_attempts es = [attempt] ->
                log w1 = log w ++ es ->
                sendCallback_loop env url payload maxRetries timeout baseDelay remaining
                  (attempt + 1) (Some error) w1 = (Returned o, w') ->
                exists d k,
                  log w' = log w ++ d /\ post_attempts d = count_from attempt k /\
                  (k <= S remaining)%nat /\ attempts o = attempt + Z.of_nat k - 1 /\
                  (success o = false -> k = S remaining) /\
                  (success o = true -> (1 <= k)%nat /\ Callback.error o = None) /\
                  skipped o = false).
      { intros w1 es Hes Hl1 H. apply IH in H; [|lia].
        destruct H as (d & k & Hl & Hp & Hk & Ha & Hf & Hs & Hsk).
        exists (es ++ d), (S k). rewrite Hl, Hl1, <- app_assoc.
        split; [reflexivity|]. rewrite post_attempts_app, Hes, Hp. cbn.
        split; [reflexivity|]. split; [lia|]. split; [lia|].
        split; [intros E; now rewrite (Hf E)|].
        split; [|exact Hsk]. intros E. destruct (Hs E). split; [lia | assumption]. }
      destruct (_ && _); intros H.
      * apply (Hnext _ [CallbackPost url payload timeout attempt;
                        CallbackSleep (calculateBackoff attempt baseDelay
                                         (random env (S (tick w))))]) in H;
          [exact H | reflexivity | cbn [log]; now rewrite <- app_assoc].
      * apply (Hnext _ [CallbackPost url payload timeout attempt]) in H;
          [exact H | reflexivity | reflexivity].
Qed.

(** X9. When [sendCallback] reports an outcome, its [attempts] field is the
    number of POSTs it made; the POSTs carry the attempt numbers 1, 2, ... in
    order and never exceed the retry budget; a failure is reported only after
    the whole budget was used, and a success carries no error. *)
Theorem sendCallback_counts_its_posts (cfg : Config) (env : Env) (url : string)
    (payload : Payload) (options : Options) (w w' : World) (o : Outcome) :
  sendCallback cfg env url payload options w = (Returned o, w') ->
  let budget := default (Js.parsed_or (CALLBACK_MAX_RETRIES_env cfg) 3) (maxRetries options) in
  exists d,
    log w' = log w ++ d /\
    post_attempts d = count_from 1 (Z.to_nat (attempts o)) /\
    0 <= attempts o <= Z.max 0 budget /\
    (success o = false -> attempts o = budget) /\
    (success o = true -> 1 <= attempts o /\ Callback.error o = None).
Proof.
  intros H budget. unfold sendCallback in H. fold budget in H.
  destruct (Z.le_gt_cases budget 0) as [Hle|Hgt].
  - replace (Z.to_nat budget) with 0%nat in H by lia. discriminate.
  - apply sendCallback_loop_attempts in H; [|lia].
    destruct H as (d & k & Hl & Hp & Hk & Ha & Hf & Hs & _).
    exists d. split; [exact Hl|].
    replace (Z.to_nat (attempts o)) with k by lia.
    split; [exact Hp|]. split; [lia|]. split.
    + intros E. specialize (Hf E). lia.
    + intros E. destruct (Hs E). split; [lia | assumption].
Qed.

Lemma sendCallback_counts_its_posts_witness :
  exists o w' d,
    sendCallback Examples.default_config
      (Examples.world (fun _ => Examples.ok) (fun _ => Examples.unavailable))
      "https://hooks.example/abc"
      (mkPayload "1" (JStr "r1") None "get_reddit_user" "completed"
         "2026-01-01T00:00:00.000Z" (Some JNull) None None)
      noOptions Examples.fresh_world = (Returned o, w') /\
    log w' = log Examples.fresh_world ++ d /\
    post_attempts d = count_from 1 (Z.to_nat (attempts o)) /\ attempts o = 3.
Proof.
  destruct (sendCallback Examples.default_config
              (Examples.world (fun _ => Examples.ok) (fun _ => Examples.unavailable))
              "https://hooks.example/abc"
              (mkPayload "1" (JStr "r1") None "get_reddit_user" "completed"
                 "2026-01-01T00:00:00.000Z" (Some JNull) None None)
              noOptions Examples.fresh_world) as [[o|x] w'] eqn:E;
    [|vm_compute in E; discriminate].
  destruct (sendCallback_counts_its_posts _ _ _ _ _ _ _ _ E) as (d & Hl & Hp & _).
  exists o, w', d. split; [reflexivity|]. split; [exact Hl|]. split; [exact Hp|].
  vm_compute in E. injection E as <- _. reflexivity.
Defined.

End CallbackFacts.

(** ** The queue and the batch hashes *)

Section QueueFacts.
Import Runtime Queue Shapes.
#[local] Open Scope Z_scope.

Lemma numbered_length (n : nat) (entries : list (JobData * Z)) :
  length (numbered n entries) = length entries.
Proof.
  revert n. induction entries as [|[d p] rest IH]; intros n; cbn; [reflexivity|].
  now rewrite IH.
Qed.

Lemma numbered_lookup (n : nat) (entries : list (JobData * Z)) (i : nat) (d : JobData) (p : Z) :
  entries !! i = Some (d, p) ->
  numbered n entries !! i = Some (mkJob (pretty (n + i)%nat) d (mkJobOpts defaultAttempts p) 0).
Proof.
  revert n i. induction entries as [|[d' p'] rest IH]; intros n i; [discriminate|].
  destruct i as [|i].
  - cbn. intros [= -> ->]. now rewrite Nat.add_0_r.
  - intros H. change (rest !! i = Some (d, p)) in H. cbn [numbered].
    change (numbered (S n) rest !! i =
            Some (mkJob (pretty (n + S i)%nat) d (mkJobOpts defaultAttempts p) 0)).
    rewrite (IH (S n) i H). do 3 f_equal. lia.
Qed.

Lemma addBulk_numbered (entries : list (JobData * Z)) (w : World) :
  addBulk entries w =
  (Returned (numbered (nextId w) entries),
   mkWorld (results w) (batches w) (queue w ++ numbered (nextId w) entries)
     (nextId w + length entries)%nat (log w) (tick w)).
Proof.
  revert w. induction entries as [|[d p] rest IH]; intros w.
  - destruct w. cbn. unfold ret. now rewrite app_nil_r, Nat.add_0_r.
  - cbn [addBulk numbered]. unfold bind at 1. unfold add at 1. cbn beta iota.
    unfold bind at 1. rewrite IH. unfold ret.
    cbn [results batches queue nextId log tick].
    rewrite <- app_assoc. cbn [app length].
    replace (S (nextId w) + length rest)%nat with (nextId w + S (length rest))%nat by lia.
    reflexivity.
Qed.

Lemma addBatch_run (env : Env) (batchId tool : string)
    (records : list (gmap string jsval)) (callbackUrl : option string) (priority : Z)
    (w : World) :
  let entries :=
    imap (fun index record =>
            (mkJobData tool record (record_rowId batchId index record) callbackUrl
               (Some batchId), priority)) records in
  addBatch env batchId tool records callbackUrl priority w =
  (Returned (numbered (nextId w) entries),
   mkWorld (results w)
     (<[batch_key batchId :=
          mkBatch (Z.of_nat (length records)) 0 0 (Some (now env (tick w))) (Some tool)]>
        (batches w))
     (queue w ++ numbered (nextId w) entries)
     (nextId w + length entries)%nat (log w) (S (tick w))).
Proof.
  intros entries. unfold addBatch. unfold bind at 1. unfold ask at 1. cbn beta iota.
  unfold bind at 1. unfold hset at 1. cbn beta iota.
  fold entries. rewrite addBulk_numbered. reflexivity.
Qed.

(** X10. [addBatch] writes the batch hash with [total] the number of records
    and both counters at zero, and appends one job per record to the queue, in
    order: job [i] carries the tool, record [i] verbatim as its parameters, the
    record's own [rowId] or else [batchId_i], the callback URL, the batch id,
    the priority and the three attempts of the queue defaults.  Results and
    other hashes are left alone. *)
Theorem addBatch_queues_records (env : Env) (batchId tool : string)
    (records : list (gmap string jsval)) (callbackUrl : option string) (priority : Z)
    (w : World) :
  exists jobs w',
    addBatch env batchId tool records callbackUrl priority w = (Returned jobs, w') /\
    queue w' = queue w ++ jobs /\ length jobs = length records /\
    (forall i record,
       records !! i = Some record ->
       jobs !! i =
       Some (mkJob (pretty (nextId w + i)%nat)
               (mkJobData tool record (record_rowId batchId i record) callbackUrl
                  (Some batchId))
               (mkJobOpts 3 priority) 0)) /\
    batches w' =
      <[batch_key batchId :=
          mkBatch (Z.of_nat (length records)) 0 0 (Some (now env (tick w))) (Some tool)]>
        (batches w) /\
    results w' = results w /\ log w' = log w.
Proof.
  rewrite addBatch_run. eexists _, _. split; [reflexivity|].
  cbn [results batches queue nextId log tick].
  split; [reflexivity|]. split; [now rewrite numbered_length, length_imap|].
  split; [|repeat split].
  intros i record Hrec.
  apply numbered_lookup. rewrite list_lookup_imap, Hrec. reflexivity.
Qed.

(** X11. Row ids generated for records that bring none are distinct for
    distinct positions of a batch, and are never empty. *)
Theorem generated_rowIds_distinct (batchId : string) (i j : nat)
    (r1 r2 : gmap string jsval) :
  Http.truthy (Js.get r1 "rowId") = false ->
  Http.truthy (Js.get r2 "rowId") = false ->
  Http.truthy (record_rowId batchId i r1) = true /\
  (record_rowId batchId i r1 = record_rowId batchId j r2 -> i = j).
Proof.
  intros H1 H2. unfold record_rowId. rewrite H1, H2. split.
  - cbn. destruct (batchId +:+ "_" +:+ pretty i) eqn:E; [|reflexivity].
    destruct batchId; discriminate.
  - intros [= H]. apply (inj (String.append batchId)) in H.
    apply (inj (String.append "_")) in H. now apply (inj pretty) in H.
Qed.

Lemma generated_rowIds_distinct_witness :
  Http.truthy (Js.get (<["user" := JStr "a"]> ∅) "rowId") = false /\
  Http.truthy (Js.get (<["user" := JStr "b"]> ∅) "rowId") = false /\
  (record_rowId "batch_0f8fad5b" 0 (<["user" := JStr "a"]> ∅)
   = record_rowId "batch_0f8fad5b" 1 (<["user" := JStr "b"]> ∅) -> 0%nat = 1%nat).
Proof.
  split; [vm_compute; reflexivity|]. split; [vm_compute; reflexivity|].
  apply (generated_rowIds_distinct "batch_0f8fad5b" 0 1
           (<["user" := JStr "a"]> ∅) (<["user" := JStr "b"]> ∅));
    vm_compute; reflexivity.
Defined.

End QueueFacts.

(** ** The life of a job *)

Section JobLife.
Import Http Runtime Spec Shapes Measures.
#[local] Open Scope Z_scope.

Lemma attempts_loop_Run (cfg : Config) (env : Env) (fuel : nat) (job : Job) (w : World) :
  0 < callbackMaxRetries cfg ->
  (1 <= fuel)%nat -> attempts (opts job) - attemptsMade job <= Z.of_nat fuel ->
  exists t w',
    Worker.attempts_loop cfg env fuel job w = (Returned (Some t), w') /\
    Run cfg env job w t w'.
Proof.
  intros Hpos. revert job w. induction fuel as [|fuel IH]; intros job w Hfuel Hleft; [lia|].
  rewrite attempts_loop_step, processJob_split. unfold bind at 1.
  destruct (process_before_callback cfg env job (activated job w)) as [[v|e] w1] eqn:Ep.
  - unfold bind.
    destruct (deliver_completed_returns cfg env job v Hpos w1) as ([] & w2 & Ed).
    rewrite Ed. unfold ret. eexists _, _. split; [reflexivity|].
    eapply RunCompleted; eassumption.
  - cbv zeta. rewrite handleJobFailure_split.
    cbn [Worker.attempted opts attemptsMade].
    destruct (attempts (opts job) <=? attemptsMade job + 1) eqn:Hfinal.
    + apply Z.leb_le in Hfinal. unfold bind.
      destruct (record_failure_returns cfg env (Worker.attempted job) e w1) as ([] & w2 & Er).
      rewrite Er.
      destruct (deliver_failed_returns cfg env (Worker.attempted job) e Hpos w2)
        as ([] & w3 & Ed).
      rewrite Ed. cbn [snd].
      destruct (Z.ltb_spec (attemptsMade job + 1) (attempts (opts job))); [lia|].
      eexists _, _. split; [reflexivity|]. eapply RunFailed; eassumption.
    + apply Z.leb_gt in Hfinal. cbn [snd].
      destruct (Z.ltb_spec (attemptsMade job + 1) (attempts (opts job))); [|lia].
      destruct (IH (Worker.attempted job) w1) as (t & w' & E & HR).
      { lia. }
      { cbn [Worker.attempted opts attemptsMade]. lia. }
      exists t, w'. split; [exact E|]. eapply RunRetry; eassumption.
Qed.

(** Every run is a life in the sense of [Run]. *)
Lemma run_Run (cfg : Config) (env : Env) (job : Job) (w : World) :
  0 < callbackMaxRetries cfg ->
  exists t w', Worker.run cfg env job w = (Returned (Some t), w') /\ Run cfg env job w t w'.
Proof.
  intros Hpos. unfold Worker.run. apply attempts_loop_Run; [exact Hpos|lia|lia].
Qed.


(** *** What a job leaves in the store *)

Lemma process_before_callback_store (cfg : Config) (env : Env) (job : Job)
    (w w' : World) (r : result jsval Exn) :
  process_before_callback cfg env job w = (r, w') ->
  queue w' = queue w /\ nextId w' = nextId w /\
  match r with
  | Threw _ => results w' = results w /\ batches w' = batches w
  | Returned v =>
      exists sr,
        results w' = <[Queue.result_key (id job) (batchId (data job)) := sr]> (results w) /\
        records_outcome job (Worker.JobCompleted v) (body sr) /\
        ttl sr = Js.parsed_or (RESULT_TTL_SECONDS_env cfg) 86400 /\
        batches w' = counted Completed (batchId (data job)) (batches w)
  end.
Proof.
  unfold process_before_callback.
  assert (Hnil : forall e, (Threw e, w) = (r, w') ->
            queue w' = queue w /\ nextId w' = nextId w /\
            match r with
            | Threw _ => results w' = results w /\ batches w' = batches w
            | Returned v =>
                exists sr,
                  results w' =
                    <[Queue.result_key (id job) (batchId (data job)) := sr]> (results w) /\
                  records_outcome job (Worker.JobCompleted v) (body sr) /\
                  ttl sr = Js.parsed_or (RESULT_TTL_SECONDS_env cfg) 86400 /\
                  batches w' = counted Completed (batchId (data job)) (batches w)
            end).
  { intros e [= <- <-]. auto. }
  destruct (ToolRegistry.getTool _) as [[config|]|]; [|apply Hnil|apply Hnil].
  destruct (ToolRegistry.validateParams _ _) as [validation|[]]; [|apply Hnil].
  destruct (negb _); [apply Hnil|]. clear Hnil.
  unfold bind at 1. unfold AnysiteClient.request.
  destruct (AnysiteClient.request_loop _ _ _ _ _ _ w) as [[v|e] w1] eqn:Ereq;
    apply request_loop_runs in Ereq; destruct Ereq as (Hr & Hb & Hq & Hn & _).
  - unfold bind, ask, Queue.storeResult, Queue.setex, when, Queue.updateBatchProgress,
      Queue.hincrby, ret, bind, ask, counted, batch_key.
    destruct (batchId (data job)) as [[|c b]|] eqn:Hbid; cbn [truthy_str];
      intros [= <- <-]; cbn [results batches queue nextId]; rewrite ?Hr, ?Hb;
      (split; [exact Hq|]); (split; [exact Hn|]); eexists;
      (split; [reflexivity|]); (split; [cbn; auto|]); (split; reflexivity).
  - intros [= <- <-]. auto.
Qed.

Lemma record_failure_store (cfg : Config) (env : Env) (job : Job) (error : Exn)
    (w w' : World) (u : unit) :
  record_failure cfg env job error w = (Returned u, w') ->
  queue w' = queue w /\ nextId w' = nextId w /\
  exists sr,
    results w' = <[Queue.result_key (id job) (batchId (data job)) := sr]> (results w) /\
    records_outcome job (Worker.JobFailed (message error)) (body sr) /\
    ttl sr = Js.parsed_or (RESULT_TTL_SECONDS_env cfg) 86400 /\
    batches w' = counted Failed (batchId (data job)) (batches w).
Proof.
  destruct u.
  unfold record_failure, bind, ask, Queue.storeResult, Queue.setex, when,
    Queue.updateBatchProgress, Queue.hincrby, ret, bind, ask, counted, batch_key.
  destruct (batchId (data job)) as [[|c b]|] eqn:Hbid; cbn [truthy_str];
    intros [= <-]; cbn [results batches queue nextId];
    (split; [reflexivity|]); (split; [reflexivity|]); eexists;
    (split; [reflexivity|]); (split; [cbn; auto|]); (split; reflexivity).
Qed.

Lemma Run_store (cfg : Config) (env : Env) (job : Job) (w w' : World) (t : Worker.Terminal) :
  Run cfg env job w t w' ->
  queue w' = queue w /\ nextId w' = nextId w /\
  exists sr,
    results w' = <[Queue.result_key (id job) (batchId (data job)) := sr]> (results w) /\
    records_outcome job t (body sr) /\
    ttl sr = Js.parsed_or (RESULT_TTL_SECONDS_env cfg) 86400 /\
    batches w' = counted (field_of t) (batchId (data job)) (batches w).
Proof.
  induction 1 as [job w w1 w2 v Hp Hd | job w w1 w2 w3 e Hp Hfin Hr Hd
                 | job w w1 w' e t Hp Hnot HR IH].
  - apply process_before_callback_store in Hp.
    destruct Hp as (Hq & Hn & sr & Hres & Hrec & Httl & Hbat).
    apply deliver_completed_runs in Hd. destruct Hd as (Hr2 & Hb2 & Hq2 & Hn2 & _).
    cbn [activated results batches queue nextId] in *.
    split; [congruence|]. split; [congruence|]. exists sr.
    split; [congruence|]. split; [exact Hrec|]. split; [exact Httl|].
    cbn [field_of]; congruence.
  - apply process_before_callback_store in Hp. destruct Hp as (Hq & Hn & Hres & Hbat).
    apply record_failure_store in Hr.
    destruct Hr as (Hq1 & Hn1 & sr & Hres1 & Hrec & Httl & Hbat1).
    apply deliver_failed_runs in Hd. destruct Hd as (Hr2 & Hb2 & Hq2 & Hn2 & _).
    cbn [activated results batches queue nextId Worker.attempted id data] in *.
    split; [congruence|]. split; [congruence|]. exists sr.
    split; [congruence|]. split; [|split; [exact Httl | cbn [field_of]; congruence]].
    destruct (body sr); exact Hrec.
  - apply process_before_callback_store in Hp. destruct Hp as (Hq & Hn & Hres & Hbat).
    destruct IH as (Hq1 & Hn1 & sr & Hres1 & Hrec & Httl & Hbat1).
    cbn [activated results batches queue nextId Worker.attempted id data] in *.
    split; [congruence|]. split; [congruence|]. exists sr.
    split; [congruence|]. split; [|split; [exact Httl | congruence]].
    destruct t, (body sr); exact Hrec.
Qed.



(** X13. Where the callback retry budget is positive (it is 3 by default), a
    job of a batch increments exactly one counter of its batch hash, by one
    and once: [completed] when it completes, [failed] when it fails on its
    last attempt; [total] and every other hash are left alone.  A job that
    belongs to no batch changes no hash.  (With a negative budget a job with
    a callback URL is counted on every attempt.) *)
Theorem run_counts_once (cfg : Config) (env : Env) (job : Job) (w : World) :
  0 < callbackMaxRetries cfg ->
  exists t w',
    Worker.run cfg env job w = (Returned (Some t), w') /\
    batches w' = counted (field_of t) (batchId (data job)) (batches w).
Proof.
  intros Hpos. destruct (run_Run cfg env job w Hpos) as (t & w' & E & HR).
  exists t, w'. split; [exact E|].
  apply Run_store in HR. destruct HR as (_ & _ & sr & _ & _ & _ & H). exact H.
Qed.

Lemma run_counts_once_witness :
  0 < callbackMaxRetries Examples.default_config /\
  exists t w',
    Worker.run Examples.default_config Examples.always_not_found Examples.profile_job
      Examples.fresh_world = (Returned (Some t), w') /\
    batches w' = counted (field_of t) (batchId (data Examples.profile_job))
                   (batches Examples.fresh_world).
Proof.
  split; [reflexivity|].
  apply (run_counts_once Examples.default_config Examples.always_not_found
           Examples.profile_job Examples.fresh_world).
  reflexivity.
Defined.

End JobLife.

(** ** The trace of a job *)

Section JobTrace.
Import Http Runtime Spec Shapes Measures Trace.
#[local] Open Scope Z_scope.
































End JobTrace.

(** ** Batches from submission to the last job *)

Section BatchFacts.
Import Runtime Spec Shapes Queue.
#[local] Open Scope Z_scope.

Lemma percent_bounds (t c : Z) :
  0 < t -> 0 <= c <= t -> 0 <= Js.round ((inject_Z c / inject_Z t) * 100)%Q <= 100.
Proof.
  intros Ht Hc.
  assert (HtQ : (0 < inject_Z t)%Q) by (change 0%Q with (inject_Z 0); now rewrite <- Zlt_Qlt).
  assert (H0 : (0 <= inject_Z c / inject_Z t)%Q).
  { apply Qle_shift_div_l; [exact HtQ|]. rewrite Qmult_0_l.
    change 0%Q with (inject_Z 0). rewrite <- Zle_Qle. lia. }
  assert (H1 : (inject_Z c / inject_Z t <= 1)%Q).
  { apply Qle_shift_div_r; [exact HtQ|]. rewrite Qmult_1_l. rewrite <- Zle_Qle. lia. }
  apply round_within.
  - change (inject_Z 0) with 0%Q. lra.
  - change (inject_Z 100) with 100%Q. lra.
Qed.

(** The range does not depend on the arithmetic being exact. *)
Lemma percent_bounds_robust (t c : Z) (x : Q) :
  0 < t -> 0 <= c <= t ->
  ((inject_Z c / inject_Z t) * 100 - (1 # 4) <= x)%Q ->
  (x <= (inject_Z c / inject_Z t) * 100 + (1 # 4))%Q ->
  0 <= Js.round x <= 100.
Proof.
  intros Ht Hc Hlo Hhi.
  assert (HtQ : (0 < inject_Z t)%Q) by (change 0%Q with (inject_Z 0); now rewrite <- Zlt_Qlt).
  assert (H0 : (0 <= inject_Z c / inject_Z t)%Q).
  { apply Qle_shift_div_l; [exact HtQ|]. rewrite Qmult_0_l.
    change 0%Q with (inject_Z 0). rewrite <- Zle_Qle. lia. }
  assert (H1 : (inject_Z c / inject_Z t <= 1)%Q).
  { apply Qle_shift_div_r; [exact HtQ|]. rewrite Qmult_1_l. rewrite <- Zle_Qle. lia. }
  apply round_within.
  - change (inject_Z 0) with 0%Q. lra.
  - change (inject_Z 100) with 100%Q. lra.
Qed.

(** X18. For a batch hash written by [addBatch] whose counters are within
    bounds ([completed] and [failed] not negative, together at most [total]),
    [getBatchStatus] reports numbers that add up:
    [total = completed + failed + pending] with [pending >= 0],
    [percentComplete] between 0 and 100, and
    [estimatedRemainingSeconds = ceil(pending * D / 1000)]. *)
Theorem getBatchStatus_adds_up (cfg : Config) (batchId : string) (w : World) (h : Batch)
    (stamp : string) :
  batches w !! batch_key batchId = Some h ->
  createdAt h = Some stamp ->
  0 <= completed h -> 0 <= failed h -> completed h + failed h <= total h ->
  exists st pending percent est,
    getBatchStatus cfg batchId w = (Returned (Some st), w) /\
    st_total st = Some (total h) /\ st_completed st = Some (completed h) /\
    st_failed st = Some (failed h) /\ st_pending st = Some pending /\
    st_percentComplete st = Some percent /\ st_estimatedRemainingSeconds st = Some est /\
    total h = completed h + failed h + pending /\ 0 <= pending /\
    0 <= percent <= 100 /\
    is_ceil_div est (pending * Js.parsed_or (DRIP_INTERVAL_MS_env cfg) 10000) 1000.
Proof.
  intros Hh Hc H0 H1 H2. unfold getBatchStatus. unfold batch_key in Hh. rewrite Hh.
  unfold hash_is_empty, field_total, field_counter, percentComplete. rewrite Hc.
  cbn [nan_sub].
  destruct (Z.ltb_spec 0 (total h)) as [Hpos|Hzero];
    eexists _, _, _, _; (split; [reflexivity|]);
    cbn [st_total st_completed st_failed st_pending st_percentComplete
           st_estimatedRemainingSeconds];
    do 6 (split; [reflexivity|]); (split; [lia|]); (split; [lia|]);
    (split; [|apply ceil_div_1000]).
  - apply percent_bounds; lia.
  - lia.
Qed.

Lemma getBatchStatus_adds_up_witness :
  exists st,
    getBatchStatus Examples.default_config "batch_0f8fad5b"
      (mkWorld ∅ (<[batch_key "batch_0f8fad5b" :=
                      mkBatch 4 1 1 (Some "2026-01-01T00:00:00.000Z")
                        (Some "get_reddit_user")]> ∅) [] 1 [] 0)
    = (Returned (Some st),
       mkWorld ∅ (<[batch_key "batch_0f8fad5b" :=
                      mkBatch 4 1 1 (Some "2026-01-01T00:00:00.000Z")
                        (Some "get_reddit_user")]> ∅) [] 1 [] 0) /\
    st_pending st = Some 2.
Proof.
  destruct (getBatchStatus_adds_up Examples.default_config "batch_0f8fad5b"
              (mkWorld ∅ (<[batch_key "batch_0f8fad5b" :=
                              mkBatch 4 1 1 (Some "2026-01-01T00:00:00.000Z")
                                (Some "get_reddit_user")]> ∅) [] 1 [] 0)
              (mkBatch 4 1 1 (Some "2026-01-01T00:00:00.000Z") (Some "get_reddit_user"))
              "2026-01-01T00:00:00.000Z")
    as (st & pending & percent & est & E & _ & _ & _ & Hp & _ & _ & Hsum & _).
  - apply lookup_insert_eq.
  - reflexivity.
  - cbn; lia.
  - cbn; lia.
  - cbn; lia.
  - exists st. split; [exact E|]. rewrite Hp. f_equal. cbn in Hsum. lia.
Defined.


Lemma round_zero_share (n : Z) : Js.round ((inject_Z 0 / inject_Z n) * 100)%Q = 0.
Proof.
  assert (H : 0 <= Js.round ((inject_Z 0 / inject_Z n) * 100)%Q <= 0); [|lia].
  apply round_within; unfold Qdiv; change (inject_Z 0) with 0%Q; lra.
Qed.

(** X19. Right after [addBatch], the status of the batch shows every record
    as pending: [total = pending = n], no job completed or failed, 0 percent,
    and an estimated remaining time of [ceil(n * D / 1000)] seconds, the
    estimate the submission itself was answered with. *)
Theorem status_after_submission (cfg : Config) (env : Env) (batchId tool : string)
    (records : list (gmap string jsval)) (callbackUrl : option string) (priority : Z)
    (w : World) :
  exists jobs w1 st,
    addBatch env batchId tool records callbackUrl priority w = (Returned jobs, w1) /\
    getBatchStatus cfg batchId w1 = (Returned (Some st), w1) /\
    st_total st = Some (Z.of_nat (length records)) /\
    st_completed st = Some 0 /\ st_failed st = Some 0 /\
    st_pending st = Some (Z.of_nat (length records)) /\
    st_percentComplete st = Some 0 /\
    st_estimatedRemainingSeconds st =
      Some (Js.ceil (inject_Z (Z.of_nat (length records) *
                               Js.parsed_or (DRIP_INTERVAL_MS_env cfg) 10000) / 1000)%Q) /\
    st_tool st = Some tool.
Proof.
  rewrite addBatch_run. eexists _, _, _. split; [reflexivity|].
  unfold getBatchStatus. cbn [batches]. unfold batch_key. rewrite lookup_insert_eq.
  cbn [hash_is_empty createdAt]. split; [reflexivity|].
  cbn [st_total st_completed st_failed st_pending st_percentComplete
         st_estimatedRemainingSeconds st_tool field_total field_counter createdAt total
         completed failed batchTool nan_sub].
  rewrite !Z.sub_0_r. do 4 (split; [reflexivity|]).
  split; [|split; reflexivity].
  unfold percentComplete. destruct (0 <? _); [|reflexivity].
  now rewrite round_zero_share.
Qed.

Lemma incr_fields (f : ProgressField) (h : Batch) :
  total (incr f h) = total h /\ createdAt (incr f h) = createdAt h /\
  batchTool (incr f h) = batchTool h /\
  completed (incr f h) = completed h + (match f with Completed => 1 | Failed => 0 end) /\
  failed (incr f h) = failed h + (match f with Completed => 0 | Failed => 1 end).
Proof. destruct f; cbn; repeat split; lia. Qed.

Lemma run_all_counts (cfg : Config) (env : Env) (b : string) (jobs : list Job) (w : World)
    (h : Batch) :
  0 < callbackMaxRetries cfg -> b <> "" ->
  Forall (fun job => batchId (data job) = Some b) jobs ->
  batches w !! batch_key b = Some h ->
  exists ts w' h',
    run_all cfg env jobs w = (Returned ts, w') /\
    batches w' !! batch_key b = Some h' /\
    total h' = total h /\ createdAt h' = createdAt h /\
    completed h' = completed h + completions ts /\
    failed h' = failed h + failures ts /\
    completions ts + failures ts = Z.of_nat (length jobs).
Proof.
  intros Hpos Hb Hall. revert w h.
  induction Hall as [|job jobs Hjob _ IH]; intros w h Hh.
  - exists [], w, h. split; [reflexivity|]. split; [exact Hh|].
    unfold completions, failures. cbn. repeat split; lia.
  - cbn [run_all]. unfold bind at 1.
    destruct (run_Run cfg env job w Hpos) as (t & w1 & E & HR). rewrite E.
    apply Run_store in HR. destruct HR as (_ & _ & sr & _ & _ & _ & Hbat).
    rewrite Hjob in Hbat. unfold counted in Hbat.
    destruct b as [|c b']; [congruence|]. rewrite Hh in Hbat. cbn [default] in Hbat.
    destruct (IH w1 (incr (field_of t) h)) as (ts & w' & h' & E' & Hh' & Ht & Hc & Hco & Hfa & Hsum).
    { rewrite Hbat. apply lookup_insert_eq. }
    unfold bind. rewrite E'. unfold ret.
    exists (Some t :: ts), w', h'. split; [reflexivity|]. split; [exact Hh'|].
    destruct (incr_fields (field_of t) h) as (It & Ic & _ & Ico & Ifa).
    unfold completions, failures in *. destruct t; cbn [field_of] in *; cbn;
      repeat split; try congruence; lia.
Qed.

(** X20. Where the callback retry budget is positive and the batch id is
    not empty: when the jobs queued by [addBatch] are then run one after the
    other, each to its end, the batch ends with [completed + failed = total]:
    the status shows the number of completed and of failed jobs, nothing
    pending and no remaining time. *)
Theorem batch_runs_to_its_total (cfg : Config) (env : Env) (batchId tool : string)
    (records : list (gmap string jsval)) (callbackUrl : option string) (priority : Z)
    (w : World) :
  0 < callbackMaxRetries cfg -> batchId <> "" ->
  exists jobs w1 ts w2 st,
    addBatch env batchId tool records callbackUrl priority w = (Returned jobs, w1) /\
    run_all cfg env jobs w1 = (Returned ts, w2) /\
    getBatchStatus cfg batchId w2 = (Returned (Some st), w2) /\
    st_total st = Some (Z.of_nat (length records)) /\
    st_completed st = Some (completions ts) /\ st_failed st = Some (failures ts) /\
    completions ts + failures ts = Z.of_nat (length records) /\
    st_pending st = Some 0 /\ st_estimatedRemainingSeconds st = Some 0.
Proof.
  intros Hpos Hb. rewrite addBatch_run. cbv zeta.
  set (entries := imap _ records). set (w1 := mkWorld _ _ _ _ _ _).
  destruct (run_all_counts cfg env batchId (numbered (nextId w) entries) w1
              (mkBatch (Z.of_nat (length records)) 0 0 (Some (now env (tick w))) (Some tool))
              Hpos Hb)
    as (ts & w2 & h' & E & Hh' & Ht & Hc & Hco & Hfa & Hsum).
  { apply Forall_lookup. intros i job Hi.
    destruct (entries !! i) as [[d p]|] eqn:He.
    - rewrite (numbered_lookup _ _ _ _ _ He) in Hi. injection Hi as <-.
      unfold entries in He. rewrite list_lookup_imap in He.
      destruct (records !! i); [|discriminate]. now injection He as <- _.
    - apply lookup_ge_None in He. apply lookup_lt_Some in Hi.
      rewrite numbered_length in Hi. lia. }
  { unfold w1. cbn [batches]. apply lookup_insert_eq. }
  rewrite numbered_length in Hsum. unfold entries in Hsum. rewrite length_imap in Hsum.
  cbn [total createdAt completed failed] in *.
  exists (numbered (nextId w) entries), w1, ts, w2. eexists.
  split; [reflexivity|]. split; [exact E|].
  unfold getBatchStatus. unfold batch_key in Hh'. rewrite Hh'.
  unfold hash_is_empty. rewrite Hc. split; [reflexivity|].
  cbn [st_total st_completed st_failed st_pending st_estimatedRemainingSeconds].
  unfold field_total, field_counter. rewrite Hc, Ht, Hco, Hfa. cbn [nan_sub].
  rewrite !Z.add_0_l. do 4 (split; [reflexivity || assumption|]).
  replace (Z.of_nat (length records) - completions ts - failures ts) with 0 by lia.
  split; reflexivity.
Qed.

Lemma batch_runs_to_its_total_witness :
  0 < callbackMaxRetries Examples.default_config /\ "batch_0f8fad5b" <> "" /\
  exists jobs w1 ts w2 st,
    addBatch Examples.not_found_once "batch_0f8fad5b" "get_reddit_user"
      [<["user" := JStr "a"]> ∅; <["user" := JStr "b"]> ∅] None 5 Examples.fresh_world
      = (Returned jobs, w1) /\
    run_all Examples.default_config Examples.not_found_once jobs w1 = (Returned ts, w2) /\
    getBatchStatus Examples.default_config "batch_0f8fad5b" w2 = (Returned (Some st), w2) /\
    st_total st = Some 2 /\ st_pending st = Some 0.
Proof.
  split; [reflexivity|]. split; [discriminate|].
  destruct (batch_runs_to_its_total Examples.default_config Examples.not_found_once
              "batch_0f8fad5b" "get_reddit_user"
              [<["user" := JStr "a"]> ∅; <["user" := JStr "b"]> ∅] None 5
              Examples.fresh_world ltac:(reflexivity) ltac:(discriminate))
    as (jobs & w1 & ts & w2 & st & E1 & E2 & E3 & Ht & _ & _ & _ & Hp & _).
  exists jobs, w1, ts, w2, st. auto.
Defined.


(** X21. A progress update for a batch whose hash does not exist creates a
    hash that holds nothing but the counter: where the callback retry budget
    is positive, after a job of such a batch has run, [getBatchStatus] finds
    the batch, with one job counted and [total], [pending] and the remaining
    time not numbers ([NaN]), [percentComplete] 0 and neither creation time
    nor tool. *)
Theorem status_without_submission (cfg : Config) (env : Env) (job : Job) (b : string)
    (w : World) :
  0 < callbackMaxRetries cfg -> batchId (data job) = Some b -> b <> "" ->
  batches w !! batch_key b = None ->
  exists t w' st,
    Worker.run cfg env job w = (Returned (Some t), w') /\
    getBatchStatus cfg b w' = (Returned (Some st), w') /\
    st_total st = None /\ st_pending st = None /\
    st_estimatedRemainingSeconds st = None /\ st_percentComplete st = Some 0 /\
    st_createdAt st = None /\ st_tool st = None /\
    match t with
    | Worker.JobCompleted _ => st_completed st = Some 1 /\ st_failed st = None
    | Worker.JobFailed _ => st_completed st = None /\ st_failed st = Some 1
    end.
Proof.
  intros Hpos Hjob Hb Hnone.
  destruct (run_Run cfg env job w Hpos) as (t & w' & E & HR).
  apply Run_store in HR. destruct HR as (_ & _ & sr & _ & _ & _ & Hbat).
  rewrite Hjob in Hbat. unfold counted in Hbat.
  destruct b as [|c b']; [congruence|]. rewrite Hnone in Hbat. cbn [default] in Hbat.
  exists t, w'. unfold getBatchStatus. fold (batch_key (String c b')).
  rewrite Hbat, lookup_insert_eq.
  destruct t; cbn; eexists; repeat split; exact E.
Qed.

Lemma status_without_submission_witness :
  0 < callbackMaxRetries Examples.default_config /\
  batches Examples.fresh_world !! batch_key "batch_0f8fad5b" = None /\
  exists t w' st,
    Worker.run Examples.default_config Examples.all_ok Examples.profile_job
      Examples.fresh_world = (Returned (Some t), w') /\
    getBatchStatus Examples.default_config "batch_0f8fad5b" w' = (Returned (Some st), w') /\
    st_total st = None.
Proof.
  split; [reflexivity|]. split; [reflexivity|].
  destruct (status_without_submission Examples.default_config Examples.all_ok
              Examples.profile_job "batch_0f8fad5b" Examples.fresh_world
              ltac:(reflexivity) ltac:(reflexivity) ltac:(discriminate) ltac:(reflexivity))
    as (t & w' & st & E & Hst & Ht & _).
  exists t, w', st. auto.
Defined.

End BatchFacts.

(** ** Submissions *)

Section SubmissionFacts.
Import Runtime Server Spec Shapes Queue.
#[local] Open Scope Z_scope.

(** [authenticateRequest] as a function of the path it reads. *)
Lemma authenticateRequest_by_path (cfg : Config) (req : Request) (secret : string) :
  WEBHOOK_SECRET cfg = Some secret -> secret <> "" ->
  (authenticateRequest cfg req = Next <->
   path req = "/api/health" \/ headers req !! "x-webhook-secret" = Some secret) /\
  (forall r, authenticateRequest cfg req = Respond r ->
     (code r = 401 /\ Js.truthy_str (headers req !! "x-webhook-secret") = false) \/
     (code r = 403 /\ Js.truthy_str (headers req !! "x-webhook-secret") = true /\
      headers req !! "x-webhook-secret" <> Some secret)).
Proof.
  intros Hs Hne. unfold authenticateRequest. rewrite Hs.
  destruct secret as [|c0 secret]; [congruence|]. cbn [Js.truthy_str negb].
  destruct (String.eqb_spec (path req) "/api/health") as [Hp|Hp].
  { split; [tauto|]. discriminate. }
  destruct (headers req !! "x-webhook-secret") as [[|c h]|] eqn:Hh; cbn [Js.truthy_str negb].
  - split; [split; [discriminate|intros [?|?]; congruence]|].
    intros r [= <-]. left. auto.
  - destruct (bool_decide_reflect (Some (String c h) = Some (String c0 secret))) as [He|He];
      cbn [negb].
    + split; [tauto|]. discriminate.
    + split; [split; [discriminate|intros [?|?]; congruence]|].
      intros r [= <-]. right. auto.
  - split; [split; [discriminate|intros [?|?]; congruence]|].
    intros r [= <-]. left. auto.
Qed.

Lemma health_under_api : under_mount "/api" "/api/health" = Some "/health".
Proof. reflexivity. Qed.

(** X22. With a webhook secret configured, the guard the server mounts with
    [app.use('/api', authenticateRequest)] lets [/api/health] through only
    with the right [x-webhook-secret] header: the middleware reads [req.path]
    without the mount point, [/health], so its test for [/api/health] does not
    fire there.  In general a request under [/api] passes exactly when its
    header is the secret or its path after the mount point is [/api/health]
    (the URL [/api/api/health]); every other request is answered 401 when the
    header is absent or empty and 403 when it holds another value. *)
Theorem api_guard_with_secret (cfg : Config) (url : string) (headers : gmap string string)
    (json : jsval) (secret : string) :
  WEBHOOK_SECRET cfg = Some secret -> secret <> "" ->
  (api_guard cfg "/api/health" headers json = Next <->
   headers !! "x-webhook-secret" = Some secret) /\
  (forall path, under_mount "/api" url = Some path ->
     (api_guard cfg url headers json = Next <->
      path = "/api/health" \/ headers !! "x-webhook-secret" = Some secret) /\
     (forall r, api_guard cfg url headers json = Respond r ->
        (code r = 401 /\ Js.truthy_str (headers !! "x-webhook-secret") = false) \/
        (code r = 403 /\ Js.truthy_str (headers !! "x-webhook-secret") = true /\
         headers !! "x-webhook-secret" <> Some secret))).
Proof.
  intros Hs Hne. split.
  - unfold api_guard. rewrite health_under_api.
    destruct (authenticateRequest_by_path cfg (mkRequest "/health" headers json) secret
                Hs Hne) as [Hiff _].
    cbn [path Server.headers] in Hiff. rewrite Hiff.
    split; [intros [H|H]; [discriminate|exact H] | auto].
  - intros path Hpath. unfold api_guard. rewrite Hpath.
    exact (authenticateRequest_by_path cfg (mkRequest path headers json) secret Hs Hne).
Qed.

Lemma api_guard_with_secret_witness :
  WEBHOOK_SECRET (mkConfig (Some "s3cret") None None None None None None) = Some "s3cret" /\
  "s3cret" <> "" /\
  api_guard (mkConfig (Some "s3cret") None None None None None None)
    "/api/health" ∅ JNull <> Next /\
  api_guard (mkConfig (Some "s3cret") None None None None None None)
    "/api/health" (<["x-webhook-secret" := "s3cret"]> ∅) JNull = Next.
Proof.
  split; [reflexivity|]. split; [discriminate|]. split.
  - intros H.
    apply (api_guard_with_secret (mkConfig (Some "s3cret") None None None None None None)
             "/api/health" ∅ JNull "s3cret" ltac:(reflexivity) ltac:(discriminate)) in H.
    rewrite lookup_empty in H. discriminate.
  - apply (api_guard_with_secret (mkConfig (Some "s3cret") None None None None None None)
             "/api/health" (<["x-webhook-secret" := "s3cret"]> ∅) JNull "s3cret"
             ltac:(reflexivity) ltac:(discriminate)).
    apply lookup_insert_eq.
Defined.

Lemma joi_string_nonempty (key : string) (v : jsval) (s : string) :
  joi_string key v = Returned s -> s <> "".
Proof. destruct v as [| | | |[|c r]| | |]; cbn; intros [= <-]. discriminate. Qed.

Lemma joi_priority_bounds (joi : JoiLib) (key : string) (v : jsval) (p : Z) :
  joi_priority joi key v = Returned p -> 1 <= p <= 10.
Proof.
  assert (H : forall q, joi_integer_between 1 10 key q = Returned p -> 1 <= p <= 10).
  { intros q. unfold joi_integer_between. destruct (negb _); [discriminate|].
    destruct (Z.ltb_spec (Qfloor q) 1); [discriminate|].
    destruct (Z.ltb_spec 10 (Qfloor q)); [discriminate|]. intros [= <-]. lia. }
  unfold joi_priority. destruct v; try discriminate; [apply H|].
  destruct (to_number joi s); [apply H|discriminate].
Qed.

Lemma optional_priority_bounds (joi : JoiLib) (o : gmap string jsval) (p : option Z) :
  optional "priority" (joi_priority joi) o = Returned p -> 1 <= default 5 p <= 10.
Proof.
  unfold optional. destruct (field o "priority") as [v|]; [|intros [= <-]; cbn; lia].
  destruct (joi_priority joi "priority" v) as [q|e] eqn:E; cbn; [|discriminate].
  intros [= <-]. cbn. eapply joi_priority_bounds; exact E.
Qed.

Lemma optional_uri (joi : JoiLib) (o : gmap string jsval) (url : option string) :
  optional "callbackUrl" (joi_uri joi) o = Returned url ->
  forall u, url = Some u -> u <> "" /\ is_uri joi u = true.
Proof.
  unfold optional. destruct (field o "callbackUrl") as [v|]; [|intros [= <-]; discriminate].
  unfold joi_uri. destruct (joi_string "callbackUrl" v) as [s|e] eqn:E; cbn; [|discriminate].
  destruct (is_uri joi s) eqn:Hu; cbn; [|discriminate].
  intros [= <-] u [= <-]. split; [eapply joi_string_nonempty; exact E | exact Hu].
Qed.

(** What [batchSchema] lets through of a body that is present. *)
Lemma batchSchema_bounds (joi : JoiLib) (limit : Z) (body : jsval) (value : BatchValue) :
  batchSchema joi limit body = Returned value ->
  (exists o, body = JObj o) /\
  b_tool value <> "" /\
  1 <= Z.of_nat (length (b_records value)) <= limit /\
  1 <= b_priority value <= 10 /\
  (forall u, b_callbackUrl value = Some u -> u <> "" /\ is_uri joi u = true).
Proof.
  unfold batchSchema. destruct body as [| | | | | |o|]; try discriminate.
  unfold required at 1. destruct (field o "tool") as [vt|]; [|discriminate].
  destruct (joi_string "tool" vt) as [tool|e] eqn:Ht; cbn [vbind]; [|discriminate].
  unfold required at 1. destruct (field o "records") as [vr|]; [|discriminate].
  unfold joi_records. destruct vr as [| | | | |items| |]; try discriminate.
  destruct (joi_items "records" items) as [records|e]; cbn [vbind]; [|discriminate].
  destruct (Z.ltb_spec (Z.of_nat (length records)) 1); [discriminate|].
  destruct (Z.ltb_spec limit (Z.of_nat (length records))); [discriminate|]. cbn [vbind].
  destruct (optional "callbackUrl" _ o) as [url|e] eqn:Hu; cbn [vbind]; [|discriminate].
  destruct (optional "priority" _ o) as [p|e] eqn:Hp; cbn [vbind]; [|discriminate].
  destruct (known_keys _ o); cbn [vbind]; [|discriminate].
  intros [= <-]. cbn [b_tool b_records b_priority b_callbackUrl].
  split; [now exists o|].
  split; [eapply joi_string_nonempty; exact Ht|]. split; [lia|].
  split; [eapply optional_priority_bounds; exact Hp|].
  eapply optional_uri; exact Hu.
Qed.

(** X23. [batchSchema.validate] lets an [undefined] body pass, its value
    being [undefined]: the schema is not marked [required()].  Every other
    body it accepts is an object, and the value has a non-empty tool name,
    between 1 and [limit] records, a priority between 1 and 10 (5 when none
    is given), and a callback URL that, when present, is not empty and passes
    the URI test. *)
Theorem batch_validation_sound (joi : JoiLib) (limit : Z) (body : jsval)
    (v : option BatchValue) :
  validate (batchSchema joi limit) body = Returned v ->
  match v with
  | None => body = JUndefined
  | Some value =>
      (exists o, body = JObj o) /\
      b_tool value <> "" /\
      1 <= Z.of_nat (length (b_records value)) <= limit /\
      1 <= b_priority value <= 10 /\
      (forall u, b_callbackUrl value = Some u -> u <> "" /\ is_uri joi u = true)
  end.
Proof.
  destruct v as [value|]; intros H.
  - apply validate_Some in H. destruct H as [_ H]. eapply batchSchema_bounds; exact H.
  - eapply validate_None; exact H.
Qed.

Lemma batch_validation_sound_witness :
  validate (batchSchema Examples.joi 2000) JUndefined = Returned None /\
  exists value,
    validate (batchSchema Examples.joi 2000) (json Examples.batch_submission)
      = Returned (Some value) /\
    1 <= Z.of_nat (length (b_records value)) <= 2000.
Proof.
  split; [reflexivity|].
  destruct (validate (batchSchema Examples.joi 2000) (json Examples.batch_submission))
    as [[value|]|e] eqn:E; try (vm_compute in E; discriminate).
  exists value. split; [reflexivity|].
  pose proof (batch_validation_sound Examples.joi 2000 (json Examples.batch_submission)
                (Some value) E) as H.
  cbn beta iota in H. tauto.
Defined.

(** X24. A [POST /api/batch] answered 202 has queued one job per record
    behind the jobs already waiting; each job carries the submitted tool, the
    callback URL, the priority and the batch id the reply announces, which is
    [batch_] followed by the first segment of a fresh UUID and which the
    status URL ends with.  The tool passed [toolExists]; no result was
    written. *)
Theorem accepted_batch_is_queued (cfg : Config) (env : Env) (joi : JoiLib) (req : Request)
    (w w' : World) (reply : Reply) :
  post_api_batch cfg env joi req w = (Returned reply, w') -> code reply = 202 ->
  exists value jobs est,
    batchSchema joi (MAX_BATCH_SIZE cfg) (json req) = Returned value /\
    ToolRegistry.toolExists (b_tool value) = true /\
    body reply =
      BatchQueued ("batch_" +:+ first_segment (uuidv4 env (tick w)))
        (length (b_records value)) est
        ("/api/status/" +:+ "batch_" +:+ first_segment (uuidv4 env (tick w))) /\
    queue w' = queue w ++ jobs /\ length jobs = length (b_records value) /\
    Forall (fun job =>
              tool (data job) = b_tool value /\
              batchId (data job) = Some ("batch_" +:+ first_segment (uuidv4 env (tick w))) /\
              callbackUrl (data job) = b_callbackUrl value /\
              priority (opts job) = b_priority value /\
              attempts (opts job) = 3 /\ attemptsMade job = 0) jobs /\
    results w' = results w.
Proof.
  unfold post_api_batch, try_catch.
  destruct (validate (batchSchema joi (MAX_BATCH_SIZE cfg)) (json req))
    as [[value|]|e] eqn:Hv.
  2,3: (intros [= <- <-]; discriminate).
  apply validate_Some in Hv. destruct Hv as [_ Hv].
  destruct (ToolRegistry.toolExists (b_tool value)) eqn:Htool; cbn [negb].
  2:{ intros [= <- <-]. discriminate. }
  unfold bind at 1. unfold ask at 1. cbn beta iota.
  unfold bind at 1. rewrite addBatch_run. cbv zeta. unfold ret.
  intros [= <- <-] _. cbn [body queue results tick].
  eexists value, _, _. split; [exact Hv|]. split; [exact Htool|].
  split; [now rewrite numbered_length, length_imap|]. split; [reflexivity|].
  split; [now rewrite numbered_length, length_imap|].
  split; [|reflexivity].
  apply Forall_lookup. intros i job Hi.
  match type of Hi with numbered ?n ?entries !! i = _ =>
    destruct (entries !! i) as [[d p]|] eqn:He end.
  - rewrite (numbered_lookup _ _ _ _ _ He) in Hi. injection Hi as <-.
    rewrite list_lookup_imap in He.
    destruct (b_records value !! i); [|discriminate].
    cbn in He. injection He as <- <-. cbn. repeat split.
  - apply lookup_ge_None in He. apply lookup_lt_Some in Hi.
    rewrite numbered_length in Hi. lia.
Qed.

Lemma accepted_batch_is_queued_witness :
  exists reply w' jobs,
    post_api_batch Examples.default_config Examples.all_ok Examples.joi
      Examples.batch_submission Examples.fresh_world = (Returned reply, w') /\
    code reply = 202 /\ queue w' = queue Examples.fresh_world ++ jobs /\
    length jobs = 2%nat.
Proof.
  destruct (post_api_batch Examples.default_config Examples.all_ok Examples.joi
              Examples.batch_submission Examples.fresh_world) as [[reply|e] w'] eqn:E;
    [|vm_compute in E; discriminate].
  assert (Hcode : code reply = 202) by (vm_compute in E; injection E as <- _; reflexivity).
  destruct (accepted_batch_is_queued _ _ _ _ _ _ _ E Hcode)
    as (value & jobs & est & Hv & _ & _ & Hq & Hlen & _).
  exists reply, w', jobs. split; [reflexivity|]. split; [exact Hcode|]. split; [exact Hq|].
  rewrite Hlen. vm_compute in Hv. injection Hv as <-. reflexivity.
Defined.

Lemma singleSchema_rowId (joi : JoiLib) (body : jsval) (value : SingleValue) (r : string) :
  singleSchema joi body = Returned value -> s_rowId value = Some r -> r <> "".
Proof.
  unfold singleSchema. destruct body as [| | | | | |o|]; try discriminate.
  destruct (required "tool" joi_string o) as [tool|e]; cbn [vbind]; [|discriminate].
  destruct (required "params" joi_object o) as [prms|e]; cbn [vbind]; [|discriminate].
  destruct (optional "callbackUrl" _ o) as [url|e]; cbn [vbind]; [|discriminate].
  destruct (optional "rowId" joi_string o) as [rowId|e] eqn:Hr; cbn [vbind]; [|discriminate].
  destruct (optional "priority" _ o) as [p|e]; cbn [vbind]; [|discriminate].
  destruct (known_keys _ o); cbn [vbind]; [|discriminate].
  intros [= <-]. cbn [s_rowId]. intros ->.
  unfold optional in Hr. destruct (field o "rowId") as [v|]; [|discriminate].
  destruct (joi_string "rowId" v) as [s|e] eqn:Hs; cbn in Hr; [|discriminate].
  injection Hr as <-. eapply joi_string_nonempty; exact Hs.
Qed.

(** X25. A [POST /api/single] answered 202 has queued exactly one job behind
    the jobs already waiting, with the submitted tool, parameters, callback
    URL and priority and no batch; its row id is the submitted one, or
    [single_] followed by the first segment of a fresh UUID; the reply names
    that job and that row id. *)
Theorem accepted_single_is_queued (cfg : Config) (env : Env) (joi : JoiLib) (req : Request)
    (w w' : World) (reply : Reply) :
  post_api_single cfg env joi req w = (Returned reply, w') -> code reply = 202 ->
  exists value job position est,
    singleSchema joi (json req) = Returned value /\
    ToolRegistry.toolExists (s_tool value) = true /\
    queue w' = queue w ++ [job] /\
    body reply = SingleQueued (id job) (rowId (data job)) position est /\
    id job = pretty (nextId w) /\
    tool (data job) = s_tool value /\ params (data job) = s_params value /\
    callbackUrl (data job) = s_callbackUrl value /\ batchId (data job) = None /\
    priority (opts job) = s_priority value /\ attempts (opts job) = 3 /\
    attemptsMade job = 0 /\
    rowId (data job) =
      match s_rowId value with
      | Some r => JStr r
      | None => JStr ("single_" +:+ first_segment (uuidv4 env (S (tick w))))
      end /\
    results w' = results w /\ batches w' = batches w.
Proof.
  unfold post_api_single, try_catch.
  destruct (validate (singleSchema joi) (json req)) as [[value|]|e] eqn:Hv.
  2,3: (intros [= <- <-]; discriminate).
  apply validate_Some in Hv. destruct Hv as [_ Hv].
  destruct (ToolRegistry.toolExists (s_tool value)) eqn:Htool; cbn [negb].
  2:{ intros [= <- <-]. discriminate. }
  pose proof (singleSchema_rowId joi (json req) value) as Hrow.
  specialize (Hrow) with (1 := Hv).
  unfold bind, getQueuePosition, getQueueStats, bind, ask, ret, single_rowId, addJob, add.
  destruct (s_rowId value) as [[|c r]|] eqn:Hrid; [now specialize (Hrow "" eq_refl)| |];
    unfold bind, ask, ret; intros [= <- <-] _; cbn;
    eexists value, _, _, _; (split; [exact Hv|]); (split; [exact Htool|]);
    (split; [reflexivity|]); (split; [reflexivity|]); repeat split;
    rewrite Hrid; reflexivity.
Qed.

Lemma accepted_single_is_queued_witness :
  exists reply w' job,
    post_api_single Examples.default_config Examples.all_ok Examples.joi
      Examples.single_submission Examples.fresh_world = (Returned reply, w') /\
    code reply = 202 /\ queue w' = queue Examples.fresh_world ++ [job] /\
    batchId (data job) = None.
Proof.
  destruct (post_api_single Examples.default_config Examples.all_ok Examples.joi
              Examples.single_submission Examples.fresh_world) as [[reply|e] w'] eqn:E;
    [|vm_compute in E; discriminate].
  assert (Hcode : code reply = 202) by (vm_compute in E; injection E as <- _; reflexivity).
  destruct (accepted_single_is_queued _ _ _ _ _ _ _ E Hcode)
    as (value & job & position & est & _ & _ & Hq & _ & _ & _ & _ & _ & Hb & _).
  exists reply, w', job. auto.
Defined.

(** X26. A submission answered 400 has changed nothing: no job is queued,
    no hash or result written, nothing logged, and the outside world is not
    consulted.  It was refused either by validation or because its tool
    fails [toolExists], and the reply then lists the tools.  A submission
    whose body is [undefined] passes validation and is answered 500, since
    taking the fields of the [undefined] value throws; it changes nothing
    either. *)
Theorem bad_request_changes_nothing (cfg : Config) (env : Env) (joi : JoiLib)
    (req : Request) (w : World) :
  (forall reply w',
     post_api_batch cfg env joi req w = (Returned reply, w') -> code reply = 400 ->
     w' = w /\
     ((exists details,
         validate (batchSchema joi (MAX_BATCH_SIZE cfg)) (json req) = Threw details /\
         body reply = ValidationFailed details) \/
      (exists value,
         validate (batchSchema joi (MAX_BATCH_SIZE cfg)) (json req) = Returned (Some value) /\
         ToolRegistry.toolExists (b_tool value) = false /\
         body reply = UnknownTool (b_tool value) ToolRegistry.listTools))) /\
  (forall reply w',
     post_api_single cfg env joi req w = (Returned reply, w') -> code reply = 400 ->
     w' = w /\
     ((exists details,
         validate (singleSchema joi) (json req) = Threw details /\
         body reply = ValidationFailed details) \/
      (exists value,
         validate (singleSchema joi) (json req) = Returned (Some value) /\
         ToolRegistry.toolExists (s_tool value) = false /\
         body reply = UnknownTool (s_tool value) ToolRegistry.listTools))) /\
  (json req = JUndefined ->
   exists text,
     post_api_batch cfg env joi req w =
       (Returned (mkReply 500 (Failure "Failed to queue batch" (MsgText text))), w) /\
     post_api_single cfg env joi req w =
       (Returned (mkReply 500 (Failure "Failed to queue job" (MsgText text))), w)).
Proof.
  split; [|split].
  - intros reply w'. unfold post_api_batch, try_catch.
    destruct (validate (batchSchema joi (MAX_BATCH_SIZE cfg)) (json req))
      as [[value|]|e] eqn:Hv.
    + destruct (ToolRegistry.toolExists (b_tool value)) eqn:Htool; cbn [negb].
      * unfold bind at 1. unfold ask at 1. cbn beta iota.
        unfold bind at 1. rewrite addBatch_run. cbv zeta. unfold ret.
        intros [= <- <-]. discriminate.
      * intros [= <- <-] _. split; [reflexivity|]. right. exists value. auto.
    + intros [= <- <-]. discriminate.
    + intros [= <- <-] _. split; [reflexivity|]. left. exists e. auto.
  - intros reply w'. unfold post_api_single, try_catch.
    destruct (validate (singleSchema joi) (json req)) as [[value|]|e] eqn:Hv.
    + destruct (ToolRegistry.toolExists (s_tool value)) eqn:Htool; cbn [negb].
      * unfold bind, getQueuePosition, getQueueStats, bind, ask, ret, single_rowId,
          addJob, add.
        destruct (s_rowId value) as [[|c r]|]; unfold bind, ask, ret;
          intros [= <- <-]; discriminate.
      * intros [= <- <-] _. split; [reflexivity|]. right. exists value. auto.
    + intros [= <- <-]. discriminate.
    + intros [= <- <-] _. split; [reflexivity|]. left. exists e. auto.
  - intros Hbody. unfold post_api_batch, post_api_single, try_catch. rewrite Hbody.
    eexists. split; reflexivity.
Qed.

Lemma bad_request_changes_nothing_witness :
  exists reply,
    post_api_batch Examples.default_config Examples.all_ok Examples.joi
      (mkRequest "/api/batch" ∅
         (JObj (<["tool" := JStr "get_nothing"]>
                  (<["records" := JArr [JObj ∅]]> ∅))))
      Examples.fresh_world = (Returned reply, Examples.fresh_world) /\
    code reply = 400 /\ body reply = UnknownTool "get_nothing" ToolRegistry.listTools.
Proof.
  destruct (post_api_batch Examples.default_config Examples.all_ok Examples.joi
              (mkRequest "/api/batch" ∅
                 (JObj (<["tool" := JStr "get_nothing"]>
                          (<["records" := JArr [JObj ∅]]> ∅))))
              Examples.fresh_world) as [[reply|e] w'] eqn:E;
    [|vm_compute in E; discriminate].
  assert (Hcode : code reply = 400) by (vm_compute in E; injection E as <- _; reflexivity).
  destruct (bad_request_changes_nothing Examples.default_config Examples.all_ok Examples.joi
              (mkRequest "/api/batch" ∅
                 (JObj (<["tool" := JStr "get_nothing"]>
                          (<["records" := JArr [JObj ∅]]> ∅))))
              Examples.fresh_world) as (Hbatch & _ & _).
  destruct (Hbatch reply w' E Hcode) as (-> & _).
  exists reply. split; [reflexivity|]. split; [exact Hcode|].
  vm_compute in E. injection E as <-. reflexivity.
Defined.

Lemma own_listed (table : list (string * ToolRegistry.ToolConfig)) (name : string) :
  In name (map fst table) <-> exists config, ToolRegistry.own table name = Some config.
Proof.
  induction table as [|[k c] rest IH]; cbn [map fst In ToolRegistry.own].
  - split; [tauto | intros [c H]; discriminate].
  - destruct (String.eqb_spec k name) as [->|Hne].
    + split; [eauto | auto].
    + rewrite <- IH. split; [intros [?|?]; [congruence|assumption] | auto].
Qed.

(** X27. [toolExists] accepts the names [listTools] lists and, besides, the
    names every object inherits from [Object.prototype]; [getTool] is truthy
    for the same names, and gives a tool definition exactly for the listed
    ones. *)
Theorem toolExists_iff (name : string) :
  (ToolRegistry.toolExists name = true <->
   In name ToolRegistry.listTools \/ Js.inherited name = true) /\
  (ToolRegistry.toolExists name = true <-> ToolRegistry.getTool name <> None) /\
  (In name ToolRegistry.listTools <->
   exists config, ToolRegistry.getTool name = Some (ToolRegistry.Tool config)).
Proof.
  unfold ToolRegistry.listTools. rewrite own_listed.
  unfold ToolRegistry.toolExists, ToolRegistry.getTool.
  destruct (ToolRegistry.own ToolRegistry.TOOL_REGISTRY name) as [config|].
  - repeat split; eauto; discriminate.
  - destruct (Js.inherited name).
    + repeat split; auto; try discriminate; intros [c H]; discriminate.
    + repeat split; try discriminate; try tauto.
      * intros [[c H]|H]; discriminate.
      * intros [c H]; discriminate.
      * intros [c H]; discriminate.
Qed.

End SubmissionFacts.
